(** * Span-links demo: trace-carrier codec, bounded queue, producer,
      worker, forward-link collection and the retry chain.

    A shallow embedding of the Go sources ([queue.go], [otel.go],
    [producer.go], the worker service, the forward-link driver of [main.go]
    and [examples/retry.go]) together with the properties stated for them,
    followed by the fan-out and fan-in examples, the log handler and
    further properties of all of these.

    Conventions.
    - Go strings are byte strings: they are [string] (a list of 8-bit
      [ascii]).
    - [[16]byte] and [[8]byte] identities are [vec byte 16] and [vec byte 8].
    - A call that may panic, block for ever or leave the process has an
      [Outcome] as its result.
    - The OpenTelemetry tracer is an external collaborator.  It is modelled
      by a store of span records indexed by span handles; the identities it
      hands out come from an oracle. *)

From Stdlib Require Import ZArith NArith List Bool Lia.
From Stdlib.Strings Require Import Byte Ascii String.
From stdpp Require Import base option list vector strings pretty gmap fin_maps.

Local Open Scope string_scope.
Local Open Scope list_scope.

(** ** Hexadecimal text ([encoding/hex]) *)

Module Hex.

(** [hextable] of [encoding/hex]. *)
Definition hextable : list ascii := list_ascii_of_string "0123456789abcdef".

Definition hexDigit (n : N) : ascii := nth (N.to_nat n) hextable "0"%char.

(** [hex.EncodeToString]: two lowercase digits per byte, high nibble first. *)
Fixpoint EncodeToString (bs : list byte) : string :=
  match bs with
  | [] => ""
  | b :: rest =>
      String (hexDigit (N.shiftr (Byte.to_N b) 4))
        (String (hexDigit (N.land (Byte.to_N b) 15)) (EncodeToString rest))
  end.

(** [fromHexChar]: the value of one hexadecimal digit. *)
Definition fromHexChar (c : ascii) : option N :=
  let n := N_of_ascii c in
  if (48 <=? n)%N && (n <=? 57)%N then Some (n - 48)%N
  else if (97 <=? n)%N && (n <=? 102)%N then Some (n - 97 + 10)%N
  else if (65 <=? n)%N && (n <=? 70)%N then Some (n - 65 + 10)%N
  else None.

Definition byteOfNibbles (hi lo : N) : byte :=
  default x00 (Byte.of_N (N.lor (N.shiftl hi 4) lo)).

(** [hex.DecodeString]: fails on an odd length or on a non-digit. *)
Fixpoint DecodeString (s : string) : option (list byte) :=
  match s with
  | EmptyString => Some []
  | String _ EmptyString => None
  | String hi (String lo rest) =>
      match fromHexChar hi, fromHexChar lo, DecodeString rest with
      | Some h, Some l, Some bs => Some (byteOfNibbles h l :: bs)
      | _, _, _ => None
      end
  end.

(** The pre-check of the tracing API's [decodeHex]: only [0-9a-f]. *)
Definition isLowerHex (c : ascii) : bool :=
  let n := N_of_ascii c in
  ((97 <=? n)%N && (n <=? 102)%N) || ((48 <=? n)%N && (n <=? 57)%N).

Definition decodeHex (h : string) : option (list byte) :=
  if forallb isLowerHex (list_ascii_of_string h) then DecodeString h else None.

End Hex.

(** ** Span identity ([go.opentelemetry.io/otel/trace]) *)

Module Trace.

Definition TraceID : Type := vec byte 16.
Definition SpanID : Type := vec byte 8.

Definition nilTraceID : TraceID := vreplicate 16 x00.
Definition nilSpanID : SpanID := vreplicate 8 x00.

Definition allZero (bs : list byte) : bool := forallb (Byte.eqb x00) bs.

Definition TraceID_IsValid (t : TraceID) : bool := negb (allZero (vec_to_list t)).
Definition SpanID_IsValid (s : SpanID) : bool := negb (allZero (vec_to_list s)).

Definition TraceID_String (t : TraceID) : string := Hex.EncodeToString (vec_to_list t).
Definition SpanID_String (s : SpanID) : string := Hex.EncodeToString (vec_to_list s).

(** A list of exactly [n] elements as a fixed-size array. *)
Fixpoint toArray {A : Type} (n : nat) (l : list A) : option (vec A n) :=
  match n, l with
  | O, [] => Some [#]
  | S n', x :: l' => match toArray n' l' with
                     | Some v => Some (x ::: v)
                     | None => None
                     end
  | _, _ => None
  end.

(** [trace.TraceIDFromHex]: 32 lowercase hex digits, not all zero. *)
Definition TraceIDFromHex (h : string) : option TraceID :=
  if negb (String.length h =? 32)%nat then None
  else match Hex.decodeHex h with
       | None => None
       | Some bs => match toArray 16 bs with
                    | None => None
                    | Some t => if TraceID_IsValid t then Some t else None
                    end
       end.

(** [trace.SpanIDFromHex]: 16 lowercase hex digits, not all zero. *)
Definition SpanIDFromHex (h : string) : option SpanID :=
  if negb (String.length h =? 16)%nat then None
  else match Hex.decodeHex h with
       | None => None
       | Some bs => match toArray 8 bs with
                    | None => None
                    | Some s => if SpanID_IsValid s then Some s else None
                    end
       end.

(** [trace.FlagsSampled]. *)
Definition FlagsSampled : byte := x01.

(** [trace.SpanContext] (the configuration record of [NewSpanContext] has
    the same fields). *)
Record SpanContext : Type := NewSpanContext {
  TraceID_of : TraceID;
  SpanID_of : SpanID;
  TraceFlags : byte;
  TraceState : string;
  Remote : bool
}.

(** [trace.SpanContext{}], the invalid sentinel. *)
Definition emptySpanContext : SpanContext :=
  NewSpanContext nilTraceID nilSpanID x00 "" false.

Definition IsValid (sc : SpanContext) : bool :=
  TraceID_IsValid (TraceID_of sc) && SpanID_IsValid (SpanID_of sc).

End Trace.

(** ** Control outcomes *)

(** What a call of the modelled Go code can do: return, panic at run time,
    block for ever on a channel operation, or leave the process through
    [log.Fatalf]. *)
Inductive Outcome (A : Type) : Type :=
| Returns (a : A)
| Panics
| Blocks
| Exits.
Arguments Returns {A} a.
Arguments Panics {A}.
Arguments Blocks {A}.
Arguments Exits {A}.

Definition obind {A B : Type} (m : Outcome A) (k : A -> Outcome B) : Outcome B :=
  match m with
  | Returns a => k a
  | Panics => Panics
  | Blocks => Blocks
  | Exits => Exits
  end.

Notation "'do' x <- m ; k" := (obind m (fun x => k))
  (at level 10, x pattern, m at level 100, k at level 200).

(** Go's [error] values that the sources build. [None] is [nil]. *)
Inductive error : Type :=
| ErrNew (msg : string)                          (* errors.New(msg) *)
| ErrCanceled                                    (* ctx.Err() of a done context *)
| ErrWrap (msg : string) (cause : error)         (* fmt.Errorf(msg + ": %w", cause) *)
| ErrWrapNil (msg : string).                     (* the same with a nil cause *)

Definition Errorf (msg : string) (cause : option error) : error :=
  match cause with
  | Some e => ErrWrap msg e
  | None => ErrWrapNil msg
  end.

(** Go's [int]: 64-bit two's complement. *)
Definition wrapInt (z : Z) : Z := ((z + 2 ^ 63) mod 2 ^ 64 - 2 ^ 63)%Z.

(** ** The tracer capability *)

Module Tracer.
Import Trace.

Inductive AttrValue : Type :=
| AString (s : string)
| AInt (z : Z)
| AFloat64 (z : Z)
| ABool (b : bool).

Definition KeyValue : Type := string * AttrValue.

(** [trace.Link]. *)
Record Link : Type := mkLink {
  LinkSpanContext : SpanContext;
  LinkAttributes : list KeyValue
}.

Inductive SpanKind : Type :=
| SpanKindInternal | SpanKindProducer | SpanKindConsumer.

Inductive Code : Type := CodeError | CodeOk.

(** A span handle ([trace.Span] when not nil): an index in the store. *)
Abbreviation Span := nat (only parsing).

(** The [context.Context] as far as tracing reads it: the SpanContext of
    [trace.SpanFromContext(ctx)], the zero value when it carries no span. *)
Definition Context : Type := SpanContext.

(** [context.Background()]. *)
Definition Background : Context := emptySpanContext.

Record SpanData : Type := mkSpanData {
  spName : string;
  spKind : SpanKind;
  spContext : SpanContext;
  spParent : SpanContext;
  spAttributes : list KeyValue;
  spLinks : list Link;
  spErrors : list error;
  spEvents : list (string * list KeyValue);
  spStatus : option (Code * string);
  spEndCalls : nat
}.

(** What happens in real time, oldest first. *)
Inductive Event : Type :=
| EvStart (h : Span)
| EvEnd (h : Span)
| EvSleep (d : Z).   (* time.Sleep(d), d in milliseconds *)

Record World : Type := mkWorld {
  idgen : nat -> TraceID * SpanID;  (* the identities of the n-th span *)
  spans : list SpanData;
  timeline : list Event
}.

Definition setSpans (W : World) (l : list SpanData) : World :=
  mkWorld (idgen W) l (timeline W).

Definition record (e : Event) (W : World) : World :=
  mkWorld (idgen W) (spans W) (timeline W ++ [e]).

(** [time.Sleep]. *)
Definition Sleep (d : Z) (W : World) : World := record (EvSleep d) W.

Definition updSpan (h : Span) (f : SpanData -> SpanData) (W : World) : World :=
  setSpans W (alter f h (spans W)).

(** A span records until its first [End]. *)
Definition isRecording (s : SpanData) : bool := Nat.eqb (spEndCalls s) 0.

(** The SDK (in the releases that provide [Span.AddLink]) keeps a link
    unless its target is invalid and it carries neither attributes nor
    trace state. Every link the sources build carries attributes. *)
Definition keepsLink (l : Link) : bool :=
  IsValid (LinkSpanContext l)
  || negb (Nat.eqb (length (LinkAttributes l)) 0)
  || negb (Nat.eqb (String.length (TraceState (LinkSpanContext l))) 0).

Definition withLink (l : Link) (s : SpanData) : SpanData :=
  if isRecording s && keepsLink l then
    mkSpanData (spName s) (spKind s) (spContext s) (spParent s) (spAttributes s)
      (spLinks s ++ [l]) (spErrors s) (spEvents s) (spStatus s) (spEndCalls s)
  else s.

Definition withError (e : error) (s : SpanData) : SpanData :=
  if isRecording s then
    mkSpanData (spName s) (spKind s) (spContext s) (spParent s) (spAttributes s)
      (spLinks s) (spErrors s ++ [e]) (spEvents s) (spStatus s) (spEndCalls s)
  else s.

Definition withEvent (name : string) (attrs : list KeyValue) (s : SpanData) : SpanData :=
  if isRecording s then
    mkSpanData (spName s) (spKind s) (spContext s) (spParent s) (spAttributes s)
      (spLinks s) (spErrors s) (spEvents s ++ [(name, attrs)]) (spStatus s) (spEndCalls s)
  else s.

Definition withStatus (c : Code) (msg : string) (s : SpanData) : SpanData :=
  if isRecording s then
    mkSpanData (spName s) (spKind s) (spContext s) (spParent s) (spAttributes s)
      (spLinks s) (spErrors s) (spEvents s) (Some (c, msg)) (spEndCalls s)
  else s.

Definition ended (s : SpanData) : SpanData :=
  mkSpanData (spName s) (spKind s) (spContext s) (spParent s) (spAttributes s)
    (spLinks s) (spErrors s) (spEvents s) (spStatus s) (S (spEndCalls s)).

(** [tracer.Start(ctx, name, WithSpanKind(kind), WithAttributes(attrs...),
    WithLinks(links...))]: a child of the span of [ctx] when that is valid,
    the root of a new trace otherwise. *)
Definition Start (W : World) (ctx : Context) (name : string) (kind : SpanKind)
    (attrs : list KeyValue) (links : list Link) : World * Context * Span :=
  let h := length (spans W) in
  let ids := idgen W h in
  let sc := NewSpanContext (if IsValid ctx then TraceID_of ctx else fst ids) (snd ids)
              FlagsSampled (if IsValid ctx then TraceState ctx else "") false in
  let s := mkSpanData name kind sc ctx attrs (List.filter keepsLink links) [] [] None 0 in
  (record (EvStart h) (setSpans W (spans W ++ [s])), sc, h).

(** [span.End()]. Every call is counted; only the first one has an effect
    in the SDK. *)
Definition End (h : Span) (W : World) : World := record (EvEnd h) (updSpan h ended W).

(** [span.RecordError(err)]; a nil error is ignored. *)
Definition RecordError (h : Span) (err : option error) (W : World) : World :=
  match err with
  | Some e => updSpan h (withError e) W
  | None => W
  end.

(** [span.AddEvent(name, WithAttributes(attrs...))]. *)
Definition AddEvent (h : Span) (name : string) (attrs : list KeyValue) (W : World) : World :=
  updSpan h (withEvent name attrs) W.

(** [span.SetStatus(code, msg)]. *)
Definition SetStatus (h : Span) (c : Code) (msg : string) (W : World) : World :=
  updSpan h (withStatus c msg) W.

(** [span.AddLink(link)]. *)
Definition AddLink (h : Span) (l : Link) (W : World) : World := updSpan h (withLink l) W.

(** [span.SpanContext()]. *)
Definition SpanContextOf (W : World) (h : Span) : SpanContext :=
  match spans W !! h with
  | Some s => spContext s
  | None => emptySpanContext
  end.

(** Number of [End] calls a span has received, its links, its errors. *)
Definition endCalls (W : World) (h : Span) : nat :=
  match spans W !! h with Some s => spEndCalls s | None => 0 end.
Definition linksOf (W : World) (h : Span) : list Link :=
  match spans W !! h with Some s => spLinks s | None => [] end.
Definition errorsOf (W : World) (h : Span) : list error :=
  match spans W !! h with Some s => spErrors s | None => [] end.

End Tracer.

(** ** The bounded queue ([queue.go]) and the carrier codec ([otel.go]) *)

Module Queue.
Import Trace Tracer.

(** A buffered Go channel: its buffer, oldest first, and its capacity. *)
Record Chan (A : Type) : Type := mkChan {
  chBuf : list A;
  chCap : nat
}.
Arguments mkChan {A} chBuf chCap.
Arguments chBuf {A} c.
Arguments chCap {A} c.

Definition makeChan {A : Type} (cap : nat) : Chan A := mkChan [] cap.

(** Which case of a two-way [select] fires: the channel operation or
    [<-ctx.Done()]. The environment decides; a channel case that cannot
    proceed never fires. *)
Inductive Fired : Type := ChanReady | CtxDone.

(** [constants.go]; its other revision has a batch size of 10. *)
Definition DefaultQueueCapacity : nat := 100.

(** [Order]. [Amount] is a float64 and [CreatedAt] a time; nothing modelled
    here computes with either, and the producer only stores whole amounts. *)
Record Order : Type := mkOrder {
  ID : string;
  CustomerID : string;
  Amount : Z;
  CreatedAt : Z;
  TraceParent : string;
  TraceState : string;
  OriginalSpanID : string
}.

(** [Order{}]. *)
Definition zeroOrder : Order := mkOrder "" "" 0 0 "" "" "".

Record SimpleQueue : Type := mkQueue { messages : Chan Order }.

Definition NewSimpleQueue : SimpleQueue := mkQueue (makeChan DefaultQueueCapacity).

(** [fmt.Sprintf("00-%s-%s-01", traceID, spanID)]. *)
Definition traceparent (sc : SpanContext) : string :=
  "00-" ++ TraceID_String (TraceID_of sc) ++ "-" ++ SpanID_String (SpanID_of sc) ++ "-01".

(** The message as [Publish] stamps it before sending. *)
Definition stamp (spanCtx : SpanContext) (order : Order) : Order :=
  let order1 := mkOrder (ID order) (CustomerID order) (Amount order) (CreatedAt order)
                  (TraceParent order) (TraceState order) (SpanID_String (SpanID_of spanCtx)) in
  mkOrder (ID order1) (CustomerID order1) (Amount order1) (CreatedAt order1)
    (traceparent spanCtx) (TraceState order1) (OriginalSpanID order1).

(** [SimpleQueue.Publish]. [Blocks]: the send can never proceed. *)
Definition Publish (q : SimpleQueue) (ctx : Context) (fired : Fired) (order : Order)
    : Outcome (SimpleQueue * option error) :=
  let spanCtx := ctx in
  let order' := stamp spanCtx order in
  match fired with
  | ChanReady =>
      if (length (chBuf (messages q)) <? chCap (messages q))%nat
      then Returns (mkQueue (mkChan (chBuf (messages q) ++ [order']) (chCap (messages q))), None)
      else Blocks
  | CtxDone => Returns (q, Some ErrCanceled)
  end.

(** [SimpleQueue.Consume]. *)
Definition Consume (q : SimpleQueue) (fired : Fired) : Outcome (SimpleQueue * Order * option error) :=
  match fired with
  | ChanReady =>
      match chBuf (messages q) with
      | msg :: rest => Returns (mkQueue (mkChan rest (chCap (messages q))), msg, None)
      | [] => Blocks
      end
  | CtxDone => Returns (q, zeroOrder, Some ErrCanceled)
  end.

(** [SimpleQueue.Length]. *)
Definition Length (q : SimpleQueue) : nat := length (chBuf (messages q)).

(** The slice expression [s[lo:hi]]. *)
Definition slice (s : string) (lo hi : nat) : Outcome string :=
  if (lo <=? hi)%nat && (hi <=? String.length s)%nat
  then Returns (substring lo (hi - lo) s)
  else Panics.

(** [SpanContextFromMessage]. *)
Definition SpanContextFromMessage (order : Order) : Outcome SpanContext :=
  if (String.length (TraceParent order) <? 53)%nat then Returns emptySpanContext
  else
    do traceIDStr <- slice (TraceParent order) 3 35 ;
    do spanIDStr <- slice (TraceParent order) 36 52 ;
    match TraceIDFromHex traceIDStr with
    | None => Returns emptySpanContext
    | Some tid =>
        match SpanIDFromHex spanIDStr with
        | None => Returns emptySpanContext
        | Some sid => Returns (NewSpanContext tid sid FlagsSampled "" true)
        end
    end.

End Queue.

(** ** The producer ([producer.go]) *)

Module Producer.
Import Trace Tracer Queue.

(** What the environment contributes to the publishing of item [i]: how
    many messages the workers take off the queue before the producer's
    [select] commits, and which case of it fires. *)
Record Sched : Type := mkSched {
  drained : nat;
  fired : Fired
}.

Record Env : Type := mkEnv {
  uuid8 : nat -> string;   (* uuid.New().String()[:8] of item i *)
  now : nat -> Z;          (* time.Now() of item i *)
  sched : nat -> Sched
}.

Record ProducerState : Type := mkState {
  world : World;
  queue : SimpleQueue
}.

Definition drain (k : nat) (q : SimpleQueue) : SimpleQueue :=
  mkQueue (mkChan (drop k (chBuf (messages q))) (chCap (messages q))).

(** The [Order] literal of iteration [i]. *)
Definition newOrder (env : Env) (i : nat) : Order :=
  mkOrder ("ORDER-" ++ uuid8 env i)
          ("CUST-" ++ pretty (wrapInt (1000 + Z.of_nat i)))
          (wrapInt (100 + wrapInt (Z.of_nat i * 10)))
          (now env i) "" "" "".

Definition orderAttrs (order : Order) : list KeyValue :=
  [("order.id", AString (ID order));
   ("customer.id", AString (CustomerID order));
   ("order.amount", AFloat64 (Amount order))].

(** The variables the loop of [publishInternal] updates. *)
Record LoopState : Type := mkLoop {
  lsWorld : World;
  lsQueue : SimpleQueue;
  lsPublished : Z;
  lsOrderSpans : gmap string (option Span);
  lsLastErr : option error
}.

(** One iteration of [for i := 0; i < count; i++], and the rest. *)
Fixpoint publishLoop (env : Env) (bctx : Context) (keepOpen : bool)
    (n i : nat) (st : LoopState) : Outcome LoopState :=
  match n with
  | O => Returns st
  | S n' =>
      let order := newOrder env i in
      let '(W1, ictx, pubSpan) :=
        Start (lsWorld st) bctx "PublishOrder" SpanKindInternal (orderAttrs order) [] in
      let q0 := drain (drained (sched env i)) (lsQueue st) in
      do (q1, err) <- Publish q0 ictx (fired (sched env i)) order ;
      match err with
      | Some e =>
          let W2 := End pubSpan (RecordError pubSpan (Some e) W1) in
          publishLoop env bctx keepOpen n' (S i)
            (mkLoop W2 q1 (lsPublished st) (lsOrderSpans st)
               (Some (Errorf ("failed to publish order " ++ ID order) (Some e))))
      | None =>
          let W2 := if keepOpen then W1 else End pubSpan W1 in
          publishLoop env bctx keepOpen n' (S i)
            (mkLoop W2 q1 (lsPublished st + 1)%Z
               (<[ID order := Some pubSpan]> (lsOrderSpans st)) (lsLastErr st))
      end
  end.

(** [for _, s := range orderSpans { s.End() }]; calling [End] on a nil
    interface value panics. *)
Definition endAll (m : gmap string (option Span)) (W : World) : Outcome World :=
  map_fold (fun _ s acc => do W' <- acc ;
                           match s with
                           | Some h => Returns (End h W')
                           | None => Panics
                           end) (Returns W) m.

(** The four results of [publishInternal]; a nil map is the empty map. *)
Record BatchResult : Type := mkResult {
  resSpan : option Span;
  resOrderSpans : gmap string (option Span);
  resCount : Z;
  resErr : option error
}.

Definition batchAttrs (count : Z) : list KeyValue := [("order.batch.size", AInt count)].

Definition publishInternal (env : Env) (st : ProducerState) (ctx : Context)
    (count : Z) (keepOpen : bool) : Outcome (ProducerState * BatchResult) :=
  if (count <=? 0)%Z then
    Returns (st, mkResult None ∅ 0 (Some (ErrNew "batch size must be greater than zero")))
  else
    let '(W0, bctx, span) :=
      Start (world st) ctx "PublishOrderBatch" SpanKindProducer (batchAttrs count) [] in
    do ls <- publishLoop env bctx keepOpen (Z.to_nat count) 0
               (mkLoop W0 (queue st) 0 ∅ None) ;
    if (lsPublished ls =? 0)%Z then
      let W1 := RecordError span (lsLastErr ls) (lsWorld ls) in
      let W2 := if keepOpen then W1 else End span W1 in
      Returns (mkState W2 (lsQueue ls),
               mkResult (Some span) (lsOrderSpans ls) 0
                 (Some (Errorf "failed to publish any orders" (lsLastErr ls))))
    else
      let W1 := AddEvent span "Batch published"
                  [("published.count", AInt (lsPublished ls)); ("total.count", AInt count)]
                  (lsWorld ls) in
      do W2 <- (if keepOpen then Returns W1 else endAll (lsOrderSpans ls) (End span W1)) ;
      Returns (mkState W2 (lsQueue ls),
               mkResult (Some span) (lsOrderSpans ls) (lsPublished ls) None).

(** [ProducerService.PublishOrderBatch]. *)
Definition PublishOrderBatch (env : Env) (st : ProducerState) (ctx : Context) (count : Z)
    : Outcome (ProducerState * (SpanContext * option error)) :=
  do (st', r) <- publishInternal env st ctx count false ;
  match resErr r with
  | Some e => Returns (st', (emptySpanContext, Some e))
  | None =>
      match resSpan r with
      | Some span => Returns (st', (SpanContextOf (world st') span, None))
      | None => Panics
      end
  end.

(** [ProducerService.PublishOrderBatchWithOpenSpan]. *)
Definition PublishOrderBatchWithOpenSpan (env : Env) (st : ProducerState) (ctx : Context)
    (count : Z) : Outcome (ProducerState * BatchResult) :=
  publishInternal env st ctx count true.

(** Number of [End] calls an item span has received when the loop of
    [publishInternal] is over. *)
Definition itemEnds (keepOpen : bool) (env : Env) (i : nat) : nat :=
  match fired (sched env i) with
  | CtxDone => 1
  | ChanReady => if keepOpen then 0 else 1
  end.

(** The message identities of items [i .. i+n-1] are pairwise distinct. *)
Definition distinctIDs (env : Env) (i n : nat) : Prop :=
  forall j1 j2, j1 < n -> j2 < n ->
    ID (newOrder env (i + j1)) = ID (newOrder env (i + j2)) -> j1 = j2.

(** The error kept for an item whose publish was cancelled. *)
Definition publishFailure (env : Env) (i : nat) : error :=
  ErrWrap ("failed to publish order " ++ ID (newOrder env i)) ErrCanceled.

End Producer.

(** ** The earlier revision of the producer ([producer.go], second text)

    [PublishOrderBatch] before [publishInternal] was factored out: the
    batch span is ended by a deferred call, every item span right after
    its publish. *)

Module ProducerStandalone.
Import Trace Tracer Queue.
Import Producer.

Record LoopState : Type := mkLoop {
  lsWorld : World;
  lsQueue : SimpleQueue;
  lsPublished : Z;
  lsLastErr : option error
}.

Fixpoint publishLoop (env : Env) (bctx : Context) (n i : nat) (st : LoopState)
    : Outcome LoopState :=
  match n with
  | O => Returns st
  | S n' =>
      let order := newOrder env i in
      let '(W1, ictx, pubSpan) :=
        Start (lsWorld st) bctx "PublishOrder" SpanKindInternal (orderAttrs order) [] in
      let q0 := drain (drained (sched env i)) (lsQueue st) in
      do (q1, err) <- Publish q0 ictx (fired (sched env i)) order ;
      match err with
      | Some e =>
          let W2 := End pubSpan (RecordError pubSpan (Some e) W1) in
          publishLoop env bctx n' (S i)
            (mkLoop W2 q1 (lsPublished st)
               (Some (Errorf ("failed to publish order " ++ ID order) (Some e))))
      | None =>
          publishLoop env bctx n' (S i)
            (mkLoop (End pubSpan W1) q1 (lsPublished st + 1)%Z (lsLastErr st))
      end
  end.

Definition PublishOrderBatch (env : Env) (st : ProducerState) (ctx : Context) (count : Z)
    : Outcome (ProducerState * (SpanContext * option error)) :=
  if (count <=? 0)%Z then
    Returns (st, (emptySpanContext, Some (ErrNew "batch size must be greater than zero")))
  else
    let '(W0, bctx, span) :=
      Start (world st) ctx "PublishOrderBatch" SpanKindProducer (batchAttrs count) [] in
    do ls <- publishLoop env bctx (Z.to_nat count) 0 (mkLoop W0 (queue st) 0 None) ;
    if (lsPublished ls =? 0)%Z then
      let W1 := RecordError span (lsLastErr ls) (lsWorld ls) in
      Returns (mkState (End span W1) (lsQueue ls),
               (emptySpanContext, Some (Errorf "failed to publish any orders" (lsLastErr ls))))
    else
      let W1 := AddEvent span "Batch published"
                  [("published.count", AInt (lsPublished ls)); ("total.count", AInt count)]
                  (lsWorld ls) in
      Returns (mkState (End span W1) (lsQueue ls), (SpanContextOf W1 span, None)).

End ProducerStandalone.

(** ** The worker service *)

Module Worker.
Import Trace Tracer Queue.

(** [OrderSpanContext]. *)
Record OrderSpanContext : Type := mkOSC {
  OrderID : string;
  Ctx : SpanContext
}.

(** The fields of [WorkerService] that processing reads or writes. *)
Record WorkerService : Type := mkWorker {
  activeOrders : Z;
  spanCtxSink : option (Chan OrderSpanContext)   (* None: nil channel *)
}.

(** [constants.go], in milliseconds. *)
Definition ValidationTimeout : Z := 100.
Definition PaymentTimeout : Z := 150.
Definition ShippingTimeout : Z := 120.

Definition validateOrder (W : World) (ctx : Context) (order : Order) : World * option error :=
  let '(W1, _, span) := Start W ctx "ValidateOrder" SpanKindInternal [] [] in
  let W2 := Sleep ValidationTimeout W1 in
  (End span W2, None).

Definition processPayment (W : World) (ctx : Context) (order : Order) : World * option error :=
  let '(W1, _, span) :=
    Start W ctx "ProcessPayment" SpanKindInternal [("payment.amount", AFloat64 (Amount order))] [] in
  let W2 := Sleep PaymentTimeout W1 in
  (End span W2, None).

Definition shipOrder (W : World) (ctx : Context) (order : Order) : World * option error :=
  let '(W1, _, span) :=
    Start W ctx "ShipOrder" SpanKindInternal [("customer.id", AString (CustomerID order))] [] in
  let W2 := Sleep ShippingTimeout W1 in
  (End span W2, None).

(** [select { case ch <- v: default: }]. *)
Definition trySend {A : Type} (ch : Chan A) (v : A) : Chan A :=
  if (length (chBuf ch) <? chCap ch)%nat then mkChan (chBuf ch ++ [v]) (chCap ch) else ch.

Definition backLink (originalSpanCtx : SpanContext) : Link :=
  mkLink originalSpanCtx
    [("link.type", AString "queue_consumption");
     ("source.service", AString "producer-service")].

Definition processAttrs (order : Order) (workerID : string) : list KeyValue :=
  [("order.id", AString (ID order));
   ("customer.id", AString (CustomerID order));
   ("order.amount", AFloat64 (Amount order));
   ("worker.id", AString workerID)].

(** [WorkerService.processOrderWithLink]. The two deferred calls run on
    every path after the span was started: the counter is decremented,
    then the span is ended. The third result is the handle of the
    processing span, when one was started. *)
Definition processOrderWithLink (w : WorkerService) (W : World) (ctx : Context)
    (order : Order) (workerID : string)
    : Outcome (WorkerService * World * option Span * option error) :=
  if String.eqb (ID order) "" then
    Returns (w, W, None, Some (ErrNew "order ID is required"))
  else
    do originalSpanCtx <- SpanContextFromMessage order ;
    let link := backLink originalSpanCtx in
    let '(W1, ctx1, span) :=
      Start W ctx "ProcessOrder" SpanKindConsumer (processAttrs order workerID) [link] in
    let w1 := mkWorker (activeOrders w + 1) (spanCtxSink w) in
    let leave (w' : WorkerService) (W' : World) (err : option error) :=
      Returns (mkWorker (activeOrders w' - 1) (spanCtxSink w'), End span W', Some span, err) in
    match validateOrder W1 ctx1 order with
    | (W2, Some err) =>
        leave w1 (RecordError span (Some err) W2) (Some (Errorf "validation failed" (Some err)))
    | (W2, None) =>
        match processPayment W2 ctx1 order with
        | (W3, Some err) =>
            leave w1 (RecordError span (Some err) W3)
              (Some (Errorf "payment processing failed" (Some err)))
        | (W3, None) =>
            match shipOrder W3 ctx1 order with
            | (W4, Some err) =>
                leave w1 (RecordError span (Some err) W4) (Some (Errorf "shipping failed" (Some err)))
            | (W4, None) =>
                let w2 :=
                  match spanCtxSink w1 with
                  | Some ch =>
                      mkWorker (activeOrders w1)
                        (Some (trySend ch (mkOSC (ID order) (SpanContextOf W4 span))))
                  | None => w1
                  end in
                leave w2 W4 None
            end
        end
    end.

End Worker.

(** ** The forward-link driver ([main.go]) *)

Module Forward.
Import Trace Tracer Queue Producer Worker.

Definition forwardLink (sc : OrderSpanContext) : Link :=
  mkLink (Ctx sc)
    [("link.direction", AString "forward");
     ("link.type", AString "forward_to_consumer");
     ("link.level", AString "order");
     ("order.id", AString (OrderID sc))].

(** The collection loop. [sink] holds, in order, the records the [select]
    receives before the timeout or the cancellation fires; when it is used
    up, one of those two fires and the loop is left. *)
Fixpoint collect (produced : Z) (collected sink : list OrderSpanContext)
    : list OrderSpanContext :=
  match sink with
  | [] => collected
  | sc :: rest =>
      if (Z.of_nat (length collected) <? produced)%Z
      then collect produced (if IsValid (Ctx sc) then collected ++ [sc] else collected) rest
      else collected
  end.

(** The body of [for _, sc := range collected]. *)
Definition linkStep (st : World * gmap string (option Span)) (sc : OrderSpanContext)
    : World * gmap string (option Span) :=
  match snd st !! OrderID sc with
  | Some (Some pubSpan) =>
      (End pubSpan (AddLink pubSpan (forwardLink sc) (fst st)),
       <[OrderID sc := None]> (snd st))
  | _ => st
  end.

Definition addForwardLinks (collected : list OrderSpanContext)
    (st : World * gmap string (option Span)) : World * gmap string (option Span) :=
  fold_left linkStep collected st.

(** [for oid, s := range orderSpans]: end whatever is still open. *)
Definition endRemaining (st : World * gmap string (option Span))
    : World * gmap string (option Span) :=
  map_fold (fun oid s acc =>
              match s with
              | Some h => (End h (fst acc), <[oid := None]> (snd acc))
              | None => acc
              end) st (snd st).

(** [runForwardSingleBatch]. [batchSize] is the constant [DefaultBatchSize]
    of [constants.go], which differs between the revisions of that file. *)
Definition runForwardSingleBatch (env : Env) (st : ProducerState) (ctx : Context)
    (batchSize : Z) (sink : list OrderSpanContext) : Outcome World :=
  do (st1, r) <- PublishOrderBatchWithOpenSpan env st ctx batchSize ;
  match resErr r with
  | Some _ => Exits
  | None =>
      let collected := collect (resCount r) [] sink in
      let st2 := addForwardLinks collected (world st1, resOrderSpans r) in
      let st3 := endRemaining st2 in
      match resSpan r with
      | Some batchSpan => Returns (End batchSpan (fst st3))
      | None => Panics
      end
  end.

(** No two message identities of the registry hold the same open span. *)
Definition openInj (m : gmap string (option nat)) : Prop :=
  forall k1 k2 h, m !! k1 = Some (Some h) -> m !! k2 = Some (Some h) -> k1 = k2.

(** The first collected record for a message identity. *)
Definition recordFor (k : string) (collected : list OrderSpanContext)
    : option OrderSpanContext :=
  find (fun sc => String.eqb (OrderID sc) k) collected.

End Forward.

(** ** The retry chain ([examples/retry.go]) *)

Module Retry.
Import Trace Tracer.

Definition requestID : string := "req-123".

Definition failure (attempt : Z) : error :=
  ErrNew ("processing failed on attempt " ++ pretty attempt).

(** [simulateProcessing]. [lucky] is the value of [rand.Float32() < 0.7],
    drawn only when the attempt is not the first. *)
Definition simulateProcessing (W : World) (span : Span) (attempt : Z) (lucky : bool)
    : World * bool :=
  let W1 := Sleep 50 W in
  if (attempt =? 1)%Z then
    (SetStatus span CodeError "Processing failed" (RecordError span (Some (failure attempt)) W1),
     false)
  else if lucky then
    (SetStatus span CodeOk "Processing succeeded"
       (AddEvent span "Processing succeeded" [("status", AString "success")] W1), true)
  else
    (SetStatus span CodeError "Processing failed" (RecordError span (Some (failure attempt)) W1),
     false).

Definition retryLink (originalSpanCtx : SpanContext) (attempt : Z) : Link :=
  mkLink originalSpanCtx
    [("link.type", AString "retry");
     ("retry.attempt", AInt attempt);
     ("original.request.id", AString requestID)].

(** [for attempt := 2; attempt <= maxRetries; attempt++], [n] iterations
    from [attempt] on. The second result tells whether an attempt
    succeeded. *)
Fixpoint retryLoop (rnd : Z -> bool) (originalSpanCtx : SpanContext)
    (n : nat) (attempt : Z) (W : World) : World * bool :=
  match n with
  | O => (W, false)
  | S n' =>
      let link := retryLink originalSpanCtx attempt in
      let '(W1, _, retrySpan) :=
        Start W Background "ProcessRequest" SpanKindInternal
          [("request.id", AString requestID); ("attempt", AInt attempt); ("is_retry", ABool true)]
          [link] in
      let '(W2, success) := simulateProcessing W1 retrySpan attempt (rnd attempt) in
      let W3 := End retrySpan W2 in
      if success then (W3, true)
      else
        let backoff := (attempt * 100)%Z in
        retryLoop rnd originalSpanCtx n' (attempt + 1)%Z (Sleep backoff W3)
  end.

(** [RetryExample], for any attempt budget; the source fixes
    [maxRetries := 3]. *)
Definition RetryWith (maxRetries : Z) (rnd : Z -> bool) (W : World) (ctx : Context) : World :=
  let '(W1, _, originalSpan) :=
    Start W ctx "ProcessRequest" SpanKindInternal
      [("request.id", AString requestID); ("attempt", AInt 1)] [] in
  let originalSpanCtx := SpanContextOf W1 originalSpan in
  let '(W2, success) := simulateProcessing W1 originalSpan 1 (rnd 1%Z) in
  let W3 := End originalSpan W2 in
  if success then W3
  else fst (retryLoop rnd originalSpanCtx (Z.to_nat (maxRetries - 1)) 2 W3).


(** The delays slept while no span is open, that is between attempts. *)
Fixpoint gaps (open : nat) (tl : list Event) : list Z :=
  match tl with
  | [] => []
  | EvStart _ :: rest => gaps (S open) rest
  | EvEnd _ :: rest => gaps (Nat.pred open) rest
  | EvSleep d :: rest =>
      match open with
      | O => d :: gaps open rest
      | S _ => gaps open rest
      end
  end.


(** What a run added to the timeline. *)
Definition since (W W' : World) : list Event := drop (length (timeline W)) (timeline W').



(** Each element is [num/den] times the one before it. *)
Definition geometric (num den : Z) (l : list Z) : Prop :=
  forall i a b, l !! i = Some a -> l !! S i = Some b -> (den * b = num * a)%Z.


End Retry.

(** ** Endpoint configuration ([otel.go]) *)

Module Config.

(** [strings.HasPrefix]. *)
Definition HasPrefix (s pre : string) : bool := String.prefix pre s.

(** [s[n:]], for [n] up to the length of [s]. *)
Fixpoint dropBytes (n : nat) (s : string) : string :=
  match n, s with
  | O, _ => s
  | S n', String _ rest => dropBytes n' rest
  | S _, EmptyString => EmptyString
  end.

(** [strings.TrimPrefix]. *)
Definition TrimPrefix (s pre : string) : string :=
  if HasPrefix s pre then dropBytes (String.length pre) s else s.

(** [parseEndpoint]: the host and port of the endpoint, and whether the
    exporters are to connect without TLS. *)
Definition parseEndpoint (endpoint : string) : string * bool :=
  if HasPrefix endpoint "https://" then (TrimPrefix endpoint "https://", false)
  else if HasPrefix endpoint "http://" then (TrimPrefix endpoint "http://", true)
  else (endpoint, true).

End Config.

(** ** Clients of the queue *)

Module Scenario.
Import Trace Tracer Queue.

(** One call on the queue, by any of its clients. *)
Inductive Op : Type :=
| OpPublish (ctx : Context) (fired : Fired) (order : Order)
| OpConsume (fired : Fired).

(** What the clients saw: the arguments of the calls of [Publish] that
    returned nil, and the messages that [Consume] returned with a nil
    error, both oldest first. *)
Record Log : Type := mkLog {
  accepted : list (Context * Order);
  delivered : list Order
}.

(** The calls of [ops] in this order on one queue. *)
Fixpoint runOps (ops : list Op) (q : SimpleQueue) (log : Log) : Outcome (SimpleQueue * Log) :=
  match ops with
  | [] => Returns (q, log)
  | OpPublish ctx fired order :: rest =>
      do (q', err) <- Publish q ctx fired order ;
      runOps rest q'
        (match err with
         | None => mkLog (accepted log ++ [(ctx, order)]) (delivered log)
         | Some _ => log
         end)
  | OpConsume fired :: rest =>
      do (q', msg, err) <- Consume q fired ;
      runOps rest q'
        (match err with
         | None => mkLog (accepted log) (delivered log ++ [msg])
         | Some _ => log
         end)
  end.

(** The messages that accepted calls put on the channel. *)
Definition stamped (l : list (Context * Order)) : list Order :=
  map (fun it => stamp (fst it) (snd it)) l.

End Scenario.

(** ** The worker loop *)

Module WorkerLoop.
Import Trace Tracer Queue Worker.

(** What the environment decides in one turn of the loop of
    [ProcessOrders]: whether the context is done when the loop tests it,
    and which case of the [select] in [Consume] fires. *)
Record Tick : Type := mkTick {
  doneAtCheck : bool;
  consumeFired : Fired
}.

(** [WorkerService.ProcessOrders], on a queue that nobody else uses
    meanwhile. [Consume] fails only when the context is done, so that
    [ctx.Err()] is not nil after a failure and the loop is left. [Blocks]:
    the worker waits in [Consume], or the ticks end with the worker still
    in its loop. *)
Fixpoint ProcessOrders (ticks : list Tick) (w : WorkerService) (W : World)
    (q : SimpleQueue) (ctx : Context) (workerID : string)
    : Outcome (WorkerService * World * SimpleQueue) :=
  match ticks with
  | [] => Blocks
  | t :: rest =>
      if doneAtCheck t then Returns (w, W, q)
      else
        do (q', order, err) <- Consume q (consumeFired t) ;
        match err with
        | Some _ => Returns (w, W, q')
        | None =>
            do (w', W', _, _) <- processOrderWithLink w W ctx order workerID ;
            ProcessOrders rest w' W' q' ctx workerID
        end
  end.



(** A turn in which the worker finds its context done. *)
Definition stops (t : Tick) : bool :=
  doneAtCheck t || match consumeFired t with CtxDone => true | ChanReady => false end.

End WorkerLoop.

(** ** What a batch leaves behind *)

Module Batch.
Import Trace Tracer Queue Producer.

(** The SpanContext that [Start] gives to the span with handle [h] when
    it is started under [parent]. *)
Definition childContext (gen : nat -> TraceID * SpanID) (parent : Context) (h : nat)
    : SpanContext :=
  NewSpanContext (if IsValid parent then TraceID_of parent else fst (gen h)) (snd (gen h))
    FlagsSampled (if IsValid parent then Trace.TraceState parent else "") false.

(** The items among [n] from item [i] on whose send goes through, each
    with the handle of its span; the span of item [i] has handle [h]. *)
Fixpoint sentItems (env : Env) (h i n : nat) : list (nat * nat) :=
  match n with
  | O => []
  | S n' =>
      match fired (sched env i) with
      | ChanReady => (h, i) :: sentItems env (S h) (S i) n'
      | CtxDone => sentItems env (S h) (S i) n'
      end
  end.

(** The message of a sent item as it is on the channel. *)
Definition itemMessage (env : Env) (gen : nat -> TraceID * SpanID) (bctx : Context)
    (hi : nat * nat) : Order :=
  stamp (childContext gen bctx (fst hi)) (newOrder env (snd hi)).

(** The registry built from the sent items. *)
Definition register (env : Env) (m : gmap string (option nat)) (sent : list (nat * nat))
    : gmap string (option nat) :=
  fold_left (fun acc hi => <[ID (newOrder env (snd hi)) := Some (fst hi)]> acc) sent m.

(** The span of item [i], with handle [h], when the loop of
    [publishInternal] is over. *)
Definition itemRecord (env : Env) (keepOpen : bool) (gen : nat -> TraceID * SpanID)
    (bctx : Context) (h i : nat) : SpanData :=
  mkSpanData "PublishOrder" SpanKindInternal (childContext gen bctx h) bctx
    (orderAttrs (newOrder env i)) []
    (match fired (sched env i) with
     | ChanReady => []
     | CtxDone => [ErrCanceled]
     end)
    [] None (itemEnds keepOpen env i).

(** How many messages the workers take while [n] items from item [i] on
    are published. *)
Definition totalDrained (env : Env) (i n : nat) : nat :=
  sum_list (map (fun j => drained (sched env j)) (seq i n)).

(** The tracer hands out identities that are not all zero. *)
Definition validIDs (gen : nat -> TraceID * SpanID) : Prop :=
  forall h, TraceID_IsValid (fst (gen h)) = true /\ SpanID_IsValid (snd (gen h)) = true.

End Batch.

(** ** What an attempt of the retry chain leaves behind *)

Module Attempts.
Import Trace Tracer Retry Batch.



End Attempts.

(** ** Fan-out ([examples/fanout.go]) *)

Module FanOut.
Import Trace Tracer Batch.

Definition items : list string := ["item-1"; "item-2"; "item-3"; "item-4"; "item-5"].

Definition link (rootSpanCtx : SpanContext) (batchID : string) (idx : nat) : Link :=
  mkLink rootSpanCtx
    [("link.type", AString "fan_out");
     ("batch.id", AString batchID);
     ("item.index", AInt (Z.of_nat idx))].

Definition itemAttrs (itemID batchID : string) (idx : nat) : list KeyValue :=
  [("item.id", AString itemID);
   ("batch.id", AString batchID);
   ("item.index", AInt (Z.of_nat idx))].

(** A goroutine of the loop: how many of its four tracer and timer calls
    it has made, and its span once it has started one. *)
Record Goroutine : Type := mkG {
  pc : nat;
  span : nat
}.

(** The next call of the goroutine of item [idx]: start the span, sleep,
    add the event, end the span (the deferred call; [wg.Done] follows). *)
Definition stepItem (rootSpanCtx : SpanContext) (batchID : string) (idx : nat)
    (itemID : string) (g : Goroutine) (W : World) : Goroutine * World :=
  match pc g with
  | 0 =>
      let '(W1, _, itemSpan) :=
        Start W Background "ProcessItem" SpanKindInternal (itemAttrs itemID batchID idx)
          [link rootSpanCtx batchID idx] in
      (mkG 1 itemSpan, W1)
  | 1 => (mkG 2 (span g), Sleep 200 W)
  | 2 => (mkG 3 (span g),
          AddEvent (span g) "Item processed" [("item.status", AString "completed")] W)
  | 3 => (mkG 4 (span g), End (span g) W)
  | _ => (g, W)
  end.

Definition finished (g : Goroutine) : bool := (4 <=? pc g)%nat.

(** The goroutines under a schedule: each entry lets the goroutine of
    that index make its next call; an entry for a goroutine that is over,
    or for none, is passed over. *)
Fixpoint run (rootSpanCtx : SpanContext) (batchID : string) (sched : list nat)
    (gs : list Goroutine) (W : World) : list Goroutine * World :=
  match sched with
  | [] => (gs, W)
  | i :: rest =>
      match gs !! i, items !! i with
      | Some g, Some itemID =>
          let '(g', W') := stepItem rootSpanCtx batchID i itemID g W in
          run rootSpanCtx batchID rest (<[i := g']> gs) W'
      | _, _ => run rootSpanCtx batchID rest gs W
      end
  end.


(** The span of item [idx], with handle [h], after [n] calls of its
    goroutine. *)
Definition itemSpanAt (gen : nat -> TraceID * SpanID) (rootSpanCtx : SpanContext)
    (batchID : string) (h idx n : nat) : SpanData :=
  mkSpanData "ProcessItem" SpanKindInternal (childContext gen Background h) Background
    (itemAttrs (nth idx items "") batchID idx) [link rootSpanCtx batchID idx] []
    (if (3 <=? n)%nat then [("Item processed", [("item.status", AString "completed")])] else [])
    None (if (4 <=? n)%nat then 1 else 0).

(** How many goroutines have started their span. *)
Definition startedCount (gs : list Goroutine) : nat :=
  sum_list (map (fun g => if (1 <=? pc g)%nat then 1 else 0) gs).

(** What holds of the goroutines and the store at every point of a
    schedule; [W0] is the store when the goroutines are launched and [L]
    the handle of the root span. *)
Definition invariant (W0 : World) (L : nat) (rootSpanCtx : SpanContext) (batchID : string)
    (gs : list Goroutine) (W : World) : Prop :=
  length gs = length items /\
  idgen W = idgen W0 /\
  length (spans W) = L + 1 + startedCount gs /\
  (forall h, h <= L -> spans W !! h = spans W0 !! h) /\
  (exists tl, timeline W = timeline W0 ++ tl) /\
  forall i g, gs !! i = Some g ->
    pc g <= 4 /\
    (1 <= pc g ->
       L < span g /\
       spans W !! span g = Some (itemSpanAt (idgen W0) rootSpanCtx batchID (span g) i (pc g))) /\
    (pc g = 4 -> In (EvEnd (span g)) (timeline W)).

(** Every goroutine of the loop gets its four turns. *)
Definition fair (sched : list nat) : Prop :=
  forall i, i < length items -> 4 <= count_occ Nat.eq_dec sched i.

End FanOut.

(** ** Fan-in ([FanInExample]) *)

Module FanIn.
Import Trace Tracer Queue Batch.

Definition numProducers : nat := 3.

Definition producerAttrs (producerID : nat) : list KeyValue :=
  [("producer.id", AInt (Z.of_nat producerID));
   ("item.value", AString ("value-" ++ pretty producerID)%string)].

Definition link (producerSpanCtx : SpanContext) (i : nat) : Link :=
  mkLink producerSpanCtx
    [("link.type", AString "fan_in");
     ("producer.index", AInt (Z.of_nat i))].

(** A producer goroutine: how many of its five calls it has made, and
    its span once it has started one. *)
Record Goroutine : Type := mkG {
  pc : nat;
  span : nat
}.

(** What the goroutines share. *)
Record Shared : Type := mkShared {
  store : World;
  producerSpansChan : Chan SpanContext;
  results : Chan string
}.

(** A send on a buffered channel goes through when there is room; a
    goroutine whose send cannot go through stays where it is. *)
Definition send {A : Type} (ch : Chan A) (v : A) : option (Chan A) :=
  if (length (chBuf ch) <? chCap ch)%nat then Some (mkChan (chBuf ch ++ [v]) (chCap ch))
  else None.

(** The next call of the goroutine of [producerID]: start the span, send
    its SpanContext, sleep, send the result, end the span (the deferred
    call; [wg.Done] follows). *)
Definition stepProducer (producerID : nat) (g : Goroutine) (s : Shared) : Goroutine * Shared :=
  match pc g with
  | 0 =>
      let '(W1, _, producerSpan) :=
        Start (store s) Background "ProduceItem" SpanKindInternal (producerAttrs producerID) [] in
      (mkG 1 producerSpan, mkShared W1 (producerSpansChan s) (results s))
  | 1 =>
      match send (producerSpansChan s) (SpanContextOf (store s) (span g)) with
      | Some ch => (mkG 2 (span g), mkShared (store s) ch (results s))
      | None => (g, s)
      end
  | 2 => (mkG 3 (span g), mkShared (Sleep 150 (store s)) (producerSpansChan s) (results s))
  | 3 =>
      match send (results s) ("item-from-producer-" ++ pretty producerID)%string with
      | Some ch => (mkG 4 (span g), mkShared (store s) (producerSpansChan s) ch)
      | None => (g, s)
      end
  | 4 => (mkG 5 (span g), mkShared (End (span g) (store s)) (producerSpansChan s) (results s))
  | _ => (g, s)
  end.

Definition finished (g : Goroutine) : bool := (5 <=? pc g)%nat.

(** The goroutines under a schedule, as in the fan-out example. *)
Fixpoint run (sched : list nat) (gs : list Goroutine) (s : Shared) : list Goroutine * Shared :=
  match sched with
  | [] => (gs, s)
  | i :: rest =>
      match gs !! i with
      | Some g =>
          let '(g', s') := stepProducer i g s in
          run rest (<[i := g']> gs) s'
      | None => run rest gs s
      end
  end.


(** The span of a producer, with handle [h], after [n] calls of its
    goroutine. *)
Definition producerSpanAt (gen : nat -> TraceID * SpanID) (h producerID n : nat) : SpanData :=
  mkSpanData "ProduceItem" SpanKindInternal (childContext gen Background h) Background
    (producerAttrs producerID) [] [] [] None (if (5 <=? n)%nat then 1 else 0).

(** How many goroutines have made at least [k] calls. *)
Definition reached (k : nat) (gs : list Goroutine) : nat :=
  sum_list (map (fun g => if (k <=? pc g)%nat then 1 else 0) gs).

(** What holds of the goroutines and of what they share at every point
    of a schedule; [W0] is the store when the goroutines are launched and
    [arrival] lists the producers in the order in which they have sent
    their SpanContext. *)
Definition invariant (W0 : World) (arrival : list nat) (gs : list Goroutine) (s : Shared)
    : Prop :=
  let L := length (spans W0) in
  length gs = numProducers /\
  idgen (store s) = idgen W0 /\
  length (spans (store s)) = L + reached 1 gs /\
  (forall h, h < L -> spans (store s) !! h = spans W0 !! h) /\
  (exists tl, timeline (store s) = timeline W0 ++ tl) /\
  chCap (producerSpansChan s) = numProducers /\
  chCap (results s) = numProducers /\
  length (chBuf (results s)) = reached 4 gs /\
  length arrival = reached 2 gs /\
  NoDup arrival /\
  Forall2 (fun p sc => exists g, gs !! p = Some g /\ 2 <= pc g /\
                                 sc = childContext (idgen W0) Background (span g))
    arrival (chBuf (producerSpansChan s)) /\
  forall i g, gs !! i = Some g ->
    pc g <= 5 /\
    (1 <= pc g ->
       L <= span g /\
       spans (store s) !! span g = Some (producerSpanAt (idgen W0) (span g) i (pc g))) /\
    (pc g = 5 -> In (EvEnd (span g)) (timeline (store s))).

(** Every producer gets its five turns. *)
Definition fair (sched : list nat) : Prop :=
  forall i, i < numProducers -> 5 <= count_occ Nat.eq_dec sched i.

End FanIn.

(** ** The log handler ([examples/common.go]) *)

Module Logging.
Import Trace.

(** [slog.Attr], its value as [Value.String()] renders it. *)
Definition Attr : Type := (string * string)%type.

(** [slog.Record]: time, level, message and attributes. *)
Record Record : Type := mkRecord {
  Time : Z;
  Level : Z;
  Message : string;
  Attrs : list Attr
}.







Section Handler.

(** [slog.Level.String()]. *)
Variable levelString : Z -> string.



End Handler.


End Logging.

(** ** Sample inputs *)

Module Sample.
Import Trace Tracer Queue Producer Worker.

Definition byteOf (n : nat) : byte := default x00 (Byte.of_nat n).

(** An identity generator that numbers the spans. *)
Definition ids (n : nat) : TraceID * SpanID :=
  (byteOf (S n) ::: vreplicate 15 x00, byteOf (S n) ::: vreplicate 7 xaa).

Definition world0 : World := mkWorld ids [] [].

Definition state0 : ProducerState := mkState world0 NewSimpleQueue.

(** Every send goes through. *)
Definition allSent : Env :=
  mkEnv (fun i => pretty i) (fun _ => 0%Z) (fun _ => mkSched 0 ChanReady).

(** The context is cancelled before any send. *)
Definition allCancelled : Env :=
  mkEnv (fun i => pretty i) (fun _ => 0%Z) (fun _ => mkSched 0 CtxDone).

(** The SpanContext of some consumer span. *)
Definition consumerCtx : SpanContext :=
  NewSpanContext (xab ::: vreplicate 15 x01) (x0f ::: vreplicate 7 xf0) x01 "" false.




End Sample.

(** ** A tracer that hands out valid identities *)

Module Fixtures.
Import Trace Tracer Queue Producer.

Definition validGen (n : nat) : TraceID * SpanID :=
  (x01 ::: vreplicate 15 (Sample.byteOf n), x02 ::: vreplicate 7 (Sample.byteOf n)).

Definition world1 : World := mkWorld validGen [] [].

Definition state1 : ProducerState := mkState world1 NewSimpleQueue.

End Fixtures.

(** * Properties *)

Import Trace Tracer Queue.

(** ** The codec *)

Section Codec.

Lemma byte_hex_roundtrip (b : byte) :
  let hi := N.shiftr (Byte.to_N b) 4 in
  let lo := N.land (Byte.to_N b) 15 in
  Hex.fromHexChar (Hex.hexDigit hi) = Some hi /\
  Hex.fromHexChar (Hex.hexDigit lo) = Some lo /\
  Hex.byteOfNibbles hi lo = b /\
  Hex.isLowerHex (Hex.hexDigit hi) = true /\
  Hex.isLowerHex (Hex.hexDigit lo) = true.
Proof. destruct b; vm_compute; repeat split; reflexivity. Qed.

Lemma length_EncodeToString (bs : list byte) :
  String.length (Hex.EncodeToString bs) = 2 * length bs.
Proof. induction bs as [|b bs IH]; simpl; [reflexivity | rewrite IH; lia]. Qed.

Lemma DecodeString_EncodeToString (bs : list byte) :
  Hex.DecodeString (Hex.EncodeToString bs) = Some bs.
Proof.
  induction bs as [|b bs IH]; [reflexivity|].
  destruct (byte_hex_roundtrip b) as (Hhi & Hlo & Hb & _).
  cbn [Hex.EncodeToString Hex.DecodeString].
  rewrite Hhi, Hlo, IH, Hb. reflexivity.
Qed.

Lemma lowerHex_EncodeToString (bs : list byte) :
  forallb Hex.isLowerHex (list_ascii_of_string (Hex.EncodeToString bs)) = true.
Proof.
  induction bs as [|b bs IH]; [reflexivity|].
  destruct (byte_hex_roundtrip b) as (_ & _ & _ & Hhi & Hlo).
  cbn [Hex.EncodeToString list_ascii_of_string forallb].
  rewrite Hhi, Hlo, IH. reflexivity.
Qed.

Lemma decodeHex_EncodeToString (bs : list byte) :
  Hex.decodeHex (Hex.EncodeToString bs) = Some bs.
Proof.
  unfold Hex.decodeHex.
  rewrite lowerHex_EncodeToString. apply DecodeString_EncodeToString.
Qed.

Lemma toArray_vec_to_list {A : Type} (n : nat) (v : vec A n) :
  toArray n (vec_to_list v) = Some v.
Proof. induction v as [|x n v IH]; simpl; [reflexivity | rewrite IH; reflexivity]. Qed.

Lemma length_TraceID_String (t : TraceID) : String.length (TraceID_String t) = 32.
Proof. unfold TraceID_String. rewrite length_EncodeToString, length_vec_to_list. reflexivity. Qed.

Lemma length_SpanID_String (s : SpanID) : String.length (SpanID_String s) = 16.
Proof. unfold SpanID_String. rewrite length_EncodeToString, length_vec_to_list. reflexivity. Qed.

Lemma TraceIDFromHex_String (t : TraceID) :
  TraceIDFromHex (TraceID_String t) = if TraceID_IsValid t then Some t else None.
Proof.
  unfold TraceIDFromHex. rewrite length_TraceID_String, Nat.eqb_refl. cbn [negb].
  unfold TraceID_String. rewrite decodeHex_EncodeToString, toArray_vec_to_list.
  reflexivity.
Qed.

Lemma SpanIDFromHex_String (s : SpanID) :
  SpanIDFromHex (SpanID_String s) = if SpanID_IsValid s then Some s else None.
Proof.
  unfold SpanIDFromHex. rewrite length_SpanID_String, Nat.eqb_refl. cbn [negb].
  unfold SpanID_String. rewrite decodeHex_EncodeToString, toArray_vec_to_list.
  reflexivity.
Qed.

Lemma string_app_cons (c : ascii) (a b : string) :
  (String c a ++ b)%string = String c (a ++ b).
Proof. reflexivity. Qed.

Lemma string_app_nil (b : string) : (EmptyString ++ b)%string = b.
Proof. reflexivity. Qed.

Lemma length_string_app (a b : string) :
  String.length (a ++ b) = String.length a + String.length b.
Proof.
  induction a as [|c a IH]; [reflexivity|].
  rewrite string_app_cons. simpl. rewrite IH. reflexivity.
Qed.

Lemma substring_skip (p s : string) (n m : nat) :
  substring (String.length p + n) m (p ++ s) = substring n m s.
Proof.
  induction p as [|c p IH]; [reflexivity|].
  rewrite string_app_cons. simpl. apply IH.
Qed.

Lemma substring_prefix (a r : string) :
  substring 0 (String.length a) (a ++ r) = a.
Proof.
  induction a as [|c a IH].
  - rewrite string_app_nil. destruct r; reflexivity.
  - rewrite string_app_cons. simpl. rewrite IH. reflexivity.
Qed.

Lemma length_traceparent (sc : SpanContext) : String.length (traceparent sc) = 55.
Proof.
  unfold traceparent.
  rewrite !length_string_app, length_TraceID_String, length_SpanID_String.
  reflexivity.
Qed.

Lemma substring_middle (p a r : string) :
  substring (String.length p) (String.length a) (p ++ a ++ r) = a.
Proof.
  rewrite <- (Nat.add_0_r (String.length p)), substring_skip.
  apply substring_prefix.
Qed.

Lemma string_app_assoc (a b c : string) : ((a ++ b) ++ c = a ++ b ++ c)%string.
Proof.
  induction a as [|x a IH]; [reflexivity|].
  rewrite !string_app_cons, IH. reflexivity.
Qed.

Lemma traceparent_traceID (sc : SpanContext) :
  substring 3 32 (traceparent sc) = TraceID_String (TraceID_of sc).
Proof.
  pose proof (substring_middle "00-" (TraceID_String (TraceID_of sc))
                ("-" ++ SpanID_String (SpanID_of sc) ++ "-01")) as H.
  rewrite length_TraceID_String in H. exact H.
Qed.

Lemma traceparent_spanID (sc : SpanContext) :
  substring 36 16 (traceparent sc) = SpanID_String (SpanID_of sc).
Proof.
  pose proof (substring_middle (("00-" ++ TraceID_String (TraceID_of sc)) ++ "-")%string
                (SpanID_String (SpanID_of sc)) "-01") as H.
  rewrite !length_string_app, length_TraceID_String, length_SpanID_String in H.
  rewrite !string_app_assoc in H. exact H.
Qed.

Lemma slice_in_bounds (s : string) (lo hi : nat) :
  lo <= hi -> hi <= String.length s ->
  slice s lo hi = Returns (substring lo (hi - lo) s).
Proof.
  intros H1 H2. unfold slice.
  destruct (Nat.leb_spec lo hi); [|lia].
  destruct (Nat.leb_spec hi (String.length s)); [|lia].
  reflexivity.
Qed.

(** Decoding a stamped message: the identities come back, the flags are
    the sampled flag and the context is remote. *)
Lemma decode_stamp (sc : SpanContext) (order : Order) :
  SpanContextFromMessage (stamp sc order) =
  Returns (if IsValid sc
           then NewSpanContext (TraceID_of sc) (SpanID_of sc) FlagsSampled "" true
           else emptySpanContext).
Proof.
  unfold SpanContextFromMessage, stamp. cbn [TraceParent].
  rewrite length_traceparent. cbn [Nat.ltb Nat.leb].
  rewrite !slice_in_bounds by (rewrite ?length_traceparent; lia).
  cbn [obind Nat.sub].
  rewrite traceparent_traceID, traceparent_spanID.
  rewrite TraceIDFromHex_String, SpanIDFromHex_String.
  unfold IsValid.
  destruct (TraceID_IsValid (TraceID_of sc)), (SpanID_IsValid (SpanID_of sc)); reflexivity.
Qed.

Lemma IsValid_empty : IsValid emptySpanContext = false.
Proof. reflexivity. Qed.

(** [SpanContextFromMessage] returns on every message. *)
Lemma decode_returns (order : Order) :
  exists sc, SpanContextFromMessage order = Returns sc.
Proof.
  unfold SpanContextFromMessage.
  destruct (Nat.ltb_spec (String.length (TraceParent order)) 53) as [Hlt|Hge]; [eauto|].
  rewrite !slice_in_bounds by lia. cbn [obind].
  destruct (TraceIDFromHex _); [|eauto].
  destruct (SpanIDFromHex _); eauto.
Qed.

(** A byte outside [0-9a-f] makes both parsers fail. *)
Lemma decodeHex_rejects (h : string) (c : ascii) :
  In c (list_ascii_of_string h) -> Hex.isLowerHex c = false -> Hex.decodeHex h = None.
Proof.
  intros Hin Hc. unfold Hex.decodeHex.
  destruct (forallb Hex.isLowerHex (list_ascii_of_string h)) eqn:Hall; [|reflexivity].
  rewrite forallb_forall in Hall. rewrite (Hall c Hin) in Hc. discriminate Hc.
Qed.

Lemma FromHex_rejects (h : string) (c : ascii) :
  In c (list_ascii_of_string h) -> Hex.isLowerHex c = false ->
  TraceIDFromHex h = None /\ SpanIDFromHex h = None.
Proof.
  intros Hin Hc. unfold TraceIDFromHex, SpanIDFromHex.
  rewrite (decodeHex_rejects h c Hin Hc).
  split; by destruct (negb _).
Qed.

(** C6. [SpanContextFromMessage] returns on every message: its two slice
    expressions are in bounds whenever the length check passes. It returns
    the invalid sentinel when the carrier is shorter than 53 bytes (the
    empty carrier included) and when the trace-id or the span-id segment
    does not parse. *)
Theorem decode_robust (order : Order) :
  (53 <= String.length (TraceParent order) ->
     slice (TraceParent order) 3 35 = Returns (substring 3 32 (TraceParent order)) /\
     slice (TraceParent order) 36 52 = Returns (substring 36 16 (TraceParent order))) /\
  (exists sc, SpanContextFromMessage order = Returns sc) /\
  (String.length (TraceParent order) < 53 ->
     SpanContextFromMessage order = Returns emptySpanContext) /\
  (TraceIDFromHex (substring 3 32 (TraceParent order)) = None ->
     SpanContextFromMessage order = Returns emptySpanContext) /\
  (SpanIDFromHex (substring 36 16 (TraceParent order)) = None ->
     SpanContextFromMessage order = Returns emptySpanContext) /\
  IsValid emptySpanContext = false.
Proof.
  assert (Hslices : 53 <= String.length (TraceParent order) ->
     slice (TraceParent order) 3 35 = Returns (substring 3 32 (TraceParent order)) /\
     slice (TraceParent order) 36 52 = Returns (substring 36 16 (TraceParent order))).
  { intros Hlen. split; apply slice_in_bounds; lia. }
  split; [exact Hslices|].
  unfold SpanContextFromMessage.
  destruct (Nat.ltb_spec (String.length (TraceParent order)) 53) as [Hlt|Hge].
  - repeat split; eauto.
  - destruct (Hslices Hge) as [-> ->]. cbn [obind].
    destruct (TraceIDFromHex _) as [tid|];
      destruct (SpanIDFromHex _) as [sid|];
      repeat split; eauto; try lia; try discriminate.
Qed.

Lemma decode_robust_witness :
  String.length (TraceParent zeroOrder) < 53 /\
  SpanContextFromMessage zeroOrder = Returns emptySpanContext.
Proof.
  assert (H : String.length (TraceParent zeroOrder) < 53) by (simpl; lia).
  split; [exact H|].
  exact (proj1 (proj2 (proj2 (decode_robust zeroOrder))) H).
Defined.

(** C10. Whenever [Publish] enqueues, the message it appends to the
    buffer has the argument's [ID], [CustomerID], [Amount], [CreatedAt] and
    [TraceState]; its [OriginalSpanID] is the hexadecimal span identity of
    the current span, which is also the segment at bytes 36..52 of its
    [TraceParent]. When [Publish] fails the queue is as before. *)
Theorem publish_frame (q q' : SimpleQueue) (ctx : Context) (fired : Fired)
    (order : Order) (err : option error) :
  Publish q ctx fired order = Returns (q', err) ->
  (err = None ->
     exists msg,
       chBuf (messages q') = chBuf (messages q) ++ [msg] /\
       chCap (messages q') = chCap (messages q) /\
       ID msg = ID order /\
       CustomerID msg = CustomerID order /\
       Amount msg = Amount order /\
       CreatedAt msg = CreatedAt order /\
       Queue.TraceState msg = Queue.TraceState order /\
       OriginalSpanID msg = SpanID_String (SpanID_of ctx) /\
       slice (TraceParent msg) 36 52 = Returns (OriginalSpanID msg)) /\
  (err <> None -> q' = q).
Proof.
  unfold Publish. destruct fired.
  - destruct (length (chBuf (messages q)) <? chCap (messages q))%nat; [|discriminate].
    intros [= <- <-]. split; [|congruence].
    intros _. exists (stamp ctx order).
    cbn [messages chBuf chCap]. unfold stamp.
    cbn [ID CustomerID Amount CreatedAt Queue.TraceState OriginalSpanID TraceParent].
    repeat split.
    rewrite slice_in_bounds by (rewrite ?length_traceparent; lia).
    cbn [Nat.sub]. rewrite traceparent_spanID. reflexivity.
  - intros [= <- <-]. split; [discriminate | reflexivity].
Qed.

Lemma publish_frame_witness :
  let ctx := NewSpanContext (xab ::: vreplicate 15 x01) (x0f ::: vreplicate 7 xf0) x01 "" false in
  let order := mkOrder "ORDER-1" "CUST-1000" 100 7 "old" "state" "old" in
  let q' := mkQueue (mkChan [stamp ctx order] DefaultQueueCapacity) in
  Publish NewSimpleQueue ctx ChanReady order = Returns (q', None) /\
  exists msg,
    chBuf (messages q') = chBuf (messages NewSimpleQueue) ++ [msg] /\
    chCap (messages q') = chCap (messages NewSimpleQueue) /\
    ID msg = ID order /\
    CustomerID msg = CustomerID order /\
    Amount msg = Amount order /\
    CreatedAt msg = CreatedAt order /\
    Queue.TraceState msg = Queue.TraceState order /\
    OriginalSpanID msg = SpanID_String (SpanID_of ctx) /\
    slice (TraceParent msg) 36 52 = Returns (OriginalSpanID msg).
Proof.
  intros ctx order q'.
  assert (H : Publish NewSimpleQueue ctx ChanReady order = Returns (q', None))
    by (vm_compute; reflexivity).
  split; [exact H|].
  exact (proj1 (publish_frame NewSimpleQueue q' ctx ChanReady order None H) eq_refl).
Defined.

(** C1, as amended. For a valid current SpanContext, the message that
    [Publish] enqueues carries a 55-byte carrier, and decoding it gives the
    trace identity and the span identity back, with the remote marker set
    and with the flags set to the sampled flag (whatever the flags of the
    encoded context were). *)
Theorem codec_roundtrip_sampled (q q' : SimpleQueue) (sc : Context) (order : Order) :
  IsValid sc = true ->
  Publish q sc ChanReady order = Returns (q', None) ->
  exists msg,
    chBuf (messages q') = chBuf (messages q) ++ [msg] /\
    String.length (TraceParent msg) = 55 /\
    SpanContextFromMessage msg =
      Returns (NewSpanContext (TraceID_of sc) (SpanID_of sc) FlagsSampled "" true).
Proof.
  intros Hvalid. unfold Publish.
  destruct (length (chBuf (messages q)) <? chCap (messages q))%nat; [|discriminate].
  intros [= <-]. exists (stamp sc order).
  cbn [messages chBuf]. split; [reflexivity|]. split.
  - apply length_traceparent.
  - rewrite decode_stamp, Hvalid. reflexivity.
Qed.

Lemma codec_roundtrip_sampled_witness :
  let sc := NewSpanContext (xab ::: vreplicate 15 x01) (x0f ::: vreplicate 7 xf0) x03 "k=v" false in
  let q' := mkQueue (mkChan [stamp sc zeroOrder] DefaultQueueCapacity) in
  IsValid sc = true /\
  Publish NewSimpleQueue sc ChanReady zeroOrder = Returns (q', None) /\
  exists msg,
    chBuf (messages q') = chBuf (messages NewSimpleQueue) ++ [msg] /\
    String.length (TraceParent msg) = 55 /\
    SpanContextFromMessage msg =
      Returns (NewSpanContext (TraceID_of sc) (SpanID_of sc) FlagsSampled "" true).
Proof.
  intros sc q'.
  assert (Hv : IsValid sc = true) by (vm_compute; reflexivity).
  assert (Hp : Publish NewSimpleQueue sc ChanReady zeroOrder = Returns (q', None))
    by (vm_compute; reflexivity).
  split; [exact Hv|]. split; [exact Hp|].
  exact (codec_roundtrip_sampled NewSimpleQueue q' sc zeroOrder Hv Hp).
Defined.

(** C1 as stated fails: a valid context whose flags are not the sampled
    flag does not get its flags back. *)
Lemma codec_roundtrip_flags_counterexample :
  ~ (forall (q q' : SimpleQueue) (sc : Context) (order : Order),
       IsValid sc = true ->
       Publish q sc ChanReady order = Returns (q', None) ->
       exists msg d,
         chBuf (messages q') = chBuf (messages q) ++ [msg] /\
         SpanContextFromMessage msg = Returns d /\
         TraceID_of d = TraceID_of sc /\
         SpanID_of d = SpanID_of sc /\
         TraceFlags d = TraceFlags sc /\
         Remote d = true).
Proof.
  intros H.
  pose (sc := NewSpanContext (xab ::: vreplicate 15 x01) (x0f ::: vreplicate 7 xf0)
                x00 "" false).
  destruct (H NewSimpleQueue (mkQueue (mkChan [stamp sc zeroOrder] DefaultQueueCapacity))
              sc zeroOrder) as (msg & d & Hbuf & Hd & _ & _ & Hflags & _);
    [vm_compute; reflexivity .. |].
  cbn [messages chBuf NewSimpleQueue makeChan app] in Hbuf.
  injection Hbuf as <-.
  rewrite decode_stamp in Hd.
  change (IsValid sc) with true in Hd.
  injection Hd as <-.
  discriminate Hflags.
Qed.

End Codec.

(** ** The span store *)

Section Store.

Lemma spans_record (e : Event) (W : World) : spans (record e W) = spans W.
Proof. reflexivity. Qed.

Lemma spans_updSpan (h : Span) (f : SpanData -> SpanData) (W : World) :
  spans (updSpan h f W) = alter f h (spans W).
Proof. reflexivity. Qed.

Lemma spans_End (h : Span) (W : World) : spans (End h W) = alter ended h (spans W).
Proof. reflexivity. Qed.

Lemma spans_AddLink (h : Span) (l : Link) (W : World) :
  spans (AddLink h l W) = alter (withLink l) h (spans W).
Proof. reflexivity. Qed.

Lemma spans_RecordError (h : Span) (e : error) (W : World) :
  spans (RecordError h (Some e) W) = alter (withError e) h (spans W).
Proof. reflexivity. Qed.

Lemma spans_AddEvent (h : Span) (name : string) (attrs : list KeyValue) (W : World) :
  spans (AddEvent h name attrs W) = alter (withEvent name attrs) h (spans W).
Proof. reflexivity. Qed.

Lemma lookup_End_eq (h : Span) (W : World) :
  spans (End h W) !! h = ended <$> spans W !! h.
Proof. rewrite spans_End. apply list_lookup_alter_eq. Qed.

Lemma lookup_End_ne (h h' : Span) (W : World) :
  h <> h' -> spans (End h W) !! h' = spans W !! h'.
Proof. intros Hne. rewrite spans_End. by apply list_lookup_alter_ne. Qed.

Lemma length_spans_End (h : Span) (W : World) :
  length (spans (End h W)) = length (spans W).
Proof. rewrite spans_End. apply length_alter. Qed.

Lemma endCalls_End_eq (h : Span) (W : World) :
  h < length (spans W) -> endCalls (End h W) h = S (endCalls W h).
Proof.
  intros Hlt. unfold endCalls. rewrite lookup_End_eq.
  destruct (lookup_lt_is_Some_2 (spans W) h Hlt) as [s ->]. reflexivity.
Qed.

Lemma endCalls_End_ne (h h' : Span) (W : World) :
  h <> h' -> endCalls (End h W) h' = endCalls W h'.
Proof. intros Hne. unfold endCalls. by rewrite lookup_End_ne. Qed.

Lemma keepsLink_attrs (sc : SpanContext) (kv : KeyValue) (kvs : list KeyValue) :
  keepsLink (mkLink sc (kv :: kvs)) = true.
Proof. unfold keepsLink. cbn. apply orb_true_iff. left. apply orb_true_r. Qed.

End Store.

(** ** The producer *)

Import Producer.

Section ProducerLoop.

Variable env : Env.
Variable bctx : Context.
Variable keepOpen : bool.

Lemma distinctIDs_S (i n : nat) : distinctIDs env i (S n) -> distinctIDs env (S i) n.
Proof.
  intros H j1 j2 H1 H2 Heq.
  assert (S j1 = S j2) as [= ->]; [|reflexivity].
  apply H; [lia | lia |].
  by replace (i + S j1) with (S i + j1) by lia;
     replace (i + S j2) with (S i + j2) by lia.
Qed.

(** The loop of [publishInternal]: it only appends spans, one per item. A
    failed item's span is ended once; a published item's span is
    registered under the message identity and is ended once in closed
    mode, left open in open mode. *)
Lemma publishLoop_spec (n : nat) : forall (i : nat) (st st' : LoopState),
  publishLoop env bctx keepOpen n i st = Returns st' ->
  distinctIDs env i n ->
  let L := length (spans (lsWorld st)) in
  length (spans (lsWorld st')) = L + n /\
  (forall h, h < L -> spans (lsWorld st') !! h = spans (lsWorld st) !! h) /\
  (forall j, j < n ->
     exists s, spans (lsWorld st') !! (L + j) = Some s /\
               spLinks s = [] /\ spEndCalls s = itemEnds keepOpen env (i + j)) /\
  (forall j, j < n -> fired (sched env (i + j)) = ChanReady ->
     lsOrderSpans st' !! ID (newOrder env (i + j)) = Some (Some (L + j))) /\
  (forall k v, lsOrderSpans st' !! k = Some v ->
     lsOrderSpans st !! k = Some v \/
     exists j, j < n /\ fired (sched env (i + j)) = ChanReady /\
               k = ID (newOrder env (i + j)) /\ v = Some (L + j)) /\
  (forall k, (forall j, j < n -> k <> ID (newOrder env (i + j))) ->
     lsOrderSpans st' !! k = lsOrderSpans st !! k).
Proof.
  induction n as [|n IH]; intros i st st' Hrun Hdist L.
  - injection Hrun as <-. subst L.
    repeat split; try (intros; lia); eauto.
  - cbn [publishLoop] in Hrun.
    unfold Start in Hrun. cbn [List.filter] in Hrun.
    set (s0 := mkSpanData _ _ _ _ _ _ _ _ _ _) in Hrun.
    set (ictx := NewSpanContext _ _ _ _ _) in Hrun.
    set (W1 := record (EvStart (length (spans (lsWorld st))))
                 (setSpans (lsWorld st) (spans (lsWorld st) ++ [s0]))) in Hrun.
    unfold Publish in Hrun.
    assert (HL : length (spans W1) = S L).
    { subst W1. rewrite spans_record. cbn [setSpans spans].
      rewrite length_app. cbn. subst L. lia. }
    assert (Hold : forall h, h < L -> spans W1 !! h = spans (lsWorld st) !! h).
    { intros h Hh. subst W1. rewrite spans_record. cbn [setSpans spans].
      by apply lookup_app_l. }
    assert (Hnew : spans W1 !! L = Some s0).
    { subst W1. rewrite spans_record. cbn [setSpans spans].
      by rewrite list_lookup_middle. }
    fold L in Hrun.
    (* the state of the store when the iteration is over *)
    assert (Hiter : exists W2 q2 pub m2 err2,
              publishLoop env bctx keepOpen n (S i) (mkLoop W2 q2 pub m2 err2) = Returns st' /\
              length (spans W2) = S L /\
              (forall h, h < L -> spans W2 !! h = spans (lsWorld st) !! h) /\
              (exists s, spans W2 !! L = Some s /\ spLinks s = [] /\
                         spEndCalls s = itemEnds keepOpen env i) /\
              m2 = match fired (sched env i) with
                   | ChanReady => <[ID (newOrder env i) := Some L]> (lsOrderSpans st)
                   | CtxDone => lsOrderSpans st
                   end).
    { unfold itemEnds. destruct (fired (sched env i)) eqn:Hfired.
      - destruct (_ <? _)%nat in Hrun; [|discriminate].
        cbn [obind] in Hrun.
        do 5 eexists. split; [exact Hrun|]. destruct keepOpen.
        + refine (conj HL (conj Hold (conj _ eq_refl))).
          exists s0. by subst s0.
        + rewrite length_spans_End. refine (conj HL (conj _ (conj _ eq_refl))).
          * intros h Hh. rewrite lookup_End_ne by lia. by apply Hold.
          * exists (ended s0). rewrite lookup_End_eq, Hnew. by subst s0.
      - cbn [obind] in Hrun.
        do 5 eexists. split; [exact Hrun|].
        rewrite length_spans_End, spans_RecordError, length_alter.
        refine (conj HL (conj _ (conj _ eq_refl))).
        + intros h Hh. rewrite lookup_End_ne, spans_RecordError by lia.
          rewrite list_lookup_alter_ne by lia. by apply Hold.
        + exists (ended (withError ErrCanceled s0)).
          rewrite lookup_End_eq, spans_RecordError, list_lookup_alter_eq, Hnew.
          by subst s0. }
    clear Hrun.
    destruct Hiter as (W2 & q2 & pub & m2 & err2 & Hrun & HL2 & Hold2 & (s2 & Hs2 & Hl2 & He2) & Hm2).
    apply IH in Hrun; [|by apply distinctIDs_S].
    cbn [lsWorld lsOrderSpans] in Hrun. rewrite HL2 in Hrun.
    destruct Hrun as (Hlen & Hframe & Hitems & Hreg & Hinv & Hother).
    repeat split.
    + lia.
    + intros h Hh. rewrite Hframe by lia. by apply Hold2.
    + intros [|j] Hj.
      * exists s2. rewrite Hframe by lia. by rewrite !Nat.add_0_r.
      * destruct (Hitems j ltac:(lia)) as (s & Hs & Hl & He).
        exists s. replace (L + S j) with (S L + j) by lia.
        replace (i + S j) with (S i + j) by lia. done.
    + intros [|j] Hj Hf.
      * rewrite Nat.add_0_r in Hf. rewrite Hf in Hm2. rewrite Hother.
        -- rewrite !Nat.add_0_r, Hm2. by rewrite lookup_insert_eq.
        -- intros j' Hj' Heq.
           assert (0 = S j') as [=].
           apply Hdist; [lia | lia |].
           by replace (i + S j') with (S i + j') by lia.
      * assert (Hi : i + S j = S i + j) by lia.
        assert (HLj : L + S j = S L + j) by lia.
        rewrite Hi in Hf |- *. rewrite HLj. apply Hreg; [lia | done].
    + intros k v Hk. destruct (Hinv k v Hk) as [Hin|(j & Hj & Hf & -> & ->)].
      * destruct (fired (sched env i)) eqn:Hfired; subst m2; [|by left].
        destruct (decide (ID (newOrder env i) = k)) as [<-|Hne].
        -- rewrite lookup_insert_eq in Hin. injection Hin as <-.
           right. exists 0. rewrite !Nat.add_0_r. repeat split; [lia|done].
        -- rewrite lookup_insert_ne in Hin by done. by left.
      * right. exists (S j).
        replace (i + S j) with (S i + j) by lia.
        replace (L + S j) with (S L + j) by lia. repeat split; [lia|done].
    + intros k Hk. rewrite Hother.
      * destruct (fired (sched env i)); subst m2; [|done].
        rewrite lookup_insert_ne; [done|].
        specialize (Hk 0 ltac:(lia)). rewrite Nat.add_0_r in Hk. congruence.
      * intros j Hj. replace (S i + j) with (i + S j) by lia. apply Hk. lia.
Qed.

End ProducerLoop.

(** ** Forward-link collection *)

Import Worker Forward.

Section ForwardLoops.


Lemma addForwardLinks_spec (collected : list OrderSpanContext) :
  forall (W : World) (m : gmap string (option nat)),
    openInj m ->
    let res := addForwardLinks collected (W, m) in
    openInj (snd res) /\
    (forall k h, m !! k = Some (Some h) ->
       match recordFor k collected with
       | Some sc =>
           spans (fst res) !! h = ended <$> (withLink (forwardLink sc) <$> spans W !! h) /\
           snd res !! k = Some None
       | None =>
           spans (fst res) !! h = spans W !! h /\ snd res !! k = Some (Some h)
       end) /\
    (forall h, (forall k, m !! k <> Some (Some h)) ->
       spans (fst res) !! h = spans W !! h) /\
    (forall k h, snd res !! k = Some (Some h) -> m !! k = Some (Some h)) /\
    (forall k, m !! k = Some None -> snd res !! k = Some None) /\
    length (spans (fst res)) = length (spans W).
Proof.
  induction collected as [|sc rest IH]; intros W m Hinj res.
  - subst res. cbn.
    refine (conj Hinj (conj _ (conj _ (conj _ (conj _ _))))); eauto.
  - subst res. cbn [addForwardLinks fold_left].
    change (fold_left linkStep rest ?s) with (addForwardLinks rest s).
    assert (Hstep : linkStep (W, m) sc =
                    match m !! OrderID sc with
                    | Some (Some p) =>
                        (End p (AddLink p (forwardLink sc) W), <[OrderID sc := None]> m)
                    | _ => (W, m)
                    end) by reflexivity.
    rewrite Hstep. clear Hstep.
    destruct (m !! OrderID sc) as [[p|]|] eqn:Hp.
    + (* an open span is registered for this record *)
      set (W1 := End p (AddLink p (forwardLink sc) W)).
      set (m1 := <[OrderID sc := None]> m).
      assert (Hinj1 : openInj m1).
      { intros k1 k2 h H1 H2. subst m1.
        destruct (decide (OrderID sc = k1)) as [<-|N1];
          [by rewrite lookup_insert_eq in H1|].
        destruct (decide (OrderID sc = k2)) as [<-|N2];
          [by rewrite lookup_insert_eq in H2|].
        rewrite lookup_insert_ne in H1, H2 by done. eauto. }
      destruct (IH W1 m1 Hinj1) as (Hinj' & Hopen & Hframe & Hmono & Hnil & Hlen).
      assert (HW1eq : spans W1 !! p = ended <$> (withLink (forwardLink sc) <$> spans W !! p)).
      { subst W1. rewrite lookup_End_eq, spans_AddLink, list_lookup_alter_eq. done. }
      assert (HW1ne : forall h, h <> p -> spans W1 !! h = spans W !! h).
      { intros h Hne. subst W1. rewrite lookup_End_ne, spans_AddLink by done.
        by rewrite list_lookup_alter_ne. }
      refine (conj Hinj' (conj _ (conj _ (conj _ (conj _ _))))).
      * intros k h Hk. unfold recordFor. cbn [find].
        destruct (String.eqb_spec (OrderID sc) k) as [<-|Hne].
        -- rewrite Hp in Hk. injection Hk as <-.
           split.
           ++ rewrite Hframe; [exact HW1eq|].
              intros k' Hk'. subst m1.
              destruct (decide (OrderID sc = k')) as [<-|N];
                [by rewrite lookup_insert_eq in Hk'|].
              rewrite lookup_insert_ne in Hk' by done.
              apply N. eapply Hinj; eauto.
           ++ apply Hnil. subst m1. by rewrite lookup_insert_eq.
        -- assert (Hhp : h <> p).
           { intros ->. apply Hne. eapply Hinj; eauto. }
           assert (Hk1 : m1 !! k = Some (Some h)).
           { subst m1. by rewrite lookup_insert_ne. }
           specialize (Hopen k h Hk1). unfold recordFor in Hopen.
           destruct (find _ rest) as [sc'|]; rewrite <- (HW1ne h Hhp); exact Hopen.
      * intros h Hh. rewrite Hframe.
        -- apply HW1ne. intros ->. by apply (Hh (OrderID sc)).
        -- intros k Hk. subst m1.
           destruct (decide (OrderID sc = k)) as [<-|N];
             [by rewrite lookup_insert_eq in Hk|].
           rewrite lookup_insert_ne in Hk by done. by apply (Hh k).
      * intros k h Hk. apply Hmono in Hk. subst m1.
        destruct (decide (OrderID sc = k)) as [<-|N];
          [by rewrite lookup_insert_eq in Hk|].
        by rewrite lookup_insert_ne in Hk.
      * intros k Hk. apply Hnil. subst m1.
        destruct (decide (OrderID sc = k)) as [<-|N];
          [by rewrite lookup_insert_eq|].
        by rewrite lookup_insert_ne.
      * rewrite Hlen. subst W1. rewrite length_spans_End, spans_AddLink.
        apply length_alter.
    + (* the span of this record was ended already *)
      destruct (IH W m Hinj) as (Hinj' & Hopen & Hframe & Hmono & Hnil & Hlen).
      refine (conj Hinj' (conj _ (conj Hframe (conj Hmono (conj Hnil Hlen))))).
      intros k h Hk. unfold recordFor. cbn [find].
      destruct (String.eqb_spec (OrderID sc) k) as [<-|Hne]; [congruence|].
      exact (Hopen k h Hk).
    + (* no span is registered for this record *)
      destruct (IH W m Hinj) as (Hinj' & Hopen & Hframe & Hmono & Hnil & Hlen).
      refine (conj Hinj' (conj _ (conj Hframe (conj Hmono (conj Hnil Hlen))))).
      intros k h Hk. unfold recordFor. cbn [find].
      destruct (String.eqb_spec (OrderID sc) k) as [<-|Hne]; [congruence|].
      exact (Hopen k h Hk).
Qed.

Lemma endRemaining_fold (m : gmap string (option nat)) :
  forall (W : World) (macc : gmap string (option nat)),
    openInj m ->
    let res := map_fold (fun oid s acc =>
                 match s with
                 | Some h => (End h (fst acc), <[oid := None]> (snd acc))
                 | None => acc
                 end) (W, macc) m in
    (forall k h, m !! k = Some (Some h) -> spans (fst res) !! h = ended <$> spans W !! h) /\
    (forall h, (forall k, m !! k <> Some (Some h)) -> spans (fst res) !! h = spans W !! h) /\
    length (spans (fst res)) = length (spans W).
Proof.
  intros W macc. cbv zeta.
  apply (map_fold_weak_ind
    (fun (res : World * gmap string (option nat)) (m : gmap string (option nat)) =>
       openInj m ->
       (forall k h, m !! k = Some (Some h) -> spans (fst res) !! h = ended <$> spans W !! h) /\
       (forall h, (forall k, m !! k <> Some (Some h)) -> spans (fst res) !! h = spans W !! h) /\
       length (spans (fst res)) = length (spans W))).
  - intros _. cbn. repeat split; [|done..].
    intros k h Hk. by rewrite lookup_empty in Hk.
  - intros i x m0 r Hi IH Hinj.
    assert (Hinj0 : openInj m0).
    { intros k1 k2 h H1 H2.
      apply (Hinj k1 k2 h); rewrite lookup_insert_ne; try done; congruence. }
    destruct (IH Hinj0) as (Hopen & Hframe & Hlen).
    destruct x as [p|]; cbn [fst snd].
    + assert (Hfresh : forall k, m0 !! k <> Some (Some p)).
      { intros k Hk. assert (k = i); [|congruence].
        apply (Hinj k i p); [|by rewrite lookup_insert_eq].
        rewrite lookup_insert_ne; [done|congruence]. }
      repeat split.
      * intros k h Hk. destruct (decide (i = k)) as [<-|N].
        -- rewrite lookup_insert_eq in Hk. injection Hk as <-.
           rewrite lookup_End_eq. by rewrite Hframe.
        -- rewrite lookup_insert_ne in Hk by done.
           rewrite lookup_End_ne; [by apply (Hopen k)|].
           intros ->. by apply (Hfresh k).
      * intros h Hh. rewrite lookup_End_ne.
        -- apply Hframe. intros k Hk. apply (Hh k).
           rewrite lookup_insert_ne; [done|congruence].
        -- intros ->. apply (Hh i). by rewrite lookup_insert_eq.
      * by rewrite length_spans_End.
    + repeat split.
      * intros k h Hk. destruct (decide (i = k)) as [<-|N].
        -- by rewrite lookup_insert_eq in Hk.
        -- rewrite lookup_insert_ne in Hk by done. by apply (Hopen k).
      * intros h Hh. apply Hframe. intros k Hk. apply (Hh k).
        rewrite lookup_insert_ne; [done|congruence].
      * done.
Qed.

End ForwardLoops.

Section ForwardBatch.

Variable env : Env.




End ForwardBatch.




(** ** Batches *)

Section Batches.

Variable env : Env.

(** When every [select] commits to the cancellation, the loop returns; it
    publishes nothing, keeps the last error, and ends every item span
    once. *)
Lemma publishLoop_cancelled (bctx : Context) (keepOpen : bool) (n : nat) :
  forall (i : nat) (st : Producer.LoopState),
    (forall j, j < n -> fired (sched env (i + j)) = CtxDone) ->
    exists st',
      Producer.publishLoop env bctx keepOpen n i st = Returns st' /\
      Producer.lsPublished st' = Producer.lsPublished st /\
      Producer.lsOrderSpans st' = Producer.lsOrderSpans st /\
      Producer.lsLastErr st' =
        match n with
        | O => Producer.lsLastErr st
        | S m => Some (publishFailure env (i + m))
        end /\
      (forall h, h < length (spans (Producer.lsWorld st)) ->
         spans (Producer.lsWorld st') !! h = spans (Producer.lsWorld st) !! h).
Proof.
  induction n as [|n IH]; intros i st Hall.
  - exists st. repeat split.
  - cbn [Producer.publishLoop]. unfold Start. cbn [List.filter].
    set (s0 := mkSpanData _ _ _ _ _ _ _ _ _ _).
    unfold Publish.
    pose proof (Hall 0 ltac:(lia)) as H0. rewrite Nat.add_0_r in H0. rewrite H0.
    cbn [obind].
    match goal with
    | |- exists st', Producer.publishLoop _ _ _ _ _ ?st2 = _ /\ _ =>
        destruct (IH (S i) st2) as (st' & Hrun & Hpub & Hm & Herr & Hframe)
    end.
    { intros j Hj. replace (S i + j) with (i + S j) by lia. apply Hall. lia. }
    exists st'. split; [exact Hrun|].
    cbn [Producer.lsPublished Producer.lsOrderSpans Producer.lsLastErr Producer.lsWorld]
      in Hpub, Hm, Herr, Hframe.
    split; [exact Hpub|]. split; [exact Hm|]. split.
    + rewrite Herr. destruct n as [|m].
      * rewrite Nat.add_0_r. reflexivity.
      * replace (S i + m) with (i + S m) by lia. reflexivity.
    + intros h Hh. rewrite Hframe.
      * rewrite lookup_End_ne, spans_RecordError by lia.
        rewrite list_lookup_alter_ne by lia.
        rewrite spans_record. cbn [setSpans spans]. by apply lookup_app_l.
      * rewrite length_spans_End, spans_RecordError, length_alter, spans_record.
        cbn [setSpans spans]. rewrite length_app. lia.
Qed.

Lemma standaloneLoop_cancelled (bctx : Context) (n : nat) :
  forall (i : nat) (st : ProducerStandalone.LoopState),
    (forall j, j < n -> fired (sched env (i + j)) = CtxDone) ->
    exists st',
      ProducerStandalone.publishLoop env bctx n i st = Returns st' /\
      ProducerStandalone.lsPublished st' = ProducerStandalone.lsPublished st /\
      ProducerStandalone.lsLastErr st' =
        match n with
        | O => ProducerStandalone.lsLastErr st
        | S m => Some (publishFailure env (i + m))
        end /\
      (forall h, h < length (spans (ProducerStandalone.lsWorld st)) ->
         spans (ProducerStandalone.lsWorld st') !! h
         = spans (ProducerStandalone.lsWorld st) !! h).
Proof.
  induction n as [|n IH]; intros i st Hall.
  - exists st. repeat split.
  - cbn [ProducerStandalone.publishLoop]. unfold Start. cbn [List.filter].
    set (s0 := mkSpanData _ _ _ _ _ _ _ _ _ _).
    unfold Publish.
    pose proof (Hall 0 ltac:(lia)) as H0. rewrite Nat.add_0_r in H0. rewrite H0.
    cbn [obind].
    match goal with
    | |- exists st', ProducerStandalone.publishLoop _ _ _ _ ?st2 = _ /\ _ =>
        destruct (IH (S i) st2) as (st' & Hrun & Hpub & Herr & Hframe)
    end.
    { intros j Hj. replace (S i + j) with (i + S j) by lia. apply Hall. lia. }
    exists st'. split; [exact Hrun|].
    cbn [ProducerStandalone.lsPublished ProducerStandalone.lsLastErr
         ProducerStandalone.lsWorld] in Hpub, Herr, Hframe.
    split; [exact Hpub|]. split.
    + rewrite Herr. destruct n as [|m].
      * rewrite Nat.add_0_r. reflexivity.
      * replace (S i + m) with (i + S m) by lia. reflexivity.
    + intros h Hh. rewrite Hframe.
      * rewrite lookup_End_ne, spans_RecordError by lia.
        rewrite list_lookup_alter_ne by lia.
        rewrite spans_record. cbn [setSpans spans]. by apply lookup_app_l.
      * rewrite length_spans_End, spans_RecordError, length_alter, spans_record.
        cbn [setSpans spans]. rewrite length_app. lia.
Qed.

(** [publishInternal] when no item is published. *)
Lemma publishInternal_cancelled (st : ProducerState) (ctx : Context) (count : Z)
    (keepOpen : bool) :
  (0 < count)%Z ->
  (forall i, i < Z.to_nat count -> fired (sched env i) = CtxDone) ->
  let b := length (spans (world st)) in
  let lastErr := publishFailure env (Z.to_nat count - 1) in
  exists st',
    publishInternal env st ctx count keepOpen
      = Returns (st', mkResult (Some b) ∅ 0
                        (Some (ErrWrap "failed to publish any orders" lastErr))) /\
    errorsOf (world st') b = [lastErr] /\
    endCalls (world st') b = (if keepOpen then 0 else 1).
Proof.
  intros Hpos Hall b lastErr. subst b.
  unfold publishInternal.
  destruct (Z.leb_spec count 0) as [|_]; [lia|].
  unfold Start. cbn [List.filter].
  set (sb := mkSpanData _ _ _ _ _ _ _ _ _ _).
  set (W0 := record _ _).
  match goal with
  | |- context [Producer.publishLoop env ?bctx keepOpen _ 0 ?st0] =>
      destruct (publishLoop_cancelled bctx keepOpen (Z.to_nat count) 0 st0 Hall)
        as (ls & Hrun & Hpub & Hm & Herr & Hframe)
  end.
  rewrite Hrun. cbn [obind].
  cbn [Producer.lsPublished Producer.lsOrderSpans Producer.lsLastErr Producer.lsWorld]
    in Hpub, Hm, Herr, Hframe.
  rewrite Hpub. cbn [Z.eqb]. rewrite Hm.
  destruct (Z.to_nat count) as [|m] eqn:Hn; [lia|].
  rewrite Herr. cbn [Errorf plus].
  assert (Hlast : publishFailure env m = lastErr).
  { subst lastErr. f_equal. lia. }
  rewrite Hlast.
  assert (Hb : spans (Producer.lsWorld ls) !! length (spans (world st)) = Some sb).
  { rewrite Hframe.
    - subst W0. rewrite spans_record. cbn [setSpans spans].
      by rewrite list_lookup_middle.
    - subst W0. rewrite spans_record. cbn [setSpans spans]. rewrite length_app. cbn. lia. }
  eexists. split; [reflexivity|]. cbn [world].
  unfold errorsOf, endCalls.
  destruct keepOpen.
  - rewrite spans_RecordError, list_lookup_alter_eq, Hb. cbn. done.
  - rewrite lookup_End_eq, spans_RecordError, list_lookup_alter_eq, Hb. cbn. done.
Qed.

Lemma standalone_cancelled (st : ProducerState) (ctx : Context) (count : Z) :
  (0 < count)%Z ->
  (forall i, i < Z.to_nat count -> fired (sched env i) = CtxDone) ->
  let b := length (spans (world st)) in
  let lastErr := publishFailure env (Z.to_nat count - 1) in
  exists st',
    ProducerStandalone.PublishOrderBatch env st ctx count
      = Returns (st', (emptySpanContext,
                       Some (ErrWrap "failed to publish any orders" lastErr))) /\
    errorsOf (world st') b = [lastErr] /\
    endCalls (world st') b = 1.
Proof.
  intros Hpos Hall b lastErr. subst b.
  unfold ProducerStandalone.PublishOrderBatch.
  destruct (Z.leb_spec count 0) as [|_]; [lia|].
  unfold Start. cbn [List.filter].
  set (sb := mkSpanData _ _ _ _ _ _ _ _ _ _).
  set (W0 := record _ _).
  match goal with
  | |- context [ProducerStandalone.publishLoop env ?bctx _ 0 ?st0] =>
      destruct (standaloneLoop_cancelled bctx (Z.to_nat count) 0 st0 Hall)
        as (ls & Hrun & Hpub & Herr & Hframe)
  end.
  rewrite Hrun. cbn [obind].
  cbn [ProducerStandalone.lsPublished ProducerStandalone.lsLastErr
       ProducerStandalone.lsWorld] in Hpub, Herr, Hframe.
  rewrite Hpub. cbn [Z.eqb].
  destruct (Z.to_nat count) as [|m] eqn:Hn; [lia|].
  rewrite Herr. cbn [Errorf plus].
  assert (Hlast : publishFailure env m = lastErr).
  { subst lastErr. f_equal. lia. }
  rewrite Hlast.
  assert (Hb : spans (ProducerStandalone.lsWorld ls) !! length (spans (world st)) = Some sb).
  { rewrite Hframe.
    - subst W0. rewrite spans_record. cbn [setSpans spans].
      by rewrite list_lookup_middle.
    - subst W0. rewrite spans_record. cbn [setSpans spans]. rewrite length_app. cbn. lia. }
  eexists. split; [reflexivity|]. cbn [world].
  unfold errorsOf, endCalls.
  rewrite lookup_End_eq, spans_RecordError, list_lookup_alter_eq, Hb. cbn. done.
Qed.

(** C8, as amended. When every item publish of a batch fails, the call
    returns an error that wraps the last publish error, and the batch
    span records that last error. In closed mode ([PublishOrderBatch], in
    both revisions) the batch span is ended, exactly once. In open mode
    the batch span is handed back still open: it has received no [End]. *)
Theorem zero_published_batch (st : ProducerState) (ctx : Context) (count : Z) :
  (0 < count)%Z ->
  (forall i, i < Z.to_nat count -> fired (sched env i) = CtxDone) ->
  let b := length (spans (world st)) in
  let lastErr := publishFailure env (Z.to_nat count - 1) in
  let failure := ErrWrap "failed to publish any orders" lastErr in
  (forall keepOpen, exists st',
     publishInternal env st ctx count keepOpen
       = Returns (st', mkResult (Some b) ∅ 0 (Some failure)) /\
     errorsOf (world st') b = [lastErr] /\
     endCalls (world st') b = (if keepOpen then 0 else 1)) /\
  (exists st',
     PublishOrderBatch env st ctx count = Returns (st', (emptySpanContext, Some failure)) /\
     errorsOf (world st') b = [lastErr] /\
     endCalls (world st') b = 1) /\
  (exists st',
     ProducerStandalone.PublishOrderBatch env st ctx count
       = Returns (st', (emptySpanContext, Some failure)) /\
     errorsOf (world st') b = [lastErr] /\
     endCalls (world st') b = 1).
Proof.
  intros Hpos Hall b lastErr failure.
  split; [|split].
  - intros keepOpen. by apply publishInternal_cancelled.
  - destruct (publishInternal_cancelled st ctx count false Hpos Hall)
      as (st' & Hrun & Herrs & Hends).
    exists st'. unfold PublishOrderBatch. rewrite Hrun. cbn [obind resErr].
    done.
  - by apply standalone_cancelled.
Qed.

(** C9. A count that is not positive is rejected at once, by
    [publishInternal] in both modes and by [PublishOrderBatch] in both
    revisions: the result is the invalid-argument error with a nil span,
    and the state (the span store and the queue) is the one passed in. *)
Theorem nonpositive_count_rejected (st : ProducerState) (ctx : Context)
    (count : Z) (keepOpen : bool) :
  (count <= 0)%Z ->
  let invalid := ErrNew "batch size must be greater than zero" in
  publishInternal env st ctx count keepOpen
    = Returns (st, mkResult None ∅ 0 (Some invalid)) /\
  PublishOrderBatch env st ctx count = Returns (st, (emptySpanContext, Some invalid)) /\
  ProducerStandalone.PublishOrderBatch env st ctx count
    = Returns (st, (emptySpanContext, Some invalid)).
Proof.
  intros Hle invalid.
  unfold PublishOrderBatch, ProducerStandalone.PublishOrderBatch, publishInternal.
  destruct (Z.leb_spec count 0) as [_|]; [|lia].
  repeat split.
Qed.

(** [endAll] on a registry without nil entries. *)
Lemma endAll_spec (m : gmap string (option nat)) (W : World) :
  openInj m ->
  (forall k, m !! k <> Some None) ->
  exists W',
    endAll m W = Returns W' /\
    (forall k h, m !! k = Some (Some h) -> spans W' !! h = ended <$> spans W !! h) /\
    (forall h, (forall k, m !! k <> Some (Some h)) -> spans W' !! h = spans W !! h) /\
    length (spans W') = length (spans W).
Proof.
  unfold endAll.
  apply (map_fold_weak_ind
    (fun (res : Outcome World) (m : gmap string (option nat)) =>
       openInj m ->
       (forall k, m !! k <> Some None) ->
       exists W',
         res = Returns W' /\
         (forall k h, m !! k = Some (Some h) -> spans W' !! h = ended <$> spans W !! h) /\
         (forall h, (forall k, m !! k <> Some (Some h)) -> spans W' !! h = spans W !! h) /\
         length (spans W') = length (spans W))).
  - intros _ _. exists W. repeat split; [|done..].
    intros k h Hk. by rewrite lookup_empty in Hk.
  - intros i x m0 r Hi IH Hinj Hnonil.
    assert (Hinj0 : openInj m0).
    { intros k1 k2 h H1 H2.
      apply (Hinj k1 k2 h); rewrite lookup_insert_ne; try done; congruence. }
    assert (Hnonil0 : forall k, m0 !! k <> Some None).
    { intros k Hk. apply (Hnonil k). rewrite lookup_insert_ne; [done|congruence]. }
    destruct (IH Hinj0 Hnonil0) as (W1 & -> & Hopen & Hframe & Hlen).
    cbn [obind].
    destruct x as [p|]; [|by specialize (Hnonil i); rewrite lookup_insert_eq in Hnonil].
    assert (Hfresh : forall k, m0 !! k <> Some (Some p)).
    { intros k Hk. assert (k = i); [|congruence].
      apply (Hinj k i p); [|by rewrite lookup_insert_eq].
      rewrite lookup_insert_ne; [done|congruence]. }
    exists (End p W1). split; [reflexivity|]. split; [|split].
    + intros k h Hk. destruct (decide (i = k)) as [<-|N].
      * rewrite lookup_insert_eq in Hk. injection Hk as <-.
        rewrite lookup_End_eq. by rewrite Hframe.
      * rewrite lookup_insert_ne in Hk by done.
        rewrite lookup_End_ne; [by apply (Hopen k)|].
        intros ->. by apply (Hfresh k).
    + intros h Hh. rewrite lookup_End_ne.
      * apply Hframe. intros k Hk. apply (Hh k).
        rewrite lookup_insert_ne; [done|congruence].
      * intros ->. apply (Hh i). by rewrite lookup_insert_eq.
    + by rewrite length_spans_End.
Qed.

(** A closed-mode batch that published something: the batch span is
    ended once, the span of a failed item once, and the span of a
    published item twice, in the loop and again after it. *)
Lemma publishInternal_closed (st st1 : ProducerState) (ctx : Context) (count : Z)
    (r : BatchResult) :
  distinctIDs env 0 (Z.to_nat count) ->
  publishInternal env st ctx count false = Returns (st1, r) ->
  resErr r = None ->
  let b := length (spans (world st)) in
  endCalls (world st1) b = 1 /\
  forall i, i < Z.to_nat count ->
    endCalls (world st1) (b + 1 + i) =
      match fired (sched env i) with
      | ChanReady => 2
      | CtxDone => 1
      end.
Proof.
  intros Hdist Hpub Herr b.
  unfold publishInternal in Hpub.
  destruct (count <=? 0)%Z.
  { injection Hpub as <- <-. discriminate Herr. }
  unfold Start in Hpub. cbn [List.filter] in Hpub.
  set (sb := mkSpanData _ _ _ _ _ _ _ _ _ _) in Hpub.
  set (bctx := NewSpanContext _ _ _ _ _) in Hpub.
  set (W0 := record _ _) in Hpub.
  destruct (Producer.publishLoop env bctx false (Z.to_nat count) 0 _) as [ls| | |] eqn:Hloop;
    try discriminate Hpub.
  cbn [obind] in Hpub.
  destruct (Producer.lsPublished ls =? 0)%Z.
  { injection Hpub as <- <-. discriminate Herr. }
  apply publishLoop_spec in Hloop; [|exact Hdist].
  cbn [Producer.lsWorld Producer.lsOrderSpans] in Hloop.
  assert (HL : length (spans W0) = b + 1).
  { subst W0. rewrite spans_record. cbn [setSpans spans]. rewrite length_app. cbn. lia. }
  rewrite HL in Hloop.
  destruct Hloop as (Hlen & Hframe & Hitems & Hreg & Hinv & _).
  set (m := Producer.lsOrderSpans ls) in *.
  assert (Hvals : forall k v, m !! k = Some v ->
            exists j, j < Z.to_nat count /\ fired (sched env j) = ChanReady /\
                      k = ID (newOrder env j) /\ v = Some (b + 1 + j)).
  { intros k v Hk. destruct (Hinv k v Hk) as [Hemp|Hj]; [|exact Hj].
    by rewrite lookup_empty in Hemp. }
  assert (Hinj : openInj m).
  { intros k1 k2 h H1 H2.
    destruct (Hvals _ _ H1) as (j1 & _ & _ & -> & [= ->]).
    destruct (Hvals _ _ H2) as (j2 & _ & _ & -> & [= E]).
    assert (j1 = j2) by lia. by subst. }
  assert (Hnonil : forall k, m !! k <> Some None).
  { intros k Hk. by destruct (Hvals _ _ Hk) as (j & _ & _ & _ & ?). }
  set (W1 := End (length (spans (world st))) (AddEvent _ _ _ _)) in Hpub.
  destruct (endAll_spec m W1 Hinj Hnonil) as (W2 & HendAll & Hopen & Hkeep & _).
  rewrite HendAll in Hpub. cbn [obind] in Hpub. injection Hpub as <- <-.
  cbn [world]. fold b in W1.
  assert (Hb1 : spans W1 !! b = Some (ended (withEvent "Batch published"
              [("published.count", AInt (Producer.lsPublished ls)); ("total.count", AInt count)] sb))).
  { subst W1. rewrite lookup_End_eq, spans_AddEvent, list_lookup_alter_eq.
    rewrite Hframe by lia. subst W0. rewrite spans_record. cbn [setSpans spans].
    by rewrite list_lookup_middle. }
  assert (Hi1 : forall i, i < Z.to_nat count ->
            exists s, spans W1 !! (b + 1 + i) = Some s /\
                      spEndCalls s = itemEnds false env i).
  { intros i Hi. destruct (Hitems i Hi) as (s & Hs & _ & He). exists s.
    subst W1. rewrite lookup_End_ne, spans_AddEvent by lia.
    rewrite list_lookup_alter_ne by lia. done. }
  split.
  - unfold endCalls. rewrite Hkeep, Hb1; [reflexivity|].
    intros k Hk. destruct (Hvals _ _ Hk) as (j & _ & _ & _ & [= E]). lia.
  - intros i Hi. destruct (Hi1 i Hi) as (s & Hs & He).
    unfold endCalls, itemEnds in *.
    destruct (fired (sched env i)) eqn:Hf.
    + rewrite (Hopen _ _ (Hreg i Hi Hf)), Hs. cbn. by rewrite He.
    + rewrite Hkeep, Hs; [done|].
      intros k Hk. destruct (Hvals _ _ Hk) as (j & _ & Hfj & _ & [= E]).
      assert (j = i) by lia. subst j. congruence.
Qed.

End Batches.

Lemma zero_published_batch_witness :
  let lastErr := publishFailure Sample.allCancelled 1 in
  let failure := ErrWrap "failed to publish any orders" lastErr in
  (0 < 2)%Z /\
  (forall i, i < Z.to_nat 2 -> fired (sched Sample.allCancelled i) = CtxDone) /\
  (exists st',
     PublishOrderBatchWithOpenSpan Sample.allCancelled Sample.state0 Background 2
       = Returns (st', mkResult (Some 0) ∅ 0 (Some failure)) /\
     errorsOf (world st') 0 = [lastErr] /\
     endCalls (world st') 0 = 0) /\
  (exists st',
     PublishOrderBatch Sample.allCancelled Sample.state0 Background 2
       = Returns (st', (emptySpanContext, Some failure)) /\
     errorsOf (world st') 0 = [lastErr] /\
     endCalls (world st') 0 = 1).
Proof.
  intros lastErr failure.
  assert (Hpos : (0 < 2)%Z) by lia.
  assert (Hall : forall i, i < Z.to_nat 2 -> fired (sched Sample.allCancelled i) = CtxDone)
    by (intros i _; reflexivity).
  split; [exact Hpos|]. split; [exact Hall|].
  destruct (zero_published_batch Sample.allCancelled Sample.state0 Background 2 Hpos Hall)
    as (Hint & Hclosed & _).
  split; [exact (Hint true) | exact Hclosed].
Defined.

(** C8 as stated fails for the open exit mode: no item is published, and
    the batch span comes back without having been ended. *)
Lemma open_mode_batch_span_not_ended_counterexample :
  ~ (forall (env : Env) (st st' : ProducerState) (ctx : Context) (count : Z)
            (keepOpen : bool) (r : BatchResult),
       (0 < count)%Z ->
       (forall i, i < Z.to_nat count -> fired (sched env i) = CtxDone) ->
       publishInternal env st ctx count keepOpen = Returns (st', r) ->
       exists b, resSpan r = Some b /\
                 errorsOf (world st') b <> [] /\
                 1 <= endCalls (world st') b /\
                 resErr r <> None).
Proof.
  intros H.
  destruct (publishInternal_cancelled Sample.allCancelled Sample.state0 Background 1 true)
    as (st' & Hrun & _ & Hends); [lia | by intros | ].
  destruct (H Sample.allCancelled Sample.state0 st' Background 1%Z true _
              ltac:(lia) ltac:(by intros) Hrun) as (b & Hb & _ & Hge & _).
  assert (b = length (spans (world Sample.state0))) as ->
    by (cbn [resSpan] in Hb; congruence).
  rewrite Hends in Hge. lia.
Qed.

Lemma nonpositive_count_rejected_witness :
  let invalid := ErrNew "batch size must be greater than zero" in
  (0 <= 0)%Z /\
  publishInternal Sample.allSent Sample.state0 Background 0 true
    = Returns (Sample.state0, mkResult None ∅ 0 (Some invalid)) /\
  PublishOrderBatch Sample.allSent Sample.state0 Background 0
    = Returns (Sample.state0, (emptySpanContext, Some invalid)) /\
  ProducerStandalone.PublishOrderBatch Sample.allSent Sample.state0 Background 0
    = Returns (Sample.state0, (emptySpanContext, Some invalid)).
Proof.
  intros invalid.
  assert (Hle : (0 <= 0)%Z) by lia.
  split; [exact Hle|].
  exact (nonpositive_count_rejected Sample.allSent Sample.state0 Background 0 true Hle).
Defined.

(** C3 at a batch of one in closed mode: the call returns, the batch span
    has received one [End] and the item span two. The earlier revision of
    [PublishOrderBatch] ends the item span once. *)
Lemma closed_mode_item_span_ended_twice :
  (exists st' sc,
     PublishOrderBatch Sample.allSent Sample.state0 Background 1 = Returns (st', (sc, None)) /\
     endCalls (world st') 0 = 1 /\
     endCalls (world st') 1 = 2) /\
  (exists st' sc,
     ProducerStandalone.PublishOrderBatch Sample.allSent Sample.state0 Background 1
       = Returns (st', (sc, None)) /\
     endCalls (world st') 0 = 1 /\
     endCalls (world st') 1 = 1).
Proof.
  split; do 2 eexists; (split; [vm_compute; reflexivity|]); vm_compute; split; reflexivity.
Qed.

(** ** The worker *)

Section WorkerSpan.




Lemma keepsLink_backLink (sc : SpanContext) : keepsLink (backLink sc) = true.
Proof. apply keepsLink_attrs. Qed.





(** C4 at a message whose carrier is empty: the decoded context is the
    invalid sentinel, and the processing span still carries one link,
    whose target is that sentinel. *)
Lemma worker_links_invalid_context :
  let order := mkOrder "ORDER-1" "CUST-1000" 100 0 "" "" "" in
  SpanContextFromMessage order = Returns emptySpanContext /\
  IsValid emptySpanContext = false /\
  exists w' W',
    processOrderWithLink (mkWorker 0 None) Sample.world0 Background order "Worker-1"
      = Returns (w', W', Some 0, None) /\
    linksOf W' 0 = [backLink emptySpanContext].
Proof.
  split; [reflexivity|]. split; [reflexivity|].
  do 2 eexists. split; [vm_compute; reflexivity|]. vm_compute. reflexivity.
Qed.

End WorkerSpan.

(** ** The retry chain *)

Import Retry.

Section RetryChain.

Variable rnd : Z -> bool.











End RetryChain.

Lemma since_app (W W' : World) (evs : list Event) :
  timeline W' = timeline W ++ evs -> since W W' = evs.
Proof. intros H. unfold since. rewrite H. apply drop_app_length. Qed.









(** The delay after attempt [a] is [a * 100ms]: with a budget of four the
    delays would be 200, 300 and 400 ms, which no common ratio relates. *)
Remark backoff_formula_is_linear :
  gaps 0 (since Sample.world0 (RetryWith 4 (fun _ => false) Sample.world0 Background))
    = [200; 300; 400]%Z /\
  ~ exists num den, (0 < den < num)%Z /\ geometric num den [200; 300; 400]%Z.
Proof.
  split; [vm_compute; reflexivity|].
  intros (num & den & Hpos & Hgeo).
  pose proof (Hgeo 0 200%Z 300%Z eq_refl eq_refl).
  pose proof (Hgeo 1 300%Z 400%Z eq_refl eq_refl).
  lia.
Qed.

(** * Further properties *)

Import Config Scenario.

(** ** The endpoint *)

Lemma prefix_app (pre s : string) : String.prefix pre (pre ++ s) = true.
Proof.
  induction pre as [|c pre IH]; [by destruct s|].
  rewrite string_app_cons. cbn [String.prefix].
  by destruct (ascii_dec c c).
Qed.

Lemma dropBytes_app (pre s : string) : dropBytes (String.length pre) (pre ++ s) = s.
Proof.
  induction pre as [|c pre IH]; [reflexivity|].
  rewrite string_app_cons. exact IH.
Qed.

Lemma prefix_split (pre s : string) :
  String.prefix pre s = true -> s = (pre ++ dropBytes (String.length pre) s)%string.
Proof.
  revert s. induction pre as [|c pre IH]; intros s H; [reflexivity|].
  destruct s as [|d s]; [discriminate H|].
  cbn [String.prefix] in H. destruct (ascii_dec c d) as [<-|]; [|discriminate H].
  rewrite string_app_cons. cbn [String.length dropBytes]. f_equal. by apply IH.
Qed.

(** X1. [parseEndpoint] removes one leading scheme and nothing else: the
    endpoint is the scheme it reports followed by the host it returns. TLS
    is kept exactly for an endpoint that starts with https://; an
    endpoint with http:// or with no scheme is used without TLS. *)
Theorem parseEndpoint_scheme (endpoint : string) :
  let host := fst (parseEndpoint endpoint) in
  let insecure := snd (parseEndpoint endpoint) in
  (insecure = false <-> HasPrefix endpoint "https://" = true) /\
  (HasPrefix endpoint "https://" = true -> endpoint = ("https://" ++ host)%string) /\
  (HasPrefix endpoint "https://" = false -> HasPrefix endpoint "http://" = true ->
     endpoint = ("http://" ++ host)%string) /\
  (HasPrefix endpoint "https://" = false -> HasPrefix endpoint "http://" = false ->
     endpoint = host) /\
  (forall h, parseEndpoint ("https://" ++ h) = (h, false)) /\
  (forall h, parseEndpoint ("http://" ++ h) = (h, true)).
Proof.
  unfold parseEndpoint, TrimPrefix, HasPrefix.
  split; [|split; [|split; [|split; [|split]]]].
  - destruct (String.prefix "https://" endpoint); [done|].
    destruct (String.prefix "http://" endpoint); cbn; split; discriminate.
  - intros H. rewrite H. cbn [fst]. by apply prefix_split.
  - intros H1 H2. rewrite H1, H2. cbn [fst]. by apply prefix_split.
  - intros H1 H2. by rewrite H1, H2.
  - intros h. rewrite prefix_app. by rewrite (dropBytes_app "https://" h).
  - intros h.
    assert (Hs : String.prefix "https://" ("http://" ++ h) = false).
    { do 4 (rewrite string_app_cons; cbn [String.prefix];
            destruct (ascii_dec _ _); [|done]).
      rewrite string_app_cons. cbn [String.prefix].
      by destruct (ascii_dec _ _). }
    rewrite Hs, prefix_app. by rewrite (dropBytes_app "http://" h).
Qed.

Lemma parseEndpoint_scheme_witness :
  HasPrefix "http://localhost:4317" "https://" = false /\
  HasPrefix "http://localhost:4317" "http://" = true /\
  "http://localhost:4317" = ("http://" ++ fst (parseEndpoint "http://localhost:4317"))%string.
Proof.
  assert (H1 : HasPrefix "http://localhost:4317" "https://" = false) by reflexivity.
  assert (H2 : HasPrefix "http://localhost:4317" "http://" = true) by reflexivity.
  split; [exact H1|]. split; [exact H2|].
  exact (proj1 (proj2 (proj2 (parseEndpoint_scheme "http://localhost:4317"))) H1 H2).
Defined.

(** ** The queue under any interleaving of its clients *)

Lemma stamped_snoc (l : list (Context * Order)) (ctx : Context) (order : Order) :
  stamped (l ++ [(ctx, order)]) = stamped l ++ [stamp ctx order].
Proof. unfold stamped. by rewrite map_app. Qed.

Lemma runOps_spec (ops : list Op) : forall (q q' : SimpleQueue) (log log' : Log),
  runOps ops q log = Returns (q', log') ->
  Length q <= chCap (messages q) ->
  delivered log ++ chBuf (messages q) = stamped (accepted log) ->
  chCap (messages q') = chCap (messages q) /\
  Length q' <= chCap (messages q') /\
  delivered log' ++ chBuf (messages q') = stamped (accepted log').
Proof.
  induction ops as [|op ops IH]; intros q q' log log' Hrun Hcap Hinv.
  - cbn in Hrun. by inversion Hrun; subst.
  - destruct op as [ctx f order|f]; cbn [runOps] in Hrun.
    + unfold Publish in Hrun. destruct f.
      * destruct (Nat.ltb_spec (length (chBuf (messages q))) (chCap (messages q))) as [Hlt|Hge];
          [|discriminate Hrun].
        cbn [obind] in Hrun. apply IH in Hrun.
        -- exact Hrun.
        -- unfold Length. cbn [messages chBuf chCap]. rewrite length_app. cbn [length]. lia.
        -- cbn [messages chBuf accepted delivered].
           by rewrite stamped_snoc, <- Hinv, app_assoc.
      * cbn [obind] in Hrun. by apply IH in Hrun.
    + unfold Consume in Hrun. destruct f.
      * destruct (chBuf (messages q)) as [|msg rest] eqn:Hbuf; [discriminate Hrun|].
        cbn [obind] in Hrun. apply IH in Hrun.
        -- exact Hrun.
        -- unfold Length in *. rewrite Hbuf in Hcap. cbn [messages chBuf chCap length] in *. lia.
        -- cbn [messages chBuf accepted delivered]. rewrite <- Hinv.
           by rewrite <- app_assoc.
      * cbn [obind] in Hrun. by apply IH in Hrun.
Qed.

(** X2. The queue is first-in first-out and loses nothing, however the
    calls of its producers and consumers interleave: on a queue that
    starts empty, the messages delivered so far followed by the messages
    still buffered are exactly the stamped arguments of the accepted
    publishes, in the order of acceptance. The buffer never exceeds the
    capacity, and the capacity never changes. *)
Theorem queue_fifo_conservation (ops : list Op) (cap : nat) (q' : SimpleQueue) (log' : Log) :
  runOps ops (mkQueue (makeChan cap)) (mkLog [] []) = Returns (q', log') ->
  delivered log' ++ chBuf (messages q') = stamped (accepted log') /\
  Length q' <= cap /\
  chCap (messages q') = cap.
Proof.
  intros Hrun. apply runOps_spec in Hrun; cbn in *; [|lia|done].
  destruct Hrun as (Hc & Hl & Hd). rewrite Hc in Hl. done.
Qed.

Lemma queue_fifo_conservation_witness :
  let o1 := mkOrder "ORDER-1" "CUST-1000" 100 0 "" "" "" in
  let o2 := mkOrder "ORDER-2" "CUST-1001" 110 0 "" "" "" in
  let ops := [OpPublish Sample.consumerCtx ChanReady o1; OpPublish Background CtxDone o2;
              OpPublish Background ChanReady o2; OpConsume ChanReady] in
  let q' := mkQueue (mkChan [stamp Background o2] 2) in
  let log' := mkLog [(Sample.consumerCtx, o1); (Background, o2)] [stamp Sample.consumerCtx o1] in
  runOps ops (mkQueue (makeChan 2)) (mkLog [] []) = Returns (q', log') /\
  delivered log' ++ chBuf (messages q') = stamped (accepted log').
Proof.
  intros o1 o2 ops q' log'.
  assert (H : runOps ops (mkQueue (makeChan 2)) (mkLog [] []) = Returns (q', log'))
    by reflexivity.
  split; [exact H|].
  exact (proj1 (queue_fifo_conservation ops 2 q' log' H)).
Defined.

(** X3. Publishing blocks only on a full buffer and consuming only on an
    empty one. When no context is done, publishing a list of messages
    into a queue with room for all of them returns with every message
    accepted and appended in order; when the list is longer than the room
    left, the run blocks. Consuming as many messages as are buffered
    returns them oldest first and leaves the buffer empty; one more
    consume blocks. *)
Theorem queue_blocks_only_when_full_or_empty (q : SimpleQueue)
    (items : list (Context * Order)) :
  let pubs := map (fun it => OpPublish (fst it) ChanReady (snd it)) items in
  let cons := replicate (Length q) (OpConsume ChanReady) in
  (Length q + length items <= chCap (messages q) ->
     runOps pubs q (mkLog [] []) =
       Returns (mkQueue (mkChan (chBuf (messages q) ++ stamped items) (chCap (messages q))),
                mkLog items [])) /\
  (Length q <= chCap (messages q) < Length q + length items ->
     runOps pubs q (mkLog [] []) = Blocks) /\
  runOps cons q (mkLog [] []) =
    Returns (mkQueue (mkChan [] (chCap (messages q))), mkLog [] (chBuf (messages q))) /\
  runOps (cons ++ [OpConsume ChanReady]) q (mkLog [] []) = Blocks.
Proof.
  cbn zeta.
  assert (Hpub : forall items q acc,
    Length q + length items <= chCap (messages q) ->
    runOps (map (fun it => OpPublish (fst it) ChanReady (snd it)) items) q (mkLog acc [])
    = Returns (mkQueue (mkChan (chBuf (messages q) ++ stamped items) (chCap (messages q))),
               mkLog (acc ++ items) [])).
  { clear. induction items as [|[ctx o] items IH]; intros q acc Hroom.
    - cbn. rewrite !app_nil_r. by destruct q as [[buf cap]].
    - cbn [map runOps fst snd]. unfold Publish, Length in *. cbn [length] in Hroom.
      destruct (Nat.ltb_spec (length (chBuf (messages q))) (chCap (messages q))); [|lia].
      cbn [obind]. rewrite IH.
      + cbn. by rewrite <- !app_assoc.
      + unfold Length. cbn. rewrite length_app. cbn. lia. }
  assert (Hfull : forall items q acc,
    Length q <= chCap (messages q) ->
    chCap (messages q) < Length q + length items ->
    runOps (map (fun it => OpPublish (fst it) ChanReady (snd it)) items) q (mkLog acc [])
    = Blocks).
  { clear. induction items as [|[ctx o] items IH]; intros q acc Hle Hroom.
    - cbn in Hroom. lia.
    - cbn [map runOps fst snd]. unfold Publish, Length in *. cbn [length] in Hroom.
      destruct (Nat.ltb_spec (length (chBuf (messages q))) (chCap (messages q))); [|done].
      cbn [obind]. apply IH; unfold Length; cbn; rewrite length_app; cbn; lia. }
  assert (Hcons : forall buf cap acc rest,
    runOps (replicate (length buf) (OpConsume ChanReady) ++ rest)
      (mkQueue (mkChan buf cap)) (mkLog [] acc)
    = runOps rest (mkQueue (mkChan [] cap)) (mkLog [] (acc ++ buf))).
  { clear. induction buf as [|m buf IH]; intros cap acc rest.
    - cbn. by rewrite app_nil_r.
    - cbn. rewrite IH. by rewrite <- app_assoc. }
  split; [|split; [|split]].
  - intros Hroom. by rewrite Hpub.
  - intros [Hle Hroom]. by apply Hfull.
  - destruct q as [[buf cap]]. unfold Length. cbn [messages chBuf chCap].
    pose proof (Hcons buf cap [] []) as H. rewrite app_nil_r in H. by rewrite H.
  - destruct q as [[buf cap]]. unfold Length. cbn [messages chBuf chCap].
    by rewrite Hcons.
Qed.

Lemma queue_blocks_only_when_full_or_empty_witness :
  let o := mkOrder "ORDER-1" "CUST-1000" 100 0 "" "" "" in
  let q := mkQueue (mkChan [o] 2) in
  let items := [(Background, o); (Sample.consumerCtx, o)] in
  Length q <= chCap (messages q) < Length q + length items /\
  runOps (map (fun it => OpPublish (fst it) ChanReady (snd it)) items) q (mkLog [] []) = Blocks.
Proof.
  intros o q items.
  assert (H : Length q <= chCap (messages q) < Length q + length items) by (cbn; lia).
  split; [exact H|].
  exact (proj1 (proj2 (queue_blocks_only_when_full_or_empty q items)) H).
Defined.

(** ** The carrier codec, further *)

(** X4. [SpanContextFromMessage] reads bytes 3 to 34 and 36 to 51 of the
    carrier and nothing else: the version field, the two separators, the
    flags and whatever follows are not checked. Any carrier of at least 53
    bytes with the two identities of a valid SpanContext at these
    positions decodes to that SpanContext, remote and sampled. *)
Theorem decode_ignores_framing (sc : SpanContext) (ver sep tail : string) (order : Order) :
  IsValid sc = true ->
  String.length ver = 3 ->
  String.length sep = 1 ->
  1 <= String.length tail ->
  TraceParent order =
    (ver ++ TraceID_String (TraceID_of sc) ++ sep ++ SpanID_String (SpanID_of sc) ++ tail)%string ->
  SpanContextFromMessage order =
    Returns (NewSpanContext (TraceID_of sc) (SpanID_of sc) FlagsSampled "" true).
Proof.
  intros Hvalid Hver Hsep Htail Htp.
  unfold IsValid in Hvalid. apply andb_true_iff in Hvalid as [Ht Hs].
  assert (Hlen : 53 <= String.length (TraceParent order)).
  { rewrite Htp, !length_string_app, length_TraceID_String, length_SpanID_String. lia. }
  unfold SpanContextFromMessage.
  destruct (Nat.ltb_spec (String.length (TraceParent order)) 53) as [Hshort|_]; [lia|].
  rewrite !slice_in_bounds by lia.
  cbn [obind].
  assert (H1 : substring 3 (35 - 3) (TraceParent order) = TraceID_String (TraceID_of sc)).
  { rewrite Htp.
    pose proof (substring_middle ver (TraceID_String (TraceID_of sc))
                  (sep ++ SpanID_String (SpanID_of sc) ++ tail)) as H.
    rewrite Hver, length_TraceID_String in H. exact H. }
  assert (H2 : substring 36 (52 - 36) (TraceParent order) = SpanID_String (SpanID_of sc)).
  { rewrite Htp.
    pose proof (substring_middle (ver ++ TraceID_String (TraceID_of sc) ++ sep)
                  (SpanID_String (SpanID_of sc)) tail) as H.
    rewrite !length_string_app, Hver, Hsep, length_TraceID_String, length_SpanID_String in H.
    rewrite !string_app_assoc in H. exact H. }
  rewrite H1, H2, TraceIDFromHex_String, SpanIDFromHex_String, Ht, Hs.
  reflexivity.
Qed.

Lemma decode_ignores_framing_witness :
  let order := mkOrder "ORDER-1" "" 0 0
    "ff_ab010101010101010101010101010101/0ff0f0f0f0f0f0f0-00-and-more" "" "" in
  SpanContextFromMessage order =
    Returns (NewSpanContext (TraceID_of Sample.consumerCtx) (SpanID_of Sample.consumerCtx)
               FlagsSampled "" true).
Proof.
  intros order.
  apply (decode_ignores_framing Sample.consumerCtx "ff_" "/" "-00-and-more" order);
    [reflexivity | reflexivity | reflexivity | cbn; lia | reflexivity].
Defined.

(** X5. A message published under a context whose SpanContext is not valid
    (no span at all, or a zero trace or span identity) still gets a
    carrier of 55 bytes, and that carrier decodes to the invalid
    sentinel: the consumer of such a message has nothing to link to. *)
Theorem carrier_of_invalid_context (q q' : SimpleQueue) (ctx : Context) (order : Order) :
  IsValid ctx = false ->
  Publish q ctx ChanReady order = Returns (q', None) ->
  exists msg,
    chBuf (messages q') = chBuf (messages q) ++ [msg] /\
    String.length (TraceParent msg) = 55 /\
    OriginalSpanID msg = SpanID_String (SpanID_of ctx) /\
    SpanContextFromMessage msg = Returns emptySpanContext.
Proof.
  intros Hinv Hpub. unfold Publish in Hpub.
  destruct (length (chBuf (messages q)) <? chCap (messages q))%nat; [|discriminate Hpub].
  inversion Hpub; subst; clear Hpub.
  exists (stamp ctx order). cbn [messages chBuf].
  split; [reflexivity|]. split; [apply length_traceparent|]. split; [reflexivity|].
  by rewrite decode_stamp, Hinv.
Qed.

Lemma carrier_of_invalid_context_witness :
  let half := NewSpanContext (xab ::: vreplicate 15 x01) nilSpanID x01 "" false in
  let q' := mkQueue (mkChan [stamp half zeroOrder] DefaultQueueCapacity) in
  IsValid half = false /\
  Publish NewSimpleQueue half ChanReady zeroOrder = Returns (q', None) /\
  exists msg,
    chBuf (messages q') = chBuf (messages NewSimpleQueue) ++ [msg] /\
    String.length (TraceParent msg) = 55 /\
    OriginalSpanID msg = SpanID_String (SpanID_of half) /\
    SpanContextFromMessage msg = Returns emptySpanContext.
Proof.
  intros half q'.
  assert (H1 : IsValid half = false) by reflexivity.
  assert (H2 : Publish NewSimpleQueue half ChanReady zeroOrder = Returns (q', None))
    by reflexivity.
  split; [exact H1|]. split; [exact H2|].
  exact (carrier_of_invalid_context NewSimpleQueue q' half zeroOrder H1 H2).
Defined.

Lemma fromHexChar_lower (c : ascii) (n : N) :
  Hex.isLowerHex c = true -> Hex.fromHexChar c = Some n ->
  (n < 16)%N /\ Hex.hexDigit n = c.
Proof.
  destruct c as [b0 b1 b2 b3 b4 b5 b6 b7].
  destruct b0, b1, b2, b3, b4, b5, b6, b7; vm_compute; intros H1 H2;
    first [discriminate H1 | inversion H2; split; reflexivity].
Qed.

Lemma nibbles_of_byte (h l : N) :
  (h < 16)%N -> (l < 16)%N ->
  N.shiftr (Byte.to_N (Hex.byteOfNibbles h l)) 4 = h /\
  N.land (Byte.to_N (Hex.byteOfNibbles h l)) 15 = l.
Proof.
  intros Hh Hl.
  set (nibbles := map N.of_nat (seq 0 16)).
  assert (Hall : forallb (fun h => forallb (fun l =>
            N.eqb (N.shiftr (Byte.to_N (Hex.byteOfNibbles h l)) 4) h &&
            N.eqb (N.land (Byte.to_N (Hex.byteOfNibbles h l)) 15) l) nibbles) nibbles = true)
    by (vm_compute; reflexivity).
  assert (Hin : forall n, (n < 16)%N -> In n nibbles).
  { intros n Hn. subst nibbles. apply in_map_iff. exists (N.to_nat n).
    split; [apply N2Nat.id|]. apply in_seq. lia. }
  rewrite forallb_forall in Hall. specialize (Hall h (Hin h Hh)).
  rewrite forallb_forall in Hall. specialize (Hall l (Hin l Hl)).
  apply andb_true_iff in Hall as [H1 H2].
  by apply N.eqb_eq in H1, H2.
Qed.

Lemma EncodeToString_DecodeString (h : string) :
  (forall bs, forallb Hex.isLowerHex (list_ascii_of_string h) = true ->
     Hex.DecodeString h = Some bs -> Hex.EncodeToString bs = h) /\
  (forall c bs, forallb Hex.isLowerHex (list_ascii_of_string (String c h)) = true ->
     Hex.DecodeString (String c h) = Some bs -> Hex.EncodeToString bs = String c h).
Proof.
  induction h as [|d h [IH1 IH2]].
  - split; [|discriminate]. intros bs _ H. cbn in H. by inversion H.
  - split; [exact (IH2 d)|].
    intros c bs Hlow Hdec.
    cbn [list_ascii_of_string forallb] in Hlow.
    apply andb_true_iff in Hlow as [Hc Hlow]. apply andb_true_iff in Hlow as [Hd Hlow].
    cbn [Hex.DecodeString] in Hdec.
    destruct (Hex.fromHexChar c) as [hi|] eqn:Ehi; [|discriminate Hdec].
    destruct (Hex.fromHexChar d) as [lo|] eqn:Elo; [|discriminate Hdec].
    destruct (Hex.DecodeString h) as [rest|] eqn:Erest; [|discriminate Hdec].
    inversion Hdec; subst bs; clear Hdec.
    destruct (fromHexChar_lower c hi Hc Ehi) as [Hhi Hhc].
    destruct (fromHexChar_lower d lo Hd Elo) as [Hlo Hlc].
    destruct (nibbles_of_byte hi lo Hhi Hlo) as [Hs Hl].
    cbn [Hex.EncodeToString]. rewrite Hs, Hl, Hhc, Hlc.
    by rewrite (IH1 rest Hlow eq_refl).
Qed.

Lemma decodeHex_inv (h : string) (bs : list byte) :
  Hex.decodeHex h = Some bs -> Hex.EncodeToString bs = h.
Proof.
  unfold Hex.decodeHex.
  destruct (forallb Hex.isLowerHex (list_ascii_of_string h)) eqn:Hlow; [|discriminate].
  by apply (proj1 (EncodeToString_DecodeString h)).
Qed.

Lemma toArray_inv {A : Type} (n : nat) : forall (l : list A) (v : vec A n),
  toArray n l = Some v -> vec_to_list v = l.
Proof.
  induction n as [|n IH]; intros l v H.
  - destruct l; [|discriminate H]. cbn in H. by inversion H.
  - destruct l as [|x l]; [discriminate H|]. cbn [toArray] in H.
    destruct (toArray n l) as [w|] eqn:Hw; [|discriminate H].
    inversion H; subst v. cbn. by rewrite (IH l w Hw).
Qed.

Lemma TraceIDFromHex_inv (h : string) (t : TraceID) :
  TraceIDFromHex h = Some t -> TraceID_String t = h /\ TraceID_IsValid t = true.
Proof.
  unfold TraceIDFromHex. destruct (negb _); [discriminate|].
  destruct (Hex.decodeHex h) as [bs|] eqn:Hd; [|discriminate].
  destruct (toArray 16 bs) as [v|] eqn:Hv; [|discriminate].
  destruct (TraceID_IsValid v) eqn:Hval; [|discriminate].
  intros H; inversion H; subst v. split; [|exact Hval].
  unfold TraceID_String. rewrite (toArray_inv _ _ _ Hv). by apply decodeHex_inv.
Qed.

Lemma SpanIDFromHex_inv (h : string) (s : SpanID) :
  SpanIDFromHex h = Some s -> SpanID_String s = h /\ SpanID_IsValid s = true.
Proof.
  unfold SpanIDFromHex. destruct (negb _); [discriminate|].
  destruct (Hex.decodeHex h) as [bs|] eqn:Hd; [|discriminate].
  destruct (toArray 8 bs) as [v|] eqn:Hv; [|discriminate].
  destruct (SpanID_IsValid v) eqn:Hval; [|discriminate].
  intros H; inversion H; subst v. split; [|exact Hval].
  unfold SpanID_String. rewrite (toArray_inv _ _ _ Hv). by apply decodeHex_inv.
Qed.

(** X6. What [SpanContextFromMessage] returns is all or nothing: either
    the invalid sentinel, or a valid SpanContext that is remote, sampled
    and without trace state. In the second case decoding lost nothing:
    the identities, written out again in hexadecimal, are bytes 3 to 34
    and 36 to 51 of the carrier as they stand. *)
Theorem decode_all_or_nothing (order : Order) (sc : SpanContext) :
  SpanContextFromMessage order = Returns sc ->
  sc = emptySpanContext \/
  (IsValid sc = true /\
   Remote sc = true /\
   TraceFlags sc = FlagsSampled /\
   Trace.TraceState sc = "" /\
   53 <= String.length (TraceParent order) /\
   TraceID_String (TraceID_of sc) = substring 3 32 (TraceParent order) /\
   SpanID_String (SpanID_of sc) = substring 36 16 (TraceParent order)).
Proof.
  unfold SpanContextFromMessage.
  destruct (Nat.ltb_spec (String.length (TraceParent order)) 53) as [Hshort|Hlong].
  { intros H; inversion H. by left. }
  rewrite !slice_in_bounds by lia. cbn [obind].
  change (35 - 3) with 32. change (52 - 36) with 16.
  destruct (TraceIDFromHex _) as [tid|] eqn:Ht; [|intros H; inversion H; by left].
  destruct (SpanIDFromHex _) as [sid|] eqn:Hs; [|intros H; inversion H; by left].
  intros H; inversion H; subst sc; clear H. right.
  apply TraceIDFromHex_inv in Ht as [Ht1 Ht2].
  apply SpanIDFromHex_inv in Hs as [Hs1 Hs2].
  unfold IsValid. cbn [TraceID_of SpanID_of Remote TraceFlags Trace.TraceState].
  rewrite Ht2, Hs2. done.
Qed.

Lemma decode_all_or_nothing_witness :
  let msg := stamp Sample.consumerCtx zeroOrder in
  let sc := NewSpanContext (TraceID_of Sample.consumerCtx) (SpanID_of Sample.consumerCtx)
              FlagsSampled "" true in
  SpanContextFromMessage msg = Returns sc /\
  (sc = emptySpanContext \/
   (IsValid sc = true /\
    Remote sc = true /\
    TraceFlags sc = FlagsSampled /\
    Trace.TraceState sc = "" /\
    53 <= String.length (TraceParent msg) /\
    TraceID_String (TraceID_of sc) = substring 3 32 (TraceParent msg) /\
    SpanID_String (SpanID_of sc) = substring 36 16 (TraceParent msg))).
Proof.
  intros msg sc.
  assert (H : SpanContextFromMessage msg = Returns sc) by reflexivity.
  split; [exact H|].
  exact (decode_all_or_nothing msg sc H).
Defined.

(** X7. The identities of a carrier are accepted in lowercase hexadecimal
    only. A carrier of at least 53 bytes that has, among bytes 3 to 34 or
    among bytes 36 to 51, a byte outside [0-9a-f] (an uppercase digit
    [A-F] for one) decodes to the invalid sentinel. *)
Theorem decode_rejects_non_lowercase (order : Order) (c : ascii) :
  53 <= String.length (TraceParent order) ->
  Hex.isLowerHex c = false ->
  In c (list_ascii_of_string (substring 3 32 (TraceParent order))) \/
  In c (list_ascii_of_string (substring 36 16 (TraceParent order))) ->
  SpanContextFromMessage order = Returns emptySpanContext.
Proof.
  intros Hlong Hc Hin.
  unfold SpanContextFromMessage.
  destruct (Nat.ltb_spec (String.length (TraceParent order)) 53) as [Hshort|_]; [lia|].
  rewrite !slice_in_bounds by lia. cbn [obind].
  change (35 - 3) with 32. change (52 - 36) with 16.
  destruct Hin as [Hin|Hin].
  - by rewrite (proj1 (FromHex_rejects _ c Hin Hc)).
  - rewrite (proj2 (FromHex_rejects _ c Hin Hc)).
    by destruct (TraceIDFromHex _).
Qed.

Lemma decode_rejects_non_lowercase_witness :
  let order := mkOrder "ORDER-1" "" 0 0
    "00-AB010101010101010101010101010101-0ff0f0f0f0f0f0f0-01" "" "" in
  53 <= String.length (TraceParent order) /\
  Hex.isLowerHex "A" = false /\
  Hex.fromHexChar "A" = Some 10%N /\
  SpanContextFromMessage order = Returns emptySpanContext.
Proof.
  intros order.
  assert (H1 : 53 <= String.length (TraceParent order)) by (cbn; lia).
  assert (H2 : Hex.isLowerHex "A" = false) by reflexivity.
  split; [exact H1|]. split; [exact H2|]. split; [reflexivity|].
  apply (decode_rejects_non_lowercase order "A"%char H1 H2).
  left. cbn. by left.
Defined.

(** ** Forward-link collection, in closed form *)

Lemma collect_closed_form (produced : Z) (sink : list OrderSpanContext) :
  forall collected,
    collect produced collected sink =
    collected ++ take (Z.to_nat produced - length collected)
                   (List.filter (fun sc => IsValid (Ctx sc)) sink).
Proof.
  induction sink as [|sc sink IH]; intros collected.
  - cbn. by rewrite take_nil, app_nil_r.
  - cbn [collect List.filter].
    destruct (Z.ltb_spec (Z.of_nat (length collected)) produced) as [Hlt|Hge].
    + rewrite IH. destruct (IsValid (Ctx sc)); [|done].
      rewrite length_app. cbn [length].
      replace (Z.to_nat produced - length collected)
        with (S (Z.to_nat produced - (length collected + 1))) by lia.
      cbn [take]. by rewrite <- app_assoc.
    + replace (Z.to_nat produced - length collected) with 0 by lia.
      cbn. by rewrite app_nil_r.
Qed.

(** X8. The collection loop of [runForwardSingleBatch] keeps the first
    [produced] records of the sink that carry a valid SpanContext, in
    the order of arrival: records with an invalid SpanContext are dropped
    without being counted, at most [produced] records are kept (none when
    [produced] is not positive), and a sink that runs dry before that
    leaves the loop with what has arrived. *)
Theorem collect_first_valid (produced : Z) (sink : list OrderSpanContext) :
  collect produced [] sink =
    take (Z.to_nat produced) (List.filter (fun sc => IsValid (Ctx sc)) sink) /\
  (Z.of_nat (length (collect produced [] sink)) <= Z.max 0 produced)%Z /\
  length (collect produced [] sink) <= length sink.
Proof.
  rewrite collect_closed_form. cbn [app length]. rewrite Nat.sub_0_r.
  split; [reflexivity|]. rewrite length_take. split; [lia|].
  pose proof (filter_length_le (fun sc => IsValid (Ctx sc)) sink) as H.
  change (length (List.filter (fun sc => IsValid (Ctx sc)) sink) <= length sink) in H.
  lia.
Qed.

(** ** What a batch leaves behind *)

Import Batch.

Lemma idgen_End (h : nat) (W : World) : idgen (End h W) = idgen W.
Proof. reflexivity. Qed.

Lemma Start_exact (W : World) (ctx : Context) (name : string) (kind : SpanKind)
    (attrs : list KeyValue) :
  Start W ctx name kind attrs [] =
    (record (EvStart (length (spans W)))
       (setSpans W (spans W ++
          [mkSpanData name kind (childContext (idgen W) ctx (length (spans W))) ctx attrs
             [] [] [] None 0])),
     childContext (idgen W) ctx (length (spans W)),
     length (spans W)).
Proof. reflexivity. Qed.

Lemma alter_last {A : Type} (f : A -> A) (l : list A) (x : A) :
  alter f (length l) (l ++ [x]) = l ++ [f x].
Proof.
  pose proof (alter_app_r f l [x] 0) as H. rewrite Nat.add_0_r in H. exact H.
Qed.

Lemma drop_drain {A : Type} (d : nat) (buf rest : list A) :
  drop d buf ++ rest = drop (d `min` length buf) (buf ++ rest).
Proof.
  rewrite drop_app_le by lia. f_equal.
  destruct (Nat.le_gt_cases d (length buf)) as [Hle|Hgt].
  - by rewrite Nat.min_l.
  - rewrite Nat.min_r by lia. by rewrite !drop_ge by lia.
Qed.

Section BatchLoop.

Variable env : Env.
Variable bctx : Context.
Variable keepOpen : bool.

Lemma totalDrained_S (i n : nat) :
  totalDrained env i (S n) = drained (sched env i) + totalDrained env (S i) n.
Proof. reflexivity. Qed.

(** The loop of [publishInternal], exactly: the spans it appends, the
    count, the registry and the channel. *)
Lemma publishLoop_exact (n : nat) : forall (i : nat) (st st' : LoopState),
  publishLoop env bctx keepOpen n i st = Returns st' ->
  let L := length (spans (lsWorld st)) in
  let gen := idgen (lsWorld st) in
  let sent := sentItems env L i n in
  idgen (lsWorld st') = gen /\
  spans (lsWorld st') =
    spans (lsWorld st) ++
    map (fun j => itemRecord env keepOpen gen bctx (L + j) (i + j)) (seq 0 n) /\
  lsPublished st' = (lsPublished st + Z.of_nat (length sent))%Z /\
  lsOrderSpans st' = register env (lsOrderSpans st) sent /\
  chCap (messages (lsQueue st')) = chCap (messages (lsQueue st)) /\
  exists k, k <= totalDrained env i n /\
    chBuf (messages (lsQueue st')) =
      drop k (chBuf (messages (lsQueue st)) ++ map (itemMessage env gen bctx) sent).
Proof.
  induction n as [|n IH]; intros i st st' Hrun L gen sent.
  - injection Hrun as <-. subst sent. cbn.
    rewrite app_nil_r, Z.add_0_r. repeat split.
    exists 0. split; [lia|]. by rewrite app_nil_r.
  - cbn [publishLoop] in Hrun. rewrite Start_exact in Hrun.
    fold L gen in Hrun.
    set (s0 := mkSpanData _ _ _ _ _ _ _ _ _ _) in Hrun.
    set (W1 := record _ _) in Hrun.
    assert (HW1 : spans W1 = spans (lsWorld st) ++ [s0]) by reflexivity.
    unfold Publish, drain in Hrun. cbn [messages chBuf chCap] in Hrun.
    rewrite totalDrained_S. subst sent. cbn [sentItems].
    set (d := drained (sched env i)) in *.
    set (buf := chBuf (messages (lsQueue st))) in *.
    assert (Hseq : map (fun j => itemRecord env keepOpen gen bctx (L + j) (i + j)) (seq 0 (S n))
              = itemRecord env keepOpen gen bctx L i ::
                map (fun j => itemRecord env keepOpen gen bctx (S L + j) (S i + j)) (seq 0 n)).
    { cbn [seq map]. rewrite !Nat.add_0_r. f_equal.
      rewrite <- fmap_S_seq, <- list_fmap_compose. apply map_ext. intros j. cbn.
      by replace (L + S j) with (S (L + j)) by lia;
         replace (i + S j) with (S (i + j)) by lia. }
    rewrite Hseq. clear Hseq.
    unfold itemRecord at 1. unfold itemEnds at 1.
    destruct (fired (sched env i)) eqn:Hfired.
    + destruct (_ <? _)%nat in Hrun; [|discriminate].
      cbn [obind] in Hrun. apply IH in Hrun.
      cbn [lsWorld lsQueue lsPublished lsOrderSpans messages chBuf chCap] in Hrun.
      assert (HW2 : spans (if keepOpen then W1 else End L W1)
                = spans (lsWorld st) ++ [if keepOpen then s0 else ended s0]).
      { destruct keepOpen; [exact HW1|].
        rewrite spans_End, HW1. apply alter_last. }
      assert (Hgen : idgen (if keepOpen then W1 else End L W1) = gen)
        by (by destruct keepOpen).
      rewrite HW2, Hgen, length_app in Hrun. cbn [length] in Hrun.
      replace (length (spans (lsWorld st)) + 1) with (S L) in Hrun by (subst L; lia).
      destruct Hrun as (Hg & Hs & Hp & Hm & Hc & k & Hk & Hb).
      refine (conj Hg (conj _ (conj _ (conj Hm (conj Hc _))))).
      * rewrite Hs, <- app_assoc. cbn [app]. do 2 f_equal.
        subst s0. by destruct keepOpen.
      * rewrite Hp. cbn [length]. lia.
      * exists (d `min` length buf + k). split; [lia|].
        rewrite Hb. cbn [map]. unfold itemMessage at 2. cbn [fst snd].
        rewrite <- app_assoc. cbn [app].
        rewrite (drop_drain d buf), drop_drop. done.
    + cbn [obind] in Hrun. apply IH in Hrun.
      cbn [lsWorld lsQueue lsPublished lsOrderSpans messages chBuf chCap] in Hrun.
      assert (HW2 : spans (End L (RecordError L (Some ErrCanceled) W1))
                = spans (lsWorld st) ++ [ended (withError ErrCanceled s0)]).
      { rewrite spans_End, spans_RecordError, HW1.
        subst L. by rewrite !alter_last. }
      assert (Hgen : idgen (End L (RecordError L (Some ErrCanceled) W1)) = gen)
        by reflexivity.
      rewrite HW2, Hgen, length_app in Hrun. cbn [length] in Hrun.
      replace (length (spans (lsWorld st)) + 1) with (S L) in Hrun by (subst L; lia).
      destruct Hrun as (Hg & Hs & Hp & Hm & Hc & k & Hk & Hb).
      refine (conj Hg (conj _ (conj Hp (conj Hm (conj Hc _))))).
      * rewrite Hs, <- app_assoc. cbn [app]. do 2 f_equal.
      * exists (d `min` length buf + k). split; [lia|].
        rewrite Hb. rewrite (drop_drain d buf), drop_drop. done.
Qed.

End BatchLoop.

Lemma alter_middle {A : Type} (f : A -> A) (l r : list A) (x : A) :
  alter f (length l) (l ++ x :: r) = l ++ f x :: r.
Proof.
  pose proof (alter_app_r f l (x :: r) 0) as H. rewrite Nat.add_0_r in H. exact H.
Qed.

Lemma iter_ended_fields (c : nat) (s : SpanData) :
  spName (Nat.iter c ended s) = spName s /\
  spKind (Nat.iter c ended s) = spKind s /\
  spContext (Nat.iter c ended s) = spContext s /\
  spParent (Nat.iter c ended s) = spParent s /\
  spAttributes (Nat.iter c ended s) = spAttributes s /\
  spLinks (Nat.iter c ended s) = spLinks s /\
  spErrors (Nat.iter c ended s) = spErrors s /\
  spEvents (Nat.iter c ended s) = spEvents s /\
  spStatus (Nat.iter c ended s) = spStatus s /\
  spEndCalls (Nat.iter c ended s) = c + spEndCalls s.
Proof.
  induction c as [|c IH]; [done|].
  change (Nat.iter (S c) ended s) with (ended (Nat.iter c ended s)).
  set (x := Nat.iter c ended s) in *. clearbody x.
  destruct IH as (?&?&?&?&?&?&?&?&?&?).
  destruct x. cbn in *. repeat split; try done. by f_equal.
Qed.

(** [endAll] on a registry without nil entries returns; it only adds
    [End] calls, and none to a span that the registry does not hold. *)
Lemma endAll_iter (m : gmap string (option nat)) (W : World) :
  (forall k, m !! k <> Some None) ->
  exists W',
    endAll m W = Returns W' /\
    idgen W' = idgen W /\
    length (spans W') = length (spans W) /\
    forall h, exists c,
      spans W' !! h = Nat.iter c ended <$> spans W !! h /\
      ((forall k, m !! k <> Some (Some h)) -> c = 0).
Proof.
  unfold endAll.
  apply (map_fold_weak_ind
    (fun (res : Outcome World) (m : gmap string (option nat)) =>
       (forall k, m !! k <> Some None) ->
       exists W',
         res = Returns W' /\
         idgen W' = idgen W /\
         length (spans W') = length (spans W) /\
         forall h, exists c,
           spans W' !! h = Nat.iter c ended <$> spans W !! h /\
           ((forall k, m !! k <> Some (Some h)) -> c = 0))).
  - intros _. exists W. repeat split. intros h. exists 0. split; [|done].
    cbn. by destruct (spans W !! h).
  - intros i x m0 r Hi IH Hnonil.
    assert (Hnonil0 : forall k, m0 !! k <> Some None).
    { intros k Hk. apply (Hnonil k). rewrite lookup_insert_ne; [done|congruence]. }
    destruct (IH Hnonil0) as (W1 & -> & Hgen & Hlen & Hit).
    cbn [obind].
    destruct x as [p|]; [|by specialize (Hnonil i); rewrite lookup_insert_eq in Hnonil].
    exists (End p W1). split; [reflexivity|]. split; [by rewrite idgen_End|].
    split; [by rewrite length_spans_End|].
    intros h. destruct (Hit h) as (c & Hc & Hzero).
    destruct (decide (p = h)) as [->|Hne].
    + exists (S c). split.
      * rewrite lookup_End_eq, Hc. by destruct (spans W !! h).
      * intros Hh. exfalso. apply (Hh i). by rewrite lookup_insert_eq.
    + exists c. split.
      * by rewrite lookup_End_ne.
      * intros Hh. apply Hzero. intros k Hk. apply (Hh k).
        rewrite lookup_insert_ne; [done|congruence].
Qed.

Lemma sentItems_In (env : Env) (n : nat) : forall (L i h i' : nat),
  In (h, i') (sentItems env L i n) <->
  exists j, j < n /\ h = L + j /\ i' = i + j /\ fired (sched env (i + j)) = ChanReady.
Proof.
  induction n as [|n IH]; intros L i h i'.
  - cbn. split; [done|]. intros (j & Hj & _). lia.
  - cbn [sentItems].
    assert (Hrec : In (h, i') (sentItems env (S L) (S i) n) <->
              exists j, 0 < j < S n /\ h = L + j /\ i' = i + j /\
                        fired (sched env (i + j)) = ChanReady).
    { rewrite IH. split.
      - intros (j & Hj & -> & -> & Hf). exists (S j).
        replace (i + S j) with (S i + j) by lia. repeat split; [lia..|done].
      - intros ([|j] & Hj & -> & -> & Hf); [lia|]. exists j.
        replace (S i + j) with (i + S j) by lia. repeat split; [lia..|done]. }
    destruct (fired (sched env i)) eqn:Hf.
    + cbn [In]. rewrite Hrec. split.
      * intros [[= <- <-]|(j & Hj & Hrest)].
        -- exists 0. rewrite !Nat.add_0_r. repeat split; [lia|done].
        -- exists j. split; [lia|done].
      * intros ([|j] & Hj & -> & -> & Hfj).
        -- left. by rewrite !Nat.add_0_r.
        -- right. exists (S j). repeat split; [lia..|done].
    + rewrite Hrec. split.
      * intros (j & Hj & Hrest). exists j. split; [lia|done].
      * intros ([|j] & Hj & -> & -> & Hfj).
        -- rewrite Nat.add_0_r in Hfj. congruence.
        -- exists (S j). repeat split; [lia..|done].
Qed.

Lemma length_sentItems (env : Env) (n : nat) : forall (L i : nat),
  length (sentItems env L i n) <= n.
Proof.
  induction n as [|n IH]; intros L i; [done|].
  cbn [sentItems]. specialize (IH (S L) (S i)).
  destruct (fired (sched env i)); cbn [length]; lia.
Qed.

Lemma register_lookup (env : Env) (sent : list (nat * nat)) :
  forall (m : gmap string (option nat)) (k : string) (v : option nat),
    register env m sent !! k = Some v ->
    m !! k = Some v \/
    exists hi, In hi sent /\ k = ID (newOrder env (snd hi)) /\ v = Some (fst hi).
Proof.
  induction sent as [|hi sent IH]; intros m k v Hk; [by left|].
  cbn [register fold_left] in Hk. apply IH in Hk as [Hk|(hi' & Hin & Hk & Hv)].
  - destruct (decide (ID (newOrder env (snd hi)) = k)) as [<-|Hne].
    + rewrite lookup_insert_eq in Hk. injection Hk as <-.
      right. exists hi. split; [by left|done].
    + rewrite lookup_insert_ne in Hk by done. by left.
  - right. exists hi'. split; [by right|done].
Qed.

Section BatchExact.

Variable env : Env.

(** [publishInternal] when it returns from a positive count, exactly. *)
Lemma publishInternal_exact (st st1 : ProducerState) (ctx : Context) (count : Z)
    (keepOpen : bool) (r : BatchResult) :
  (0 < count)%Z ->
  publishInternal env st ctx count keepOpen = Returns (st1, r) ->
  let b := length (spans (world st)) in
  let n := Z.to_nat count in
  let gen := idgen (world st) in
  let bctx := childContext gen ctx b in
  let sent := sentItems env (b + 1) 0 n in
  resSpan r = Some b /\
  resOrderSpans r = register env ∅ sent /\
  resCount r = Z.of_nat (length sent) /\
  (resErr r = None <-> sent <> []) /\
  idgen (world st1) = gen /\
  length (spans (world st1)) = b + 1 + n /\
  (forall h, h < b -> spans (world st1) !! h = spans (world st) !! h) /\
  (exists sb,
     spans (world st1) !! b = Some sb /\
     spName sb = "PublishOrderBatch" /\ spKind sb = SpanKindProducer /\
     spContext sb = bctx /\ spParent sb = ctx /\
     spAttributes sb = batchAttrs count /\ spLinks sb = [] /\
     spEndCalls sb = (if keepOpen then 0 else 1)) /\
  (forall j, j < n ->
     exists c,
       spans (world st1) !! (b + 1 + j)
         = Some (Nat.iter c ended (itemRecord env keepOpen gen bctx (b + 1 + j) j)) /\
       (fired (sched env j) = CtxDone -> c = 0) /\
       (keepOpen = true -> c = 0)) /\
  chCap (messages (queue st1)) = chCap (messages (queue st)) /\
  exists k, k <= totalDrained env 0 n /\
    chBuf (messages (queue st1)) =
      drop k (chBuf (messages (queue st)) ++ map (itemMessage env gen bctx) sent).
Proof.
  intros Hpos Hpub b n gen bctx sent.
  unfold publishInternal in Hpub.
  destruct (Z.leb_spec count 0) as [|_]; [lia|].
  rewrite Start_exact in Hpub. fold b gen bctx n in Hpub.
  set (sb0 := mkSpanData _ _ _ _ _ _ _ _ _ _) in Hpub.
  set (W0 := record _ _) in Hpub.
  destruct (Producer.publishLoop env bctx keepOpen n 0 _) as [ls| | |] eqn:Hloop;
    try discriminate Hpub.
  cbn [obind] in Hpub.
  apply publishLoop_exact in Hloop.
  cbn [Producer.lsWorld Producer.lsQueue Producer.lsPublished Producer.lsOrderSpans] in Hloop.
  assert (HW0 : spans W0 = spans (world st) ++ [sb0]) by reflexivity.
  assert (HL : length (spans W0) = b + 1).
  { rewrite HW0, length_app. cbn. subst b. lia. }
  assert (Hg0 : idgen W0 = gen) by reflexivity.
  rewrite HL, Hg0, HW0 in Hloop. fold sent in Hloop.
  destruct Hloop as (Hg & Hs & Hp & Hm & Hcap & Hq).
  rewrite Z.add_0_l in Hp. cbn [Nat.add] in Hs.
  set (items := map (fun j => itemRecord env keepOpen gen bctx (b + 1 + j) j) (seq 0 n)) in *.
  rewrite <- app_assoc in Hs. cbn [app] in Hs.
  assert (Hitem : forall j, j < n ->
            items !! j = Some (itemRecord env keepOpen gen bctx (b + 1 + j) j)).
  { intros j Hj. subst items. rewrite list_lookup_fmap, lookup_seq_lt by done. done. }
  assert (Hvals : forall k h, Producer.lsOrderSpans ls !! k = Some (Some h) ->
            exists j, j < n /\ h = b + 1 + j /\ fired (sched env j) = ChanReady).
  { intros k h Hk. rewrite Hm in Hk.
    apply register_lookup in Hk as [Hk|([h' i'] & Hin & _ & [= ->])];
      [by rewrite lookup_empty in Hk|].
    apply sentItems_In in Hin as (j & Hj & -> & -> & Hf). cbn. by exists j. }
  assert (Hnonil : forall k, Producer.lsOrderSpans ls !! k <> Some None).
  { intros k Hk. rewrite Hm in Hk.
    apply register_lookup in Hk as [Hk|(hi & _ & _ & [=])].
    by rewrite lookup_empty in Hk. }
  (* the store before the registered spans are ended *)
  assert (Hfinal : forall (f : SpanData -> SpanData) (W1 : World),
    spans W1 = spans (world st) ++ f sb0 :: items ->
    idgen W1 = gen ->
    (forall s, spName (f s) = spName s /\ spKind (f s) = spKind s /\
               spContext (f s) = spContext s /\ spParent (f s) = spParent s /\
               spAttributes (f s) = spAttributes s /\ spLinks (f s) = spLinks s) ->
    spEndCalls (f sb0) = (if keepOpen then 0 else 1) ->
    forall W2,
      (if keepOpen then Returns W1 else endAll (Producer.lsOrderSpans ls) W1) = Returns W2 \/
      (W2 = W1 /\ sent = []) ->
      idgen W2 = gen /\
      length (spans W2) = b + 1 + n /\
      (forall h, h < b -> spans W2 !! h = spans (world st) !! h) /\
      (exists sb,
         spans W2 !! b = Some sb /\
         spName sb = "PublishOrderBatch" /\ spKind sb = SpanKindProducer /\
         spContext sb = bctx /\ spParent sb = ctx /\
         spAttributes sb = batchAttrs count /\ spLinks sb = [] /\
         spEndCalls sb = (if keepOpen then 0 else 1)) /\
      (forall j, j < n ->
         exists c,
           spans W2 !! (b + 1 + j)
             = Some (Nat.iter c ended (itemRecord env keepOpen gen bctx (b + 1 + j) j)) /\
           (fired (sched env j) = CtxDone -> c = 0) /\
           (keepOpen = true -> c = 0))).
  { intros f W1 HW1 Hg1 Hf He W2 HW2.
    assert (Hlen1 : length (spans W1) = b + 1 + n).
    { rewrite HW1, length_app. cbn [length]. subst items.
      rewrite length_map, length_seq. subst b. lia. }
    assert (Hlow1 : forall h, h < b -> spans W1 !! h = spans (world st) !! h).
    { intros h Hh. rewrite HW1. by apply lookup_app_l. }
    assert (Hb1 : spans W1 !! b = Some (f sb0)).
    { rewrite HW1. by rewrite list_lookup_middle. }
    assert (Hi1 : forall j, j < n -> spans W1 !! (b + 1 + j)
                = Some (itemRecord env keepOpen gen bctx (b + 1 + j) j)).
    { intros j Hj. rewrite HW1.
      rewrite lookup_app_r by (subst b; lia).
      replace (b + 1 + j - length (spans (world st))) with (S j) by (subst b; lia).
      cbn [lookup list_lookup]. by apply Hitem. }
    assert (Hiter : idgen W2 = gen /\ length (spans W2) = b + 1 + n /\
              forall h, exists c,
                spans W2 !! h = Nat.iter c ended <$> spans W1 !! h /\
                ((forall k, Producer.lsOrderSpans ls !! k <> Some (Some h)) -> c = 0) /\
                (keepOpen = true -> c = 0)).
    { assert (Hsame : W2 = W1 ->
                idgen W2 = gen /\ length (spans W2) = b + 1 + n /\
                forall h, exists c,
                  spans W2 !! h = Nat.iter c ended <$> spans W1 !! h /\
                  ((forall k, Producer.lsOrderSpans ls !! k <> Some (Some h)) -> c = 0) /\
                  (keepOpen = true -> c = 0)).
      { intros ->. refine (conj Hg1 (conj Hlen1 _)). intros h. exists 0.
        split; [|done]. cbn. by destruct (spans W1 !! h). }
      destruct HW2 as [HW2|[-> _]]; [|by apply Hsame].
      destruct keepOpen.
      - injection HW2 as <-. by apply Hsame.
      - destruct (endAll_iter _ W1 Hnonil) as (W' & HW' & Hg' & Hl' & Hit').
        rewrite HW' in HW2. injection HW2 as <-.
        refine (conj _ (conj _ _)); [congruence|congruence|].
        intros h. destruct (Hit' h) as (c & Hc1 & Hc2). exists c.
        refine (conj Hc1 (conj Hc2 _)). discriminate. }
    destruct Hiter as (Hg2 & Hlen2 & Hit).
    refine (conj Hg2 (conj Hlen2 (conj _ (conj _ _)))).
    - intros h Hh. destruct (Hit h) as (c & Hc & Hz & _).
      rewrite Hc, Hlow1 by done.
      rewrite Hz; [by destruct (spans (world st) !! h)|].
      intros k Hk. apply Hvals in Hk as (j & _ & -> & _). lia.
    - destruct (Hit b) as (c & Hc & Hz & _).
      rewrite Hz in Hc.
      2:{ intros k Hk. apply Hvals in Hk as (j & _ & Hj & _). lia. }
      rewrite Hb1 in Hc. cbn in Hc.
      exists (f sb0). split; [exact Hc|].
      destruct (Hf sb0) as (-> & -> & -> & -> & -> & ->). by subst sb0.
    - intros j Hj. destruct (Hit (b + 1 + j)) as (c & Hc & Hz & Ho).
      exists c. rewrite Hc, Hi1 by done. split; [done|]. split; [|exact Ho].
      intros Hf'. apply Hz. intros k Hk.
      apply Hvals in Hk as (j' & _ & Hj' & Hfj).
      assert (j' = j) by lia. subst j'. congruence. }
  destruct (Z.eqb_spec (Producer.lsPublished ls) 0) as [Hzero|Hnz].
  - injection Hpub as <- <-. cbn [resSpan resOrderSpans resCount resErr world queue].
    assert (Hnil : sent = []).
    { destruct sent; [done|]. cbn [length] in Hp. lia. }
    split; [done|]. split; [by rewrite Hm|]. split; [by rewrite Hnil|].
    split; [by rewrite Hnil|].
    set (W1 := RecordError b (Producer.lsLastErr ls) (Producer.lsWorld ls)).
    set (f := fun s => (if keepOpen then (fun x => x) else ended)
                         (match Producer.lsLastErr ls with
                          | Some e => withError e s
                          | None => s
                          end)).
    assert (HW1 : spans (if keepOpen then W1 else End b W1)
              = spans (world st) ++ f sb0 :: items).
    { subst W1 f. destruct (Producer.lsLastErr ls) as [e|]; destruct keepOpen;
        rewrite ?spans_End, ?spans_RecordError; cbn [RecordError]; rewrite Hs;
        subst b; by rewrite ?alter_middle. }
    assert (Hg1 : idgen (if keepOpen then W1 else End b W1) = gen).
    { subst W1. destruct keepOpen, (Producer.lsLastErr ls); exact Hg. }
    assert (Hf : forall s, spName (f s) = spName s /\ spKind (f s) = spKind s /\
               spContext (f s) = spContext s /\ spParent (f s) = spParent s /\
               spAttributes (f s) = spAttributes s /\ spLinks (f s) = spLinks s).
    { intros s. subst f. destruct keepOpen, (Producer.lsLastErr ls);
        unfold withError; try destruct (isRecording s); done. }
    assert (He : spEndCalls (f sb0) = (if keepOpen then 0 else 1)).
    { subst f. destruct keepOpen, (Producer.lsLastErr ls); done. }
    destruct (Hfinal f _ HW1 Hg1 Hf He _ (or_intror (conj eq_refl Hnil)))
      as (H1 & H2 & H3 & H4 & H5).
    exact (conj H1 (conj H2 (conj H3 (conj H4 (conj H5 (conj Hcap Hq)))))).
  - destruct (if keepOpen then _ else _) as [W2| | |] eqn:HW2; try discriminate Hpub.
    cbn [obind] in Hpub.
    injection Hpub as <- <-. cbn [resSpan resOrderSpans resCount resErr world queue].
    assert (Hne : sent <> []).
    { intros E. rewrite E in Hp. cbn in Hp. lia. }
    split; [done|]. split; [by rewrite Hm|]. split; [exact Hp|].
    split; [done|].
    set (W1 := AddEvent b "Batch published" _ (Producer.lsWorld ls)) in HW2.
    set (f := fun s => (if keepOpen then (fun x => x) else ended)
                         (withEvent "Batch published"
                            [("published.count", AInt (Producer.lsPublished ls));
                             ("total.count", AInt count)] s)).
    assert (HW1 : spans (if keepOpen then W1 else End b W1)
              = spans (world st) ++ f sb0 :: items).
    { subst W1 f. destruct keepOpen; rewrite ?spans_End, spans_AddEvent, Hs;
        subst b; by rewrite ?alter_middle. }
    assert (Hg1 : idgen (if keepOpen then W1 else End b W1) = gen).
    { subst W1. destruct keepOpen; exact Hg. }
    assert (Hf : forall s, spName (f s) = spName s /\ spKind (f s) = spKind s /\
               spContext (f s) = spContext s /\ spParent (f s) = spParent s /\
               spAttributes (f s) = spAttributes s /\ spLinks (f s) = spLinks s).
    { intros s. subst f. destruct keepOpen; unfold withEvent;
        destruct (isRecording s); done. }
    assert (He : spEndCalls (f sb0) = (if keepOpen then 0 else 1)).
    { subst f. destruct keepOpen; done. }
    assert (HW2' : (if keepOpen then Returns (if keepOpen then W1 else End b W1)
                    else endAll (Producer.lsOrderSpans ls) (if keepOpen then W1 else End b W1))
                   = Returns W2).
    { destruct keepOpen; exact HW2. }
    destruct (Hfinal f _ HW1 Hg1 Hf He W2 (or_introl HW2'))
      as (H1 & H2 & H3 & H4 & H5).
    exact (conj H1 (conj H2 (conj H3 (conj H4 (conj H5 (conj Hcap Hq)))))).
Qed.

End BatchExact.

Lemma size_register (env : Env) (sent : list (nat * nat)) :
  forall m : gmap string (option nat), size (register env m sent) <= size m + length sent.
Proof.
  induction sent as [|hi sent IH]; intros m; [cbn; lia|].
  cbn [register fold_left length]. etrans; [apply IH|].
  rewrite map_size_insert. destruct (m !! _); cbn; lia.
Qed.

Lemma childContext_valid (gen : nat -> TraceID * SpanID) (parent : Context) (h : nat) :
  validIDs gen -> IsValid (childContext gen parent h) = true.
Proof.
  intros Hgen. destruct (Hgen h) as [Ht Hs].
  unfold IsValid at 1. unfold childContext. cbn [TraceID_of SpanID_of].
  rewrite Hs, andb_true_r.
  destruct (IsValid parent) eqn:Hp; [|exact Ht].
  unfold IsValid in Hp. by apply andb_true_iff in Hp as [? _].
Qed.



(** X9. The accounting of a batch. When [publishInternal] returns from a
    positive count, the count it reports is the number of items whose
    send went through, between 0 and the batch size; the error is nil as
    soon as one item was published, whatever happened to the others. The
    registry holds published items only, each under its message identity
    with the handle of its own span and never a nil span, and it has at
    most as many entries as items were published. *)
Theorem batch_accounting (env : Env) (st st1 : ProducerState) (ctx : Context) (count : Z)
    (keepOpen : bool) (r : BatchResult) :
  (0 < count)%Z ->
  publishInternal env st ctx count keepOpen = Returns (st1, r) ->
  let b := length (spans (world st)) in
  let n := Z.to_nat count in
  let sent := sentItems env (b + 1) 0 n in
  resSpan r = Some b /\
  resCount r = Z.of_nat (length sent) /\
  (0 <= resCount r <= count)%Z /\
  (resErr r = None <-> exists j, j < n /\ fired (sched env j) = ChanReady) /\
  (resErr r = None <-> (0 < resCount r)%Z) /\
  (forall k v, resOrderSpans r !! k = Some v ->
     exists j, j < n /\ fired (sched env j) = ChanReady /\
               k = ID (newOrder env j) /\ v = Some (b + 1 + j)) /\
  (Z.of_nat (size (resOrderSpans r)) <= resCount r)%Z.
Proof.
  intros Hpos Hpub b n sent.
  destruct (publishInternal_exact env st st1 ctx count keepOpen r Hpos Hpub)
    as (Hspan & Hreg & Hcount & Herr & _).
  fold b n sent in Hreg, Hcount, Herr.
  pose proof (length_sentItems env n (b + 1) 0) as Hlen. fold sent in Hlen.
  assert (Hsome : sent <> [] <-> exists j, j < n /\ fired (sched env j) = ChanReady).
  { split.
    - intros Hne. destruct sent as [|[h i] rest] eqn:E; [done|].
      assert (Hin : In (h, i) sent) by (rewrite E; by left).
      apply sentItems_In in Hin as (j & Hj & _ & _ & Hf). by exists j.
    - intros (j & Hj & Hf) E.
      assert (Hin : In (b + 1 + j, 0 + j) sent).
      { apply sentItems_In. by exists j. }
      by rewrite E in Hin. }
  refine (conj Hspan (conj Hcount (conj _ (conj _ (conj _ (conj _ _)))))).
  - rewrite Hcount. subst n. lia.
  - by rewrite Herr.
  - rewrite Herr, Hcount. destruct sent; cbn [length]; [split; [done|lia]|split; [lia|done]].
  - intros k v Hk. rewrite Hreg in Hk.
    apply register_lookup in Hk as [Hk|([h i] & Hin & -> & ->)];
      [by rewrite lookup_empty in Hk|].
    apply sentItems_In in Hin as (j & Hj & -> & -> & Hf). exists j. by cbn.
  - rewrite Hreg, Hcount. pose proof (size_register env sent ∅) as Hsz.
    rewrite map_size_empty in Hsz. lia.
Qed.

Lemma batch_accounting_witness :
  let env := mkEnv (fun i => pretty i) (fun _ => 0%Z)
               (fun i => mkSched 0 (if Nat.eqb i 1 then CtxDone else ChanReady)) in
  (0 < 3)%Z /\
  exists st1 r,
    publishInternal env Sample.state0 Background 3 false = Returns (st1, r) /\
    resCount r = 2%Z /\
    resErr r = None /\
    sentItems env 1 0 3 = [(1, 0); (3, 2)].
Proof.
  intros env.
  split; [lia|].
  destruct (publishInternal env Sample.state0 Background 3 false)
    as [[st1 r]| | |] eqn:Hpub; try (vm_compute in Hpub; discriminate Hpub).
  exists st1, r. split; [reflexivity|].
  destruct (batch_accounting env Sample.state0 st1 Background 3 false r
              ltac:(lia) Hpub) as (_ & Hcount & _ & Herr & _).
  split; [exact Hcount|]. split; [|reflexivity].
  apply Herr. exists 0. split; [cbn; lia|reflexivity].
Defined.

Lemma publishLoop_progress (env : Env) (bctx : Context) (keepOpen : bool) (n : nat) :
  forall (i : nat) (st : Producer.LoopState),
    (Producer.publishLoop env bctx keepOpen n i st = Blocks \/
     exists st', Producer.publishLoop env bctx keepOpen n i st = Returns st') /\
    (Length (Producer.lsQueue st) + n <= chCap (messages (Producer.lsQueue st)) ->
     exists st', Producer.publishLoop env bctx keepOpen n i st = Returns st').
Proof.
  induction n as [|n IH]; intros i st.
  - cbn. split; [right|intros _]; by eexists.
  - cbn [Producer.publishLoop]. rewrite Start_exact.
    unfold Publish, drain, Length. cbn [messages chBuf chCap].
    destruct (fired (sched env i)).
    + destruct (Nat.ltb_spec (length (drop (drained (sched env i))
                                 (chBuf (messages (Producer.lsQueue st)))))
                  (chCap (messages (Producer.lsQueue st)))) as [Hlt|Hge].
      * cbn [obind]. split; [apply IH|].
        intros Hroom. apply IH. unfold Length. cbn [Producer.lsQueue messages chBuf chCap].
        rewrite length_app, length_drop. cbn [length]. lia.
      * cbn [obind]. split; [by left|].
        intros Hroom. rewrite length_drop in Hge. lia.
    + cbn [obind]. split; [apply IH|].
      intros Hroom. apply IH. unfold Length. cbn [Producer.lsQueue messages chBuf chCap].
      rewrite length_drop. lia.
Qed.

(** X10. A batch never panics and never leaves the process: whatever the
    count, the schedule and the mode, [publishInternal] and
    [PublishOrderBatch] return or block on a full queue; in particular no
    nil span is ended and [PublishOrderBatch] never asks a nil batch span
    for its SpanContext. When the queue has room for the whole batch, both
    return. *)
Theorem batch_returns_or_blocks (env : Env) (st : ProducerState) (ctx : Context) (count : Z) :
  (forall keepOpen,
     publishInternal env st ctx count keepOpen = Blocks \/
     exists st1 r, publishInternal env st ctx count keepOpen = Returns (st1, r)) /\
  (PublishOrderBatch env st ctx count = Blocks \/
   exists st1 res, PublishOrderBatch env st ctx count = Returns (st1, res)) /\
  (Length (queue st) + Z.to_nat count <= chCap (messages (queue st)) ->
   (forall keepOpen, exists st1 r,
      publishInternal env st ctx count keepOpen = Returns (st1, r)) /\
   exists st1 res, PublishOrderBatch env st ctx count = Returns (st1, res)).
Proof.
  assert (Hint : forall keepOpen,
    (publishInternal env st ctx count keepOpen = Blocks \/
     exists st1 r, publishInternal env st ctx count keepOpen = Returns (st1, r)) /\
    (Length (queue st) + Z.to_nat count <= chCap (messages (queue st)) ->
     exists st1 r, publishInternal env st ctx count keepOpen = Returns (st1, r))).
  { intros keepOpen. unfold publishInternal.
    destruct (count <=? 0)%Z; [split; [right|intros _]; by do 2 eexists|].
    rewrite Start_exact.
    set (bctx := childContext _ _ _). set (W0 := record _ _).
    destruct (publishLoop_progress env bctx keepOpen (Z.to_nat count) 0
                (Producer.mkLoop W0 (queue st) 0 ∅ None)) as [Hany Hroom].
    cbn [Producer.lsQueue] in Hroom.
    assert (Hret : forall ls,
      Producer.publishLoop env bctx keepOpen (Z.to_nat count) 0
        (Producer.mkLoop W0 (queue st) 0 ∅ None) = Returns ls ->
      exists st1 r,
        (do ls <- Returns ls ;
         if (Producer.lsPublished ls =? 0)%Z
         then Returns (mkState
                (if keepOpen
                 then RecordError (length (spans (world st))) (Producer.lsLastErr ls)
                        (Producer.lsWorld ls)
                 else End (length (spans (world st)))
                        (RecordError (length (spans (world st))) (Producer.lsLastErr ls)
                           (Producer.lsWorld ls)))
                (Producer.lsQueue ls),
              mkResult (Some (length (spans (world st)))) (Producer.lsOrderSpans ls) 0
                (Some (Errorf "failed to publish any orders" (Producer.lsLastErr ls))))
         else
           do W2 <- (if keepOpen
                     then Returns (AddEvent (length (spans (world st))) "Batch published"
                            [("published.count", AInt (Producer.lsPublished ls));
                             ("total.count", AInt count)] (Producer.lsWorld ls))
                     else endAll (Producer.lsOrderSpans ls)
                            (End (length (spans (world st)))
                               (AddEvent (length (spans (world st))) "Batch published"
                                  [("published.count", AInt (Producer.lsPublished ls));
                                   ("total.count", AInt count)] (Producer.lsWorld ls)))) ;
           Returns (mkState W2 (Producer.lsQueue ls),
                    mkResult (Some (length (spans (world st)))) (Producer.lsOrderSpans ls)
                      (Producer.lsPublished ls) None))
        = Returns (st1, r)).
    { intros ls Hls. cbn [obind].
      destruct (Producer.lsPublished ls =? 0)%Z; [by do 2 eexists|].
      destruct keepOpen; [by do 2 eexists|].
      apply publishLoop_exact in Hls as (_ & _ & _ & Hm & _).
      cbn [Producer.lsOrderSpans] in Hm.
      assert (Hnonil : forall k, Producer.lsOrderSpans ls !! k <> Some None).
      { intros k Hk. rewrite Hm in Hk.
        apply register_lookup in Hk as [Hk|(hi & _ & _ & [=])].
        by rewrite lookup_empty in Hk. }
      destruct (endAll_iter _ (End (length (spans (world st)))
                  (AddEvent (length (spans (world st))) "Batch published"
                     [("published.count", AInt (Producer.lsPublished ls));
                      ("total.count", AInt count)] (Producer.lsWorld ls))) Hnonil)
        as (W2 & -> & _).
      cbn [obind]. by do 2 eexists. }
    split.
    - destruct Hany as [->|[ls Hls]]; [by left|].
      right. rewrite Hls. by apply Hret.
    - intros Hr. destruct (Hroom Hr) as [ls Hls]. rewrite Hls. by apply Hret. }
  assert (Hbatch : forall st1 r,
    publishInternal env st ctx count false = Returns (st1, r) ->
    exists st1' res, PublishOrderBatch env st ctx count = Returns (st1', res)).
  { intros st1 r Hpub. unfold PublishOrderBatch. rewrite Hpub. cbn [obind].
    destruct (resErr r) as [e|] eqn:Herr; [by do 2 eexists|].
    destruct (Z.leb_spec count 0) as [Hle|Hpos].
    - unfold publishInternal in Hpub.
      destruct (Z.leb_spec count 0); [|lia].
      injection Hpub as <- <-. discriminate Herr.
    - destruct (publishInternal_exact env st st1 ctx count false r Hpos Hpub) as (-> & _).
      by do 2 eexists. }
  split; [intros keepOpen; apply Hint|]. split.
  - destruct (proj1 (Hint false)) as [Hb|(st1 & r & Hr)].
    + left. unfold PublishOrderBatch. by rewrite Hb.
    + right. by apply (Hbatch st1 r).
  - intros Hroom. split.
    + intros keepOpen. by apply Hint.
    + destruct (proj2 (Hint false) Hroom) as (st1 & r & Hr). by apply (Hbatch st1 r).
Qed.

Lemma batch_returns_or_blocks_witness :
  Length (queue Sample.state0) + Z.to_nat 3 <= chCap (messages (queue Sample.state0)) /\
  (exists st1 r,
     publishInternal Sample.allSent Sample.state0 Background 3 true = Returns (st1, r)) /\
  publishInternal Sample.allSent (mkState Sample.world0 (mkQueue (makeChan 2))) Background 3 true
    = Blocks.
Proof.
  assert (H : Length (queue Sample.state0) + Z.to_nat 3
              <= chCap (messages (queue Sample.state0))) by (vm_compute; lia).
  split; [exact H|]. split; [|reflexivity].
  exact (proj1 (proj2 (proj2 (batch_returns_or_blocks Sample.allSent Sample.state0
                                Background 3)) H) true).
Defined.

Lemma totalDrained_zero (env : Env) (n : nat) : forall i,
  (forall j, j < n -> drained (sched env (i + j)) = 0) -> totalDrained env i n = 0.
Proof.
  induction n as [|n IH]; intros i H; [done|].
  rewrite totalDrained_S, IH.
  - specialize (H 0 ltac:(lia)). rewrite Nat.add_0_r in H. lia.
  - intros j Hj. replace (S i + j) with (i + S j) by lia. apply H. lia.
Qed.

(** The SpanContext of the span of an item after the batch. *)
Lemma item_context (env : Env) (st st1 : ProducerState) (ctx : Context) (count : Z)
    (keepOpen : bool) (r : BatchResult) :
  (0 < count)%Z ->
  publishInternal env st ctx count keepOpen = Returns (st1, r) ->
  let b := length (spans (world st)) in
  let gen := idgen (world st) in
  let bctx := childContext gen ctx b in
  SpanContextOf (world st1) b = bctx /\
  forall j, j < Z.to_nat count ->
    SpanContextOf (world st1) (b + 1 + j) = childContext gen bctx (b + 1 + j).
Proof.
  intros Hpos Hpub b gen bctx.
  destruct (publishInternal_exact env st st1 ctx count keepOpen r Hpos Hpub)
    as (_ & _ & _ & _ & _ & _ & _ & (sb & Hsb & _ & _ & Hc & _) & Hitems & _).
  fold b gen bctx in Hsb, Hc, Hitems. split.
  - unfold SpanContextOf. by rewrite Hsb.
  - intros j Hj. destruct (Hitems j Hj) as (c & Hs & _).
    unfold SpanContextOf. rewrite Hs.
    by destruct (iter_ended_fields c (itemRecord env keepOpen gen bctx (b + 1 + j) j))
      as (_ & _ & -> & _).
Qed.

(** X11. The messages of a batch. When [publishInternal] returns from a
    positive count, the capacity of the channel is unchanged and its
    buffer is what was buffered before followed by one message per
    published item, in the order of the items, less the messages that the
    workers took meanwhile from the front; with no worker taking any, it
    is exactly that. The message of an item is its order stamped with the
    SpanContext of the item's own span, so that (the tracer handing out
    valid identities) it decodes to the remote, sampled copy of that
    SpanContext. *)
Theorem batch_messages (env : Env) (st st1 : ProducerState) (ctx : Context) (count : Z)
    (keepOpen : bool) (r : BatchResult) :
  (0 < count)%Z ->
  publishInternal env st ctx count keepOpen = Returns (st1, r) ->
  let b := length (spans (world st)) in
  let n := Z.to_nat count in
  let sent := sentItems env (b + 1) 0 n in
  let msgs := map (fun hi => stamp (SpanContextOf (world st1) (fst hi)) (newOrder env (snd hi)))
                sent in
  chCap (messages (queue st1)) = chCap (messages (queue st)) /\
  (exists k, k <= totalDrained env 0 n /\
     chBuf (messages (queue st1)) = drop k (chBuf (messages (queue st)) ++ msgs)) /\
  ((forall j, j < n -> drained (sched env j) = 0) ->
     chBuf (messages (queue st1)) = chBuf (messages (queue st)) ++ msgs) /\
  (validIDs (idgen (world st)) ->
     forall hi, In hi sent ->
       let target := SpanContextOf (world st1) (fst hi) in
       IsValid target = true /\
       SpanContextFromMessage (stamp target (newOrder env (snd hi))) =
         Returns (NewSpanContext (TraceID_of target) (SpanID_of target) FlagsSampled "" true)).
Proof.
  intros Hpos Hpub b n sent msgs.
  destruct (publishInternal_exact env st st1 ctx count keepOpen r Hpos Hpub)
    as (_ & _ & _ & _ & _ & _ & _ & _ & _ & Hcap & k & Hk & Hbuf).
  destruct (item_context env st st1 ctx count keepOpen r Hpos Hpub) as [_ Hctx].
  fold b n sent in Hk, Hbuf, Hctx.
  set (gen := idgen (world st)) in *. set (bctx := childContext gen ctx b) in *.
  assert (Hmsgs : map (itemMessage env gen bctx) sent = msgs).
  { subst msgs. apply map_ext_in. intros [h i] Hin.
    apply sentItems_In in Hin as (j & Hj & -> & -> & _).
    unfold itemMessage. cbn [fst snd]. by rewrite Hctx. }
  rewrite Hmsgs in Hbuf.
  split; [exact Hcap|]. split; [by exists k|]. split.
  - intros Hnodrain. rewrite Hbuf.
    rewrite (totalDrained_zero env n 0) in Hk by (intros j Hj; by apply Hnodrain).
    by replace k with 0 by lia.
  - intros Hgen [h i] Hin target. subst target. cbn [fst snd].
    apply sentItems_In in Hin as (j & Hj & -> & -> & _).
    rewrite Hctx by done.
    pose proof (childContext_valid gen bctx (b + 1 + j) Hgen) as Hval.
    split; [exact Hval|]. by rewrite decode_stamp, Hval.
Qed.

Lemma fixture_validIDs : validIDs Fixtures.validGen.
Proof. intros h. split; reflexivity. Qed.

Lemma batch_messages_witness :
  (0 < 2)%Z /\
  (forall j, j < 2 -> drained (sched Sample.allSent j) = 0) /\
  validIDs (idgen (world Fixtures.state1)) /\
  exists st1 r,
    publishInternal Sample.allSent Fixtures.state1 Background 2 true = Returns (st1, r) /\
    chBuf (messages (queue st1)) =
      [stamp (SpanContextOf (world st1) 1) (newOrder Sample.allSent 0);
       stamp (SpanContextOf (world st1) 2) (newOrder Sample.allSent 1)] /\
    IsValid (SpanContextOf (world st1) 2) = true.
Proof.
  assert (Hpos : (0 < 2)%Z) by lia.
  assert (Hdrain : forall j, j < 2 -> drained (sched Sample.allSent j) = 0) by done.
  split; [exact Hpos|]. split; [exact Hdrain|]. split; [exact fixture_validIDs|].
  destruct (publishInternal Sample.allSent Fixtures.state1 Background 2 true)
    as [[st1 r]| | |] eqn:Hpub; try (vm_compute in Hpub; discriminate Hpub).
  exists st1, r. split; [reflexivity|].
  destruct (batch_messages Sample.allSent Fixtures.state1 st1 Background 2 true r Hpos Hpub)
    as (_ & _ & Hbuf & Hdec).
  split.
  - exact (Hbuf Hdrain).
  - exact (proj1 (Hdec fixture_validIDs (2, 1) ltac:(vm_compute; auto))).
Defined.



(** X13. An item whose publish fails is accounted for on its span and
    nowhere else. In both modes its span records the error of the publish
    and is ended exactly once; the registry never holds that span; no
    message is put on the channel for it. The span of a published item
    records no error. *)
Theorem failed_item_span (env : Env) (st st1 : ProducerState) (ctx : Context) (count : Z)
    (keepOpen : bool) (r : BatchResult) (j : nat) :
  (0 < count)%Z ->
  publishInternal env st ctx count keepOpen = Returns (st1, r) ->
  j < Z.to_nat count ->
  let b := length (spans (world st)) in
  (fired (sched env j) = CtxDone ->
     errorsOf (world st1) (b + 1 + j) = [ErrCanceled] /\
     endCalls (world st1) (b + 1 + j) = 1 /\
     (forall k, resOrderSpans r !! k <> Some (Some (b + 1 + j))) /\
     ~ In (b + 1 + j, j) (sentItems env (b + 1) 0 (Z.to_nat count))) /\
  (fired (sched env j) = ChanReady ->
     errorsOf (world st1) (b + 1 + j) = [] /\
     In (b + 1 + j, j) (sentItems env (b + 1) 0 (Z.to_nat count))).
Proof.
  intros Hpos Hpub Hj b.
  destruct (publishInternal_exact env st st1 ctx count keepOpen r Hpos Hpub)
    as (_ & Hreg & _ & _ & _ & _ & _ & _ & Hitems & _).
  fold b in Hreg, Hitems.
  destruct (Hitems j Hj) as (c & Hs & Hzero & _).
  destruct (iter_ended_fields c
              (itemRecord env keepOpen (idgen (world st))
                 (childContext (idgen (world st)) ctx b) (b + 1 + j) j))
    as (_ & _ & _ & _ & _ & _ & Herrs & _ & _ & Hends).
  unfold errorsOf, endCalls. rewrite Hs, Herrs, Hends.
  cbn [itemRecord spErrors spEndCalls]. unfold itemEnds.
  split; intros Hf; rewrite Hf.
  - rewrite (Hzero Hf). refine (conj eq_refl (conj eq_refl (conj _ _))).
    + intros k Hk. rewrite Hreg in Hk.
      apply register_lookup in Hk as [Hk|([h i] & Hin & _ & [= E])];
        [by rewrite lookup_empty in Hk|].
      cbn [fst] in E. subst h.
      apply sentItems_In in Hin as (j' & _ & Hh & _ & Hf').
      assert (j' = j) by lia. subst j'. cbn in Hf'. congruence.
    + intros Hin. apply sentItems_In in Hin as (j' & _ & Hh & _ & Hf').
      assert (j' = j) by lia. subst j'. cbn in Hf'. congruence.
  - split; [reflexivity|]. apply sentItems_In. by exists j.
Qed.

Lemma failed_item_span_witness :
  let env := mkEnv (fun i => pretty i) (fun _ => 0%Z)
               (fun i => mkSched 0 (if Nat.eqb i 1 then CtxDone else ChanReady)) in
  (0 < 3)%Z /\
  1 < Z.to_nat 3 /\
  fired (sched env 1) = CtxDone /\
  exists st1 r,
    publishInternal env Sample.state0 Background 3 false = Returns (st1, r) /\
    errorsOf (world st1) 2 = [ErrCanceled] /\
    endCalls (world st1) 2 = 1.
Proof.
  intros env.
  assert (Hpos : (0 < 3)%Z) by lia.
  assert (Hj : 1 < Z.to_nat 3) by (vm_compute; lia).
  assert (Hf : fired (sched env 1) = CtxDone) by reflexivity.
  split; [exact Hpos|]. split; [exact Hj|]. split; [exact Hf|].
  destruct (publishInternal env Sample.state0 Background 3 false)
    as [[st1 r]| | |] eqn:Hpub; try (vm_compute in Hpub; discriminate Hpub).
  exists st1, r. split; [reflexivity|].
  destruct (proj1 (failed_item_span env Sample.state0 st1 Background 3 false r 1
                     Hpos Hpub Hj) Hf) as (He & Hn & _).
  split; [exact He|exact Hn].
Defined.



(** ** The worker, exactly *)

Lemma Start_links_exact (W : World) (ctx : Context) (name : string) (kind : SpanKind)
    (attrs : list KeyValue) (links : list Link) :
  Start W ctx name kind attrs links =
    (mkWorld (idgen W)
       (spans W ++
          [mkSpanData name kind (childContext (idgen W) ctx (length (spans W))) ctx attrs
             (List.filter keepsLink links) [] [] None 0])
       (timeline W ++ [EvStart (length (spans W))]),
     childContext (idgen W) ctx (length (spans W)),
     length (spans W)).
Proof. reflexivity. Qed.

(** A step of the worker: a span that is started, slept in and ended. *)
Lemma step_exact (gen : nat -> TraceID * SpanID) (l : list SpanData) (tl : list Event)
    (ctx : Context) (name : string) (attrs : list KeyValue) (d : Z) :
  (let '(W1, _, span) := Start (mkWorld gen l tl) ctx name SpanKindInternal attrs [] in
   End span (Sleep d W1)) =
  mkWorld gen
    (l ++ [mkSpanData name SpanKindInternal (childContext gen ctx (length l)) ctx attrs
             [] [] [] None 1])
    (tl ++ [EvStart (length l); EvSleep d; EvEnd (length l)]).
Proof.
  rewrite Start_links_exact. cbn [idgen spans timeline List.filter].
  unfold End, Sleep, record, updSpan, setSpans. cbn [idgen spans timeline].
  f_equal.
  - by rewrite alter_last.
  - by rewrite <- !app_assoc.
Qed.

Lemma validateOrder_exact (gen : nat -> TraceID * SpanID) (l : list SpanData)
    (tl : list Event) (ctx : Context) (order : Order) :
  validateOrder (mkWorld gen l tl) ctx order =
  (mkWorld gen
     (l ++ [mkSpanData "ValidateOrder" SpanKindInternal (childContext gen ctx (length l)) ctx
              [] [] [] [] None 1])
     (tl ++ [EvStart (length l); EvSleep ValidationTimeout; EvEnd (length l)]), None).
Proof.
  unfold validateOrder.
  pose proof (step_exact gen l tl ctx "ValidateOrder" [] ValidationTimeout) as H.
  destruct (Start _ _ _ _ _ _) as [[W1 c] span]. by rewrite H.
Qed.

Lemma processPayment_exact (gen : nat -> TraceID * SpanID) (l : list SpanData)
    (tl : list Event) (ctx : Context) (order : Order) :
  processPayment (mkWorld gen l tl) ctx order =
  (mkWorld gen
     (l ++ [mkSpanData "ProcessPayment" SpanKindInternal (childContext gen ctx (length l)) ctx
              [("payment.amount", AFloat64 (Amount order))] [] [] [] None 1])
     (tl ++ [EvStart (length l); EvSleep PaymentTimeout; EvEnd (length l)]), None).
Proof.
  unfold processPayment.
  pose proof (step_exact gen l tl ctx "ProcessPayment"
                [("payment.amount", AFloat64 (Amount order))] PaymentTimeout) as H.
  destruct (Start _ _ _ _ _ _) as [[W1 c] span]. by rewrite H.
Qed.

Lemma shipOrder_exact (gen : nat -> TraceID * SpanID) (l : list SpanData)
    (tl : list Event) (ctx : Context) (order : Order) :
  shipOrder (mkWorld gen l tl) ctx order =
  (mkWorld gen
     (l ++ [mkSpanData "ShipOrder" SpanKindInternal (childContext gen ctx (length l)) ctx
              [("customer.id", AString (CustomerID order))] [] [] [] None 1])
     (tl ++ [EvStart (length l); EvSleep ShippingTimeout; EvEnd (length l)]), None).
Proof.
  unfold shipOrder.
  pose proof (step_exact gen l tl ctx "ShipOrder"
                [("customer.id", AString (CustomerID order))] ShippingTimeout) as H.
  destruct (Start _ _ _ _ _ _) as [[W1 c] span]. by rewrite H.
Qed.

(** [processOrderWithLink] on a message with an identity, exactly. *)
Lemma processOrderWithLink_exact (w : WorkerService) (W : World) (ctx : Context)
    (order : Order) (workerID : string) (sc : SpanContext) :
  ID order <> "" ->
  SpanContextFromMessage order = Returns sc ->
  let L := length (spans W) in
  let gen := idgen W in
  let pctx := childContext gen ctx L in
  processOrderWithLink w W ctx order workerID =
  Returns
    (mkWorker (activeOrders w)
       (match spanCtxSink w with
        | Some ch => Some (trySend ch (mkOSC (ID order) pctx))
        | None => None
        end),
     mkWorld gen
       (spans W ++
          [mkSpanData "ProcessOrder" SpanKindConsumer pctx ctx (processAttrs order workerID)
             [backLink sc] [] [] None 1;
           mkSpanData "ValidateOrder" SpanKindInternal (childContext gen pctx (L + 1)) pctx
             [] [] [] [] None 1;
           mkSpanData "ProcessPayment" SpanKindInternal (childContext gen pctx (L + 2)) pctx
             [("payment.amount", AFloat64 (Amount order))] [] [] [] None 1;
           mkSpanData "ShipOrder" SpanKindInternal (childContext gen pctx (L + 3)) pctx
             [("customer.id", AString (CustomerID order))] [] [] [] None 1])
       (timeline W ++
          [EvStart L;
           EvStart (L + 1); EvSleep ValidationTimeout; EvEnd (L + 1);
           EvStart (L + 2); EvSleep PaymentTimeout; EvEnd (L + 2);
           EvStart (L + 3); EvSleep ShippingTimeout; EvEnd (L + 3);
           EvEnd L]),
     Some L, None).
Proof.
  intros Hid Hdec L gen pctx.
  unfold processOrderWithLink.
  apply String.eqb_neq in Hid. rewrite Hid, Hdec. cbn [obind].
  rewrite Start_links_exact. cbn [List.filter]. rewrite keepsLink_backLink.
  fold L gen pctx.
  rewrite validateOrder_exact, processPayment_exact, shipOrder_exact.
  rewrite !length_app. cbn [length].
  replace (L + 1 + 1) with (L + 2) by lia. replace (L + 2 + 1) with (L + 3) by lia.
  set (P0 := mkSpanData "ProcessOrder" _ _ _ _ _ _ _ _ _).
  rewrite <- !app_assoc. cbn [app].
  assert (Hctx : forall tl rest, SpanContextOf (mkWorld gen (spans W ++ P0 :: rest) tl) L = pctx).
  { intros tl rest. unfold SpanContextOf. cbn [spans]. subst L.
    by rewrite list_lookup_middle. }
  assert (Hend : forall tl rest,
    End L (mkWorld gen (spans W ++ P0 :: rest) tl)
    = mkWorld gen (spans W ++ ended P0 :: rest) (tl ++ [EvEnd L])).
  { intros tl rest. unfold End, record, updSpan, setSpans. cbn [idgen spans timeline].
    subst L. by rewrite alter_middle. }
  destruct (spanCtxSink w) as [ch|] eqn:Hsink; cbn [spanCtxSink activeOrders];
    rewrite ?Hctx, Hend, <- !app_assoc; cbn [app].
  all: subst pctx L;
    replace (length (spans W) + 1 + 1 + 1) with (length (spans W) + 3) by lia;
    replace (length (spans W) + 1 + 1) with (length (spans W) + 2) by lia;
    replace (activeOrders w + 1 - 1)%Z with (activeOrders w) by lia;
    reflexivity.
Qed.

(** X15. The life of a consumer span. Processing a message that has an
    identity always succeeds and adds exactly four spans: the consumer
    span ProcessOrder, a child of the caller's context, and under it, one
    after the other, the internal spans ValidateOrder, ProcessPayment and
    ShipOrder, which sleep 100, 150 and 120 milliseconds. Each of the
    four is ended exactly once, the three steps in turn and the consumer
    span last; no error is recorded; the spans that existed before are
    untouched; the counter of active orders is back at its value. *)
Theorem worker_span_lifecycle (w : WorkerService) (W : World) (ctx : Context)
    (order : Order) (workerID : string) :
  ID order <> "" ->
  let L := length (spans W) in
  exists w' W',
    processOrderWithLink w W ctx order workerID = Returns (w', W', Some L, None) /\
    activeOrders w' = activeOrders w /\
    length (spans W') = L + 4 /\
    (forall h, h < L -> spans W' !! h = spans W !! h) /\
    (exists p,
       spans W' !! L = Some p /\
       spName p = "ProcessOrder" /\ spKind p = SpanKindConsumer /\ spParent p = ctx /\
       spAttributes p = processAttrs order workerID /\
       spErrors p = [] /\ spEndCalls p = 1 /\
       forall k name, ["ValidateOrder"; "ProcessPayment"; "ShipOrder"] !! k = Some name ->
         exists s,
           spans W' !! (L + 1 + k) = Some s /\
           spName s = name /\ spKind s = SpanKindInternal /\
           spParent s = spContext p /\
           spLinks s = [] /\ spErrors s = [] /\ spEndCalls s = 1) /\
    since W W' =
      [EvStart L;
       EvStart (L + 1); EvSleep 100; EvEnd (L + 1);
       EvStart (L + 2); EvSleep 150; EvEnd (L + 2);
       EvStart (L + 3); EvSleep 120; EvEnd (L + 3);
       EvEnd L].
Proof.
  intros Hid L.
  destruct (decode_returns order) as [sc Hdec].
  pose proof (processOrderWithLink_exact w W ctx order workerID sc Hid Hdec) as Hrun.
  cbv zeta in Hrun. fold L in Hrun.
  eexists _, _. split; [exact Hrun|].
  cbn [activeOrders spans]. split; [reflexivity|].
  split; [rewrite length_app; cbn [length]; subst L; lia|].
  split; [intros h Hh; by apply lookup_app_l|].
  split.
  - eexists. split; [subst L; by rewrite list_lookup_middle|].
    cbn [spName spKind spParent spAttributes spErrors spEndCalls spContext].
    do 6 (split; [reflexivity|]).
    intros k name Hk.
    rewrite lookup_app_r by (subst L; lia).
    replace (L + 1 + k - length (spans W)) with (S k) by (subst L; lia).
    cbn [lookup list_lookup].
    destruct k as [|[|[|k]]]; cbn in Hk; try discriminate Hk;
      injection Hk as <-; eexists; (split; [reflexivity|]); done.
  - by apply since_app.
Qed.

Lemma worker_span_lifecycle_witness :
  let order := mkOrder "ORDER-1" "CUST-1000" 100 0 "" "" "" in
  ID order <> "" /\
  exists w' W',
    processOrderWithLink (mkWorker 5 None) Sample.world0 Background order "worker-1"
      = Returns (w', W', Some 0, None) /\
    activeOrders w' = 5%Z /\
    length (spans W') = 4.
Proof.
  intros order.
  assert (Hid : ID order <> "") by discriminate.
  split; [exact Hid|].
  destruct (worker_span_lifecycle (mkWorker 5 None) Sample.world0 Background order
              "worker-1" Hid) as (w' & W' & Hrun & Hact & Hlen & _).
  exists w', W'. split; [exact Hrun|]. split; [exact Hact|exact Hlen].
Defined.

(** X16. The worker never waits for the producer to listen. After a
    successful processing it offers the identity of the message together
    with the SpanContext of its ProcessOrder span to the sink without
    blocking: the record is appended when the sink has room and silently
    dropped when the sink is full; a worker without sink emits nothing.
    With a tracer that hands out valid identities the SpanContext offered
    is valid. *)
Theorem worker_sink_try_send (w : WorkerService) (W : World) (ctx : Context)
    (order : Order) (workerID : string) :
  ID order <> "" ->
  let L := length (spans W) in
  exists w' W',
    processOrderWithLink w W ctx order workerID = Returns (w', W', Some L, None) /\
    (validIDs (idgen W) -> IsValid (SpanContextOf W' L) = true) /\
    match spanCtxSink w with
    | None => spanCtxSink w' = None
    | Some ch =>
        exists ch',
          spanCtxSink w' = Some ch' /\
          chCap ch' = chCap ch /\
          (length (chBuf ch) < chCap ch ->
             chBuf ch' = chBuf ch ++ [mkOSC (ID order) (SpanContextOf W' L)]) /\
          (chCap ch <= length (chBuf ch) -> ch' = ch)
    end.
Proof.
  intros Hid L.
  destruct (decode_returns order) as [sc Hdec].
  pose proof (processOrderWithLink_exact w W ctx order workerID sc Hid Hdec) as Hrun.
  cbv zeta in Hrun. fold L in Hrun.
  eexists _, _. split; [exact Hrun|].
  assert (Hctx : forall tl rest p,
    SpanContextOf (mkWorld (idgen W) (spans W ++ p :: rest) tl) L = spContext p).
  { intros tl rest p. unfold SpanContextOf. cbn [spans]. subst L.
    by rewrite list_lookup_middle. }
  rewrite Hctx. cbn [spContext spanCtxSink].
  split; [intros Hgen; by apply childContext_valid|].
  destruct (spanCtxSink w) as [ch|]; [|reflexivity].
  eexists. split; [reflexivity|]. unfold trySend.
  destruct (Nat.ltb_spec (length (chBuf ch)) (chCap ch)) as [Hlt|Hge]; cbn [chBuf chCap].
  - split; [reflexivity|]. split; [done|lia].
  - split; [reflexivity|]. split; [lia|done].
Qed.

Lemma worker_sink_try_send_witness :
  let order := mkOrder "ORDER-1" "CUST-1000" 100 0 "" "" "" in
  let full := mkChan [mkOSC "ORDER-0" Sample.consumerCtx] 1 in
  ID order <> "" /\
  chCap full <= length (chBuf full) /\
  exists w' W',
    processOrderWithLink (mkWorker 0 (Some full)) Sample.world0 Background order "worker-1"
      = Returns (w', W', Some 0, None) /\
    spanCtxSink w' = Some full.
Proof.
  intros order full.
  assert (Hid : ID order <> "") by discriminate.
  assert (Hfull : chCap full <= length (chBuf full)) by (cbn; lia).
  split; [exact Hid|]. split; [exact Hfull|].
  destruct (worker_sink_try_send (mkWorker 0 (Some full)) Sample.world0 Background order
              "worker-1" Hid) as (w' & W' & Hrun & _ & ch' & Hs & _ & _ & Hdrop).
  exists w', W'. split; [exact Hrun|]. by rewrite Hs, (Hdrop Hfull).
Defined.

(** ** The worker loop *)

Import WorkerLoop.



Lemma ProcessOrders_stop (t : Tick) (ticks : list Tick) (w : WorkerService) (W : World)
    (q : SimpleQueue) (ctx : Context) (workerID : string) :
  stops t = true ->
  ProcessOrders (t :: ticks) w W q ctx workerID = Returns (w, W, q).
Proof.
  unfold stops. destruct t as [d f]. cbn [doneAtCheck consumeFired ProcessOrders].
  destruct d; [done|]. destruct f; [done|]. intros _. reflexivity.
Qed.



Lemma ProcessOrders_outcome (ctx : Context) (workerID : string) (ticks : list Tick) :
  forall (w : WorkerService) (W : World) (q : SimpleQueue),
    (ProcessOrders ticks w W q ctx workerID = Blocks /\
     (Forall (fun t => stops t = false) ticks \/
      exists n, Forall (fun t => stops t = false) (take n ticks) /\
                Length q < n)) \/
    (exists w' W' q' n,
       ProcessOrders ticks w W q ctx workerID = Returns (w', W', q') /\
       (exists t, ticks !! n = Some t /\ stops t = true) /\
       Forall (fun t => stops t = false) (take n ticks) /\
       n <= Length q).
Proof.
  induction ticks as [|t ticks IH]; intros w W q.
  - left. split; [reflexivity|]. left. constructor.
  - destruct (stops t) eqn:Hstop.
    + right. exists w, W, q, 0. rewrite ProcessOrders_stop by done.
      split; [reflexivity|]. split; [by exists t|]. split; [constructor|lia].
    + unfold stops in Hstop. destruct t as [d f]. cbn [doneAtCheck consumeFired] in Hstop.
      destruct d; [discriminate Hstop|]. destruct f; [|discriminate Hstop].
      cbn [ProcessOrders doneAtCheck consumeFired Consume].
      destruct q as [[[|m buf] cap]]; cbn [messages chBuf chCap obind].
      * left. split; [reflexivity|]. right. exists 1. split; [|cbn; lia].
        cbn. by repeat constructor.
      * assert (Hproc : exists w1 W1 sp e,
                  processOrderWithLink w W ctx m workerID = Returns (w1, W1, sp, e)).
        { destruct (String.eqb_spec (ID m) "") as [Hempty|Hid].
          - unfold processOrderWithLink. rewrite (proj2 (String.eqb_eq _ _) Hempty).
            by do 4 eexists.
          - destruct (decode_returns m) as [sc Hdec].
            rewrite (processOrderWithLink_exact w W ctx m workerID sc Hid Hdec).
            by do 4 eexists. }
        destruct Hproc as (w1 & W1 & sp & e & ->). cbn [obind].
        destruct (IH w1 W1 (mkQueue (mkChan buf cap)))
          as [[Hb Hwhy]|(w' & W' & q' & n & Hr & (t & Ht & Hs) & Hall & Hn)].
        -- left. split; [exact Hb|].
           destruct Hwhy as [Hall|(n & Hall & Hn)].
           ++ left. by constructor.
           ++ right. exists (S n). cbn [take]. split; [by constructor|].
              unfold Length in *. cbn in *. lia.
        -- right. exists w', W', q', (S n). split; [exact Hr|].
           split; [by exists t|]. cbn [take]. split; [by constructor|].
           unfold Length in *. cbn in *. lia.
Qed.

(** X18. A worker leaves its loop only through cancellation, and never
    by a panic. [ProcessOrders] returns exactly when some turn finds the
    context done and the queue held a message for every turn before it;
    otherwise the worker is still waiting, in [Consume] on an empty
    queue or for its next turn. A failure of processing (a message
    without identity) does not end the loop. *)
Theorem worker_loop_ends_only_on_cancel (ticks : list Tick) (w : WorkerService) (W : World)
    (q : SimpleQueue) (ctx : Context) (workerID : string) :
  (ProcessOrders ticks w W q ctx workerID = Blocks \/
   exists w' W' q', ProcessOrders ticks w W q ctx workerID = Returns (w', W', q')) /\
  ((exists w' W' q', ProcessOrders ticks w W q ctx workerID = Returns (w', W', q')) <->
   exists n t, ticks !! n = Some t /\ stops t = true /\
               Forall (fun t => stops t = false) (take n ticks) /\
               n <= Length q).
Proof.
  destruct (ProcessOrders_outcome ctx workerID ticks w W q)
    as [[Hb Hwhy]|(w' & W' & q' & n & Hr & (t & Ht & Hs) & Hall & Hn)].
  - split; [by left|]. rewrite Hb. split; [by intros (? & ? & ? & ?)|].
    intros (n & t & Ht & Hs & Hall & Hn). exfalso.
    destruct Hwhy as [Hno|(n' & Hno & Hn')].
    + rewrite Forall_lookup in Hno.
      assert (stops t = false); [|congruence].
      by apply (Hno n t).
    + assert (Hlt : n < n') by lia.
      rewrite Forall_lookup in Hno.
      assert (stops t = false); [|congruence].
      apply (Hno n t). by rewrite lookup_take_lt.
  - split; [right; by exists w', W', q'|].
    split; [|intros _; by exists w', W', q'].
    intros _. by exists n, t.
Qed.

(** ** The retry chain, span by span *)

Import Attempts.


Section RetryExact.

Variable rnd : Z -> bool.



End RetryExact.


(** ** Fan-out under every schedule *)

Import FanOut.




Section FanOutSteps.

Variables (W0 : World) (L : nat) (r : SpanContext) (b : string).



End FanOutSteps.




(** ** Fan-in under every schedule *)







Section FanInSteps.

Variable W0 : World.





End FanInSteps.




(** ** The log handler *)

Import Logging.






(** ** The two revisions of the producer *)

Lemma loops_agree (env : Env) (bctx : Context) (n : nat) :
  forall (i : nat) (W : World) (q : SimpleQueue) (pub : Z)
         (m : gmap string (option nat)) (err : option error),
    match ProducerStandalone.publishLoop env bctx n i
            (ProducerStandalone.mkLoop W q pub err) with
    | Returns ls =>
        exists m',
          Producer.publishLoop env bctx false n i (Producer.mkLoop W q pub m err)
          = Returns (Producer.mkLoop (ProducerStandalone.lsWorld ls)
                       (ProducerStandalone.lsQueue ls)
                       (ProducerStandalone.lsPublished ls) m'
                       (ProducerStandalone.lsLastErr ls))
    | Blocks =>
        Producer.publishLoop env bctx false n i (Producer.mkLoop W q pub m err) = Blocks
    | _ => False
    end.
Proof.
  induction n as [|n IH]; intros i W q pub m err.
  - cbn. by exists m.
  - cbn [ProducerStandalone.publishLoop Producer.publishLoop
           ProducerStandalone.lsWorld ProducerStandalone.lsQueue
           ProducerStandalone.lsPublished ProducerStandalone.lsLastErr
           Producer.lsWorld Producer.lsQueue Producer.lsPublished Producer.lsOrderSpans
           Producer.lsLastErr].
    destruct (Start W bctx "PublishOrder" SpanKindInternal _ []) as [[W1 ictx] pubSpan].
    destruct (Publish _ ictx _ _) as [[q1 [e|]]| | |] eqn:Hpub; cbn [obind].
    + apply IH.
    + apply IH.
    + unfold Publish in Hpub. destruct (fired _); [destruct (_ <? _)%nat|]; discriminate.
    + reflexivity.
    + unfold Publish in Hpub. destruct (fired _); [destruct (_ <? _)%nat|]; discriminate.
Qed.

(** X23. The refactoring of the producer kept its behaviour, up to the
    repeated [End] calls. Whatever the count, the schedule and the state:
    the earlier, self-contained [PublishOrderBatch] blocks exactly when
    the present one does; when it returns, the present one returns the
    same SpanContext and the same error and leaves the same queue, and
    the span store it leaves differs from the earlier one's only in that
    some spans have received further [End] calls. *)
Theorem producer_revisions_agree (env : Env) (st : ProducerState) (ctx : Context)
    (count : Z) :
  match ProducerStandalone.PublishOrderBatch env st ctx count with
  | Returns (st2, res) =>
      exists st1,
        Producer.PublishOrderBatch env st ctx count = Returns (st1, res) /\
        queue st1 = queue st2 /\
        idgen (world st1) = idgen (world st2) /\
        length (spans (world st1)) = length (spans (world st2)) /\
        forall h, exists c,
          spans (world st1) !! h = Nat.iter c ended <$> spans (world st2) !! h
  | Blocks => Producer.PublishOrderBatch env st ctx count = Blocks
  | _ => False
  end.
Proof.
  assert (Hsame : forall W : World, forall h, exists c,
            spans W !! h = Nat.iter c ended <$> spans W !! h).
  { intros W h. exists 0. cbn. by destruct (spans W !! h). }
  unfold ProducerStandalone.PublishOrderBatch, Producer.PublishOrderBatch, publishInternal.
  destruct (count <=? 0)%Z.
  { cbn. exists st. by repeat split. }
  destruct (Start (world st) ctx "PublishOrderBatch" SpanKindProducer _ [])
    as [[W0 bctx] span].
  pose proof (loops_agree env bctx (Z.to_nat count) 0 W0 (queue st) 0 ∅ None) as Hloops.
  destruct (ProducerStandalone.publishLoop env bctx (Z.to_nat count) 0 _)
    as [ls| | |]; [|done| |done].
  2:{ by rewrite Hloops. }
  destruct Hloops as [m' Hloop]. rewrite Hloop. cbn [obind Producer.lsPublished
    Producer.lsWorld Producer.lsQueue Producer.lsOrderSpans Producer.lsLastErr].
  destruct (ProducerStandalone.lsPublished ls =? 0)%Z.
  { cbn [obind resErr]. eexists. split; [reflexivity|]. cbn [queue world].
    repeat split. apply Hsame. }
  set (W1 := AddEvent span "Batch published" _ (ProducerStandalone.lsWorld ls)).
  assert (Hnonil : forall k, m' !! k <> Some None).
  { intros k Hk. apply publishLoop_exact in Hloop as (_ & _ & _ & Hm & _).
    cbn [Producer.lsOrderSpans] in Hm. rewrite Hm in Hk.
    apply register_lookup in Hk as [Hk|(hi & _ & _ & [=])].
    by rewrite lookup_empty in Hk. }
  destruct (endAll_iter m' (End span W1) Hnonil) as (W2 & -> & Hgen & Hlen & Hit).
  cbn [obind resErr resSpan world queue].
  assert (Hctx : SpanContextOf W2 span = SpanContextOf W1 span).
  { unfold SpanContextOf. destruct (Hit span) as (c & -> & _).
    rewrite lookup_End_eq. destruct (spans W1 !! span) as [s|]; [|reflexivity].
    cbn. by destruct (iter_ended_fields c (ended s)) as (_ & _ & -> & _). }
  rewrite Hctx. eexists. split; [reflexivity|]. cbn [queue world].
  split; [reflexivity|]. split; [exact Hgen|]. split; [exact Hlen|].
  intros h. destruct (Hit h) as (c & Hc & _). by exists c.
Qed.

(** ** The forward-link driver without the assumption of distinct identities *)

Lemma sentItems_snoc (env : Env) (n : nat) : forall (h i : nat),
  sentItems env h i (S n) =
    sentItems env h i n ++
    match fired (sched env (i + n)) with
    | ChanReady => [(h + n, i + n)]
    | CtxDone => []
    end.
Proof.
  induction n as [|n IH]; intros h i.
  - cbn [sentItems]. rewrite !Nat.add_0_r. by destruct (fired (sched env i)).
  - change (sentItems env h i (S (S n))) with
      (match fired (sched env i) with
       | ChanReady => (h, i) :: sentItems env (S h) (S i) (S n)
       | CtxDone => sentItems env (S h) (S i) (S n)
       end).
    rewrite IH. cbn [sentItems].
    replace (S h + n) with (h + S n) by lia. replace (S i + n) with (i + S n) by lia.
    by destruct (fired (sched env i)).
Qed.

Lemma register_snoc (env : Env) (m : gmap string (option nat)) (sent : list (nat * nat))
    (hi : nat * nat) :
  register env m (sent ++ [hi]) = <[ID (newOrder env (snd hi)) := Some (fst hi)]> (register env m sent).
Proof. unfold register. by rewrite fold_left_app. Qed.

(** The registry holds the span of a published item exactly when no
    later published item has the same identity. *)
Lemma register_last (env : Env) (L n : nat) (k : string) (h : nat) :
  register env ∅ (sentItems env L 0 n) !! k = Some (Some h) <->
  exists j, j < n /\ h = L + j /\ k = ID (newOrder env j) /\
            fired (sched env j) = ChanReady /\
            forall j', j < j' < n -> fired (sched env j') = ChanReady ->
                       ID (newOrder env j') <> ID (newOrder env j).
Proof.
  induction n as [|n IH].
  - cbn. rewrite lookup_empty. split; [done|]. intros (j & Hj & _). lia.
  - rewrite sentItems_snoc. cbn [Nat.add].
    destruct (fired (sched env n)) eqn:Hf.
    + rewrite register_snoc. cbn [fst snd].
      destruct (decide (ID (newOrder env n) = k)) as [<-|Hne].
      * rewrite lookup_insert_eq. split.
        -- intros [= <-]. exists n. repeat split; [lia|done|]. intros j' Hj'. lia.
        -- intros (j & Hj & -> & Hk & Hfj & Hlast).
           destruct (decide (j = n)) as [->|Hjn]; [done|].
           exfalso. apply (Hlast n); [lia|done|done].
      * rewrite lookup_insert_ne by done. rewrite IH. split.
        -- intros (j & Hj & -> & -> & Hfj & Hlast). exists j.
           repeat split; [lia|done|].
           intros j' Hj' Hfj'. destruct (decide (j' = n)) as [->|Hjn]; [done|].
           apply Hlast; [lia|done].
        -- intros (j & Hj & -> & -> & Hfj & Hlast).
           destruct (decide (j = n)) as [->|Hjn]; [done|].
           exists j. repeat split; [lia|done|].
           intros j' Hj' Hfj'. apply Hlast; [lia|done].
    + rewrite app_nil_r, IH. split.
      * intros (j & Hj & -> & -> & Hfj & Hlast). exists j.
        repeat split; [lia|done|].
        intros j' Hj' Hfj'. destruct (decide (j' = n)) as [->|Hjn]; [congruence|].
        apply Hlast; [lia|done].
      * intros (j & Hj & -> & -> & Hfj & Hlast).
        destruct (decide (j = n)) as [->|Hjn]; [congruence|].
        exists j. repeat split; [lia|done|].
        intros j' Hj' Hfj'. apply Hlast; [lia|done].
Qed.

Lemma endCalls_withLink (l : Link) (s : SpanData) :
  spEndCalls (withLink l s) = spEndCalls s.
Proof. unfold withLink. by destruct (isRecording s && keepsLink l). Qed.

(** X24. The forward-link driver ends what the registry holds, and only
    that. When the batch reports an error the driver leaves the process;
    otherwise it returns, for any sink, with the batch span ended once
    and the older spans untouched. The span of an item whose publish
    failed is ended once. The span of a published item is ended once if
    no later published item of the batch has the same message identity;
    if one has, the registry entry was overwritten and the span of the
    earlier item is never ended. *)
Theorem forward_driver_ends_registered_spans (env : Env) (st st1 : ProducerState)
    (ctx : Context) (batchSize : Z) (sink : list OrderSpanContext) (r : BatchResult) :
  (0 < batchSize)%Z ->
  PublishOrderBatchWithOpenSpan env st ctx batchSize = Returns (st1, r) ->
  let b := length (spans (world st)) in
  let n := Z.to_nat batchSize in
  (resErr r <> None -> runForwardSingleBatch env st ctx batchSize sink = Exits) /\
  (resErr r = None ->
   exists W',
     runForwardSingleBatch env st ctx batchSize sink = Returns W' /\
     length (spans W') = b + 1 + n /\
     endCalls W' b = 1 /\
     forall j, j < n ->
       (fired (sched env j) = CtxDone -> endCalls W' (b + 1 + j) = 1) /\
       (fired (sched env j) = ChanReady ->
          (forall j', j < j' < n -> fired (sched env j') = ChanReady ->
                      ID (newOrder env j') <> ID (newOrder env j)) ->
          endCalls W' (b + 1 + j) = 1) /\
       (fired (sched env j) = ChanReady ->
          forall j', j < j' < n -> fired (sched env j') = ChanReady ->
                     ID (newOrder env j') = ID (newOrder env j) ->
          endCalls W' (b + 1 + j) = 0)).
Proof.
  intros Hpos Hpub b n.
  unfold runForwardSingleBatch. rewrite Hpub. cbn [obind].
  split; [intros Herr; by destruct (resErr r)|].
  intros Herr. rewrite Herr.
  unfold PublishOrderBatchWithOpenSpan in Hpub.
  destruct (publishInternal_exact env st st1 ctx batchSize true r Hpos Hpub)
    as (Hspan & Hreg & _ & _ & _ & Hlen & _ & (sb & Hsb & _ & _ & _ & _ & _ & _ & Hsb0)
        & Hitems & _).
  fold b n in Hspan, Hreg, Hlen, Hsb, Hitems.
  rewrite Hspan.
  set (collected := collect (resCount r) [] sink).
  set (m := resOrderSpans r) in *.
  assert (Hlast : forall k h, m !! k = Some (Some h) <->
            exists j, j < n /\ h = b + 1 + j /\ k = ID (newOrder env j) /\
                      fired (sched env j) = ChanReady /\
                      forall j', j < j' < n -> fired (sched env j') = ChanReady ->
                                 ID (newOrder env j') <> ID (newOrder env j)).
  { intros k h. subst m. rewrite Hreg. apply register_last. }
  assert (Hinj : openInj m).
  { intros k1 k2 h H1 H2.
    apply Hlast in H1 as (j1 & _ & -> & -> & _).
    apply Hlast in H2 as (j2 & _ & E & -> & _).
    assert (j1 = j2) by lia. by subst. }
  pose proof (addForwardLinks_spec collected (world st1) m Hinj) as Hlink.
  cbv zeta in Hlink.
  destruct (addForwardLinks collected (world st1, m)) as [W3 m3] eqn:Hres2.
  cbn [fst snd] in Hlink.
  destruct Hlink as (Hinj3 & Hopen & Hframe & Hmono & Hnil & Hlen3).
  pose proof (endRemaining_fold m3 W3 m3 Hinj3) as Hfall. cbv zeta in Hfall.
  unfold endRemaining. cbn [fst snd].
  set (res3 := map_fold _ (W3, m3) m3) in *.
  destruct Hfall as (Hfopen & Hfframe & Hlen4).
  eexists. split; [reflexivity|].
  split; [rewrite length_spans_End; lia|].
  assert (Hitem : forall j, j < n ->
            exists s, spans (world st1) !! (b + 1 + j) = Some s /\
                      spEndCalls s = itemEnds true env j).
  { intros j Hj. destruct (Hitems j Hj) as (c & Hs & _ & Hc).
    rewrite (Hc eq_refl) in Hs. eexists. split; [exact Hs|]. reflexivity. }
  assert (Hunreg : forall h, (forall k, m !! k <> Some (Some h)) ->
            spans (fst res3) !! h = spans (world st1) !! h).
  { intros h Hh. rewrite Hfframe.
    - by apply Hframe.
    - intros k Hk. apply (Hh k). by apply Hmono. }
  assert (Hregd : forall k h s, m !! k = Some (Some h) ->
            spans (world st1) !! h = Some s ->
            exists s', spans (fst res3) !! h = Some s' /\ spEndCalls s' = S (spEndCalls s)).
  { intros k h s Hk Hs. specialize (Hopen _ _ Hk).
    destruct (recordFor k collected) as [sc|].
    - destruct Hopen as [HW3 Hm3].
      rewrite Hfframe.
      + rewrite HW3, Hs. cbn. eexists. split; [reflexivity|].
        cbn. by rewrite endCalls_withLink.
      + intros k' Hk'. assert (k' = k) as ->
          by (eapply Hinj; [apply Hmono; exact Hk' | exact Hk]).
        congruence.
    - destruct Hopen as [HW3 Hm3].
      rewrite (Hfopen _ _ Hm3), HW3, Hs. cbn. by eexists. }
  split.
  - unfold endCalls. rewrite lookup_End_eq, Hunreg, Hsb; [cbn; by rewrite Hsb0|].
    intros k Hk. apply Hlast in Hk as (j & _ & E & _). lia.
  - intros j Hj. destruct (Hitem j Hj) as (s & Hs & He). unfold itemEnds in He.
    unfold endCalls. rewrite lookup_End_ne by lia.
    split; [|split].
    + intros Hf. rewrite Hf in He. rewrite Hunreg, Hs; [done|].
      intros k Hk. apply Hlast in Hk as (j' & _ & E & _ & Hf' & _).
      assert (j' = j) by lia. subst j'. congruence.
    + intros Hf Hnolater. rewrite Hf in He.
      assert (Hk : m !! ID (newOrder env j) = Some (Some (b + 1 + j))).
      { apply Hlast. exists j. by repeat split. }
      destruct (Hregd _ _ _ Hk Hs) as (s' & -> & ->). by rewrite He.
    + intros Hf j' Hj' Hf' Hsame. rewrite Hf in He.
      rewrite Hunreg, Hs; [done|].
      intros k Hk. apply Hlast in Hk as (j2 & _ & E & _ & _ & Hno).
      assert (j2 = j) by lia. subst j2. by apply (Hno j').
Qed.

Lemma forward_driver_ends_registered_spans_witness :
  let env := mkEnv (fun _ => "deadbeef") (fun _ => 0%Z) (fun _ => mkSched 0 ChanReady) in
  (0 < 2)%Z /\
  exists st1 r W',
    PublishOrderBatchWithOpenSpan env Sample.state0 Background 2 = Returns (st1, r) /\
    resErr r = None /\
    runForwardSingleBatch env Sample.state0 Background 2 [] = Returns W' /\
    ID (newOrder env 1) = ID (newOrder env 0) /\
    endCalls W' 1 = 0 /\
    endCalls W' 2 = 1.
Proof.
  intros env.
  assert (Hpos : (0 < 2)%Z) by lia.
  split; [exact Hpos|].
  destruct (PublishOrderBatchWithOpenSpan env Sample.state0 Background 2)
    as [[st1 r]| | |] eqn:Hpub; try (vm_compute in Hpub; discriminate Hpub).
  assert (Herr : resErr r = None).
  { assert (Hc := Hpub). vm_compute in Hc. injection Hc as _ <-. reflexivity. }
  destruct (proj2 (forward_driver_ends_registered_spans env Sample.state0 st1 Background 2
                     [] r Hpos Hpub) Herr) as (W' & Hrun & _ & _ & Hj).
  exists st1, r, W'. split; [reflexivity|]. split; [exact Herr|]. split; [exact Hrun|].
  split; [reflexivity|]. split.
  - apply (proj2 (proj2 (Hj 0 ltac:(vm_compute; lia))) eq_refl 1);
      [vm_compute; lia|reflexivity|reflexivity].
  - apply (proj1 (proj2 (Hj 1 ltac:(vm_compute; lia))) eq_refl).
    intros j' Hj'. vm_compute in Hj'. lia.
Defined.

(** ** A batch and the worker that drains it *)




(** ** Carriers tell spans apart *)

Lemma EncodeToString_inj (bs1 bs2 : list byte) :
  Hex.EncodeToString bs1 = Hex.EncodeToString bs2 -> bs1 = bs2.
Proof.
  intros H. apply (f_equal Hex.DecodeString) in H.
  rewrite !DecodeString_EncodeToString in H. by injection H.
Qed.

(** X26. The carrier tells spans apart. Two messages stamped by
    [Publish] carry the same traceparent only if they were published
    under SpanContexts with the same trace identity and the same span
    identity, valid or not; and the OriginalSpanID alone determines the
    span identity. The flags, the trace state and the remote marker of
    the publishing context leave no trace in the message. *)
Theorem carrier_injective (sc1 sc2 : SpanContext) (o1 o2 : Order) :
  (TraceParent (stamp sc1 o1) = TraceParent (stamp sc2 o2) ->
     TraceID_of sc1 = TraceID_of sc2 /\ SpanID_of sc1 = SpanID_of sc2) /\
  (OriginalSpanID (stamp sc1 o1) = OriginalSpanID (stamp sc2 o2) ->
     SpanID_of sc1 = SpanID_of sc2) /\
  (TraceID_of sc1 = TraceID_of sc2 -> SpanID_of sc1 = SpanID_of sc2 ->
     TraceParent (stamp sc1 o1) = TraceParent (stamp sc2 o1) /\
     OriginalSpanID (stamp sc1 o1) = OriginalSpanID (stamp sc2 o1)).
Proof.
  cbn [stamp TraceParent OriginalSpanID].
  split; [|split].
  - intros H.
    pose proof (traceparent_traceID sc1) as Ht1. pose proof (traceparent_traceID sc2) as Ht2.
    pose proof (traceparent_spanID sc1) as Hs1. pose proof (traceparent_spanID sc2) as Hs2.
    rewrite H in Ht1, Hs1. rewrite Ht2 in Ht1. rewrite Hs2 in Hs1.
    split; apply vec_to_list_inj2, EncodeToString_inj; by symmetry.
  - intros H. by apply vec_to_list_inj2, EncodeToString_inj.
  - intros Ht Hs. unfold traceparent. by rewrite Ht, Hs.
Qed.

Lemma carrier_injective_witness :
  let sc1 := Sample.consumerCtx in
  let sc2 := NewSpanContext (TraceID_of sc1) (SpanID_of sc1) x00 "vendor=1" true in
  TraceID_of sc1 = TraceID_of sc2 /\
  SpanID_of sc1 = SpanID_of sc2 /\
  sc1 <> sc2 /\
  TraceParent (stamp sc1 zeroOrder) = TraceParent (stamp sc2 zeroOrder).
Proof.
  intros sc1 sc2.
  assert (Ht : TraceID_of sc1 = TraceID_of sc2) by reflexivity.
  assert (Hs : SpanID_of sc1 = SpanID_of sc2) by reflexivity.
  split; [exact Ht|]. split; [exact Hs|]. split; [discriminate|].
  exact (proj1 (proj2 (proj2 (carrier_injective sc1 sc2 zeroOrder zeroOrder)) Ht Hs)).
Defined.
